(** * Cognesis orchestrator emulator: turn orchestration core

    A shallow embedding of the emulator's TypeScript sources
    ([utils.ts], [fixtures.ts], [sessionStore.ts], [sse.ts], [app.ts])
    and the properties its design document states about them.

    Conventions of the embedding:
    - a JS string is a [string] (its UTF-8 bytes); [trim] and
      [toLowerCase] are the ASCII ones;
    - a JS [number] that holds milliseconds, seconds or a percentage is a
      rational [Q] (exact arithmetic, no rounding); an epoch timestamp
      ([Date.now()]) is a [Z];
    - [Math.random()], [randomUUID()] and [Date.now()] are explicit
      arguments of the functions that call them;
    - a [throw] is the [Throw] constructor of [Outcome]; a function that
      mutates an object returns the new object;
    - a JS [Map] whose iteration order is observable is an insertion-ordered
      association list ([JsMap]); the other maps are [gmap]s. *)

From Stdlib Require Import ZArith QArith Qround Qminmax Ascii String List Lia Lqa.
From stdpp Require Import base option list gmap strings fin_maps.

Import ListNotations.
Open Scope string_scope.
Open Scope list_scope.
Open Scope Z_scope.

(** ** Outcomes of calls that may throw *)

(** An [Error] object: its message and the [code] property some carry. *)
Record JsError : Type := mkError {
  message : string;
  code : option string
}.

(** [new Error(msg)] *)
Definition error (msg : string) : JsError := {| message := msg; code := None |}.

Inductive Outcome (A : Type) : Type :=
| Return (a : A)
| Throw (e : JsError).
Arguments Return {A} a.
Arguments Throw {A} e.

(** ** JS string primitives *)

Module JsString.

Definition code (c : ascii) : Z := Z.of_N (N_of_ascii c).

Definition bytes (s : string) : list Z := map code (list_ascii_of_string s).

(** [s.slice(0, n)] *)
Fixpoint take (n : nat) (s : string) : string :=
  match n, s with
  | S k, String c t => String c (take k t)
  | _, _ => EmptyString
  end.

(** [s.slice(n)] *)
Fixpoint drop (n : nat) (s : string) : string :=
  match n, s with
  | S k, String _ t => drop k t
  | _, _ => s
  end.

(** [s.startsWith(p)] *)
Fixpoint startsWith (p s : string) : bool :=
  match p, s with
  | EmptyString, _ => true
  | String a p', String b s' => Ascii.eqb a b && startsWith p' s'
  | String _ _, EmptyString => false
  end.

(** [s.includes(p)] *)
Fixpoint includes (p s : string) : bool :=
  startsWith p s ||
  match s with
  | EmptyString => false
  | String _ t => includes p t
  end.

(** ASCII white space, as removed by [trim]. *)
Definition isSpace (c : ascii) : bool :=
  let n := code c in
  (n =? 32) || ((9 <=? n) && (n <=? 13)).

Fixpoint trimStart (s : string) : string :=
  match s with
  | String c t => if isSpace c then trimStart t else s
  | EmptyString => s
  end.

(** Drops trailing white space: a character is kept when it is not a
    space or when something is kept after it. *)
Fixpoint trimEnd (s : string) : string :=
  match s with
  | EmptyString => EmptyString
  | String c t =>
      match trimEnd t with
      | EmptyString => if isSpace c then EmptyString else String c EmptyString
      | r => String c r
      end
  end.

Definition trim (s : string) : string := trimEnd (trimStart s).

Definition lowerChar (c : ascii) : ascii :=
  let n := code c in
  if (65 <=? n) && (n <=? 90) then ascii_of_N (Z.to_N (n + 32)) else c.

Fixpoint toLowerCase (s : string) : string :=
  match s with
  | EmptyString => EmptyString
  | String c t => String (lowerChar c) (toLowerCase t)
  end.

End JsString.

(** ** SHA-256 (FIPS 180-4), the digest behind [crypto.createHash("sha256")] *)

Module Sha256.

Definition w32 (x : Z) : Z := x mod 4294967296.
Definition add32 (x y : Z) : Z := w32 (x + y).
Definition rotr (n x : Z) : Z :=
  w32 (Z.lor (Z.shiftr x n) (Z.shiftl x (32 - n))).
Definition shr (n x : Z) : Z := Z.shiftr x n.
Definition not32 (x : Z) : Z := Z.lxor x 4294967295.

Definition Ch (x y z : Z) : Z := Z.lxor (Z.land x y) (Z.land (not32 x) z).
Definition Maj (x y z : Z) : Z :=
  Z.lxor (Z.lxor (Z.land x y) (Z.land x z)) (Z.land y z).
Definition bigSigma0 (x : Z) : Z := Z.lxor (Z.lxor (rotr 2 x) (rotr 13 x)) (rotr 22 x).
Definition bigSigma1 (x : Z) : Z := Z.lxor (Z.lxor (rotr 6 x) (rotr 11 x)) (rotr 25 x).
Definition smallSigma0 (x : Z) : Z := Z.lxor (Z.lxor (rotr 7 x) (rotr 18 x)) (shr 3 x).
Definition smallSigma1 (x : Z) : Z := Z.lxor (Z.lxor (rotr 17 x) (rotr 19 x)) (shr 10 x).

(** The round constants (the fractional parts of the cube roots of the
    first 64 primes, 32 bits each), in decimal. *)
Definition K : list Z :=
  [
    1116352408; 1899447441; 3049323471; 3921009573;
    961987163; 1508970993; 2453635748; 2870763221;
    3624381080; 310598401; 607225278; 1426881987;
    1925078388; 2162078206; 2614888103; 3248222580;
    3835390401; 4022224774; 264347078; 604807628;
    770255983; 1249150122; 1555081692; 1996064986;
    2554220882; 2821834349; 2952996808; 3210313671;
    3336571891; 3584528711; 113926993; 338241895;
    666307205; 773529912; 1294757372; 1396182291;
    1695183700; 1986661051; 2177026350; 2456956037;
    2730485921; 2820302411; 3259730800; 3345764771;
    3516065817; 3600352804; 4094571909; 275423344;
    430227734; 506948616; 659060556; 883997877;
    958139571; 1322822218; 1537002063; 1747873779;
    1955562222; 2024104815; 2227730452; 2361852424;
    2428436474; 2756734187; 3204031479; 3329325298
  ].

(** The eight working variables / chaining values. *)
Record Regs : Type := mkRegs {
  ra : Z; rb : Z; rc : Z; rd : Z; re : Z; rf : Z; rg : Z; rh : Z
}.

(** The initial hash value, in decimal. *)
Definition H0 : Regs :=
  {| ra := 1779033703; rb := 3144134277; rc := 1013904242; rd := 2773480762;
     re := 1359893119; rf := 2600822924; rg := 528734635; rh := 1541459225 |}.

(** Big-endian bytes of [x], [n] of them. *)
Fixpoint beBytes (n : nat) (x : Z) : list Z :=
  match n with
  | O => []
  | S k => (Z.shiftr x (8 * Z.of_nat k)) mod 256 :: beBytes k x
  end.

Definition beValue (bs : list Z) : Z := fold_left (fun acc b => acc * 256 + b) bs 0.

(** Message padding: 0x80, zeros up to 56 mod 64, the bit length on 8 bytes. *)
Definition pad (msg : list Z) : list Z :=
  let len := Z.of_nat (length msg) in
  let zeros := Z.to_nat ((55 - len) mod 64) in
  msg ++ [128] ++ repeat 0 zeros ++ beBytes 8 (8 * len).

(** Splits a list into 32-bit big-endian words (the tail shorter than four
    bytes, absent after padding, is dropped). *)
Fixpoint words (fuel : nat) (bs : list Z) : list Z :=
  match fuel, bs with
  | S k, b0 :: b1 :: b2 :: b3 :: t => beValue [b0; b1; b2; b3] :: words k t
  | _, _ => []
  end.

(** Extends the schedule, kept most recent word first, by [n] words:
    W[t] = s1(W[t-2]) + W[t-7] + s0(W[t-15]) + W[t-16]. *)
Fixpoint extend (n : nat) (rev_w : list Z) : list Z :=
  match n with
  | O => rev_w
  | S k =>
      let g i := nth i rev_w 0 in
      let w := add32 (add32 (smallSigma1 (g 1%nat)) (g 6%nat))
                     (add32 (smallSigma0 (g 14%nat)) (g 15%nat)) in
      extend k (w :: rev_w)
  end.

Definition schedule (block : list Z) : list Z := rev (extend 48 (rev block)).

Definition round (r : Regs) (kw : Z * Z) : Regs :=
  let t1 := add32 (add32 (add32 (rh r) (bigSigma1 (re r)))
                         (add32 (Ch (re r) (rf r) (rg r)) (fst kw))) (snd kw) in
  let t2 := add32 (bigSigma0 (ra r)) (Maj (ra r) (rb r) (rc r)) in
  mkRegs (add32 t1 t2) (ra r) (rb r) (rc r) (add32 (rd r) t1) (re r) (rf r) (rg r).

Definition compress (h : Regs) (block : list Z) : Regs :=
  let r := fold_left round (combine K (schedule block)) h in
  mkRegs (add32 (ra h) (ra r)) (add32 (rb h) (rb r)) (add32 (rc h) (rc r))
         (add32 (rd h) (rd r)) (add32 (re h) (re r)) (add32 (rf h) (rf r))
         (add32 (rg h) (rg r)) (add32 (rh h) (rh r)).

Fixpoint blocks (fuel : nat) (ws : list Z) (h : Regs) : Regs :=
  match fuel with
  | O => h
  | S k =>
      match ws with
      | [] => h
      | _ => blocks k (skipn 16 ws) (compress h (firstn 16 ws))
      end
  end.

Definition digest (msg : list Z) : Regs :=
  let p := pad msg in
  blocks (length p) (words (length p) p) H0.

Definition regsWords (r : Regs) : list Z :=
  [ra r; rb r; rc r; rd r; re r; rf r; rg r; rh r].

End Sha256.

(** ** Hexadecimal text *)

Module Hex.

Definition digit (d : Z) : ascii :=
  if d <? 10 then ascii_of_N (Z.to_N (48 + d)) else ascii_of_N (Z.to_N (87 + d)).

(** The value of a hexadecimal digit, upper or lower case. *)
Definition value (c : ascii) : option Z :=
  let n := JsString.code c in
  if (48 <=? n) && (n <=? 57) then Some (n - 48)
  else if (97 <=? n) && (n <=? 102) then Some (n - 87)
  else if (65 <=? n) && (n <=? 70) then Some (n - 55)
  else None.

(** Eight lower-case digits of a 32-bit word, most significant first. *)
Definition ofWord (w : Z) : string :=
  fold_right (fun i s => String (digit ((Z.shiftr w (4 * i)) mod 16)) s)
             EmptyString [7; 6; 5; 4; 3; 2; 1; 0].

Definition ofWords (ws : list Z) : string :=
  fold_right (fun w s => String.append (ofWord w) s) EmptyString ws.

End Hex.

(** ** [Number.parseInt(s, 16)] *)

Module JsNumber.

(** The longest prefix of hexadecimal digits; [None] (NaN) when it is empty. *)
Fixpoint hexPrefix (s : string) (acc : Z) (seen : bool) : option Z :=
  match s with
  | String c t =>
      match Hex.value c with
      | Some d => hexPrefix t (acc * 16 + d) true
      | None => if seen then Some acc else None
      end
  | EmptyString => if seen then Some acc else None
  end.

(** Leading white space, an optional sign and an optional [0x] are skipped. *)
Definition parseInt16 (s : string) : option Z :=
  let s1 := JsString.trimStart s in
  let signed :=
    match s1 with
    | String c t =>
        if Ascii.eqb c "-"%char then (-1, t)
        else if Ascii.eqb c "+"%char then (1, t)
        else (1, s1)
    | EmptyString => (1, s1)
    end in
  let s2 := snd signed in
  let s3 := if JsString.startsWith "0x" s2 || JsString.startsWith "0X" s2
            then JsString.drop 2 s2 else s2 in
  option_map (Z.mul (fst signed)) (hexPrefix s3 0 false).

(** [a % b] on integers: the remainder has the sign of [a]. *)
Definition jsRem (a b : Z) : Z := Z.rem a b.

Definition Qlt_bool (x y : Q) : bool := negb (Qle_bool y x).

End JsNumber.

(** ** utils.ts *)

Module Utils.

(** [crypto.createHash("sha256").update(value).digest("hex")] *)
Definition hashString (value : string) : string :=
  Hex.ofWords (Sha256.regsWords (Sha256.digest (JsString.bytes value))).

(** [items[index]]: [undefined] ([None]) outside the array. *)
Definition at_index {T : Type} (items : list T) (index : Z) : option T :=
  if index <? 0 then None else items !! Z.to_nat index.

(** The result is [Return None] when the array read yields [undefined]. *)
Definition selectDeterministic {T : Type} (items : list T) (key : string)
  : Outcome (option T) :=
  if (length items =? 0)%nat then Throw (error "Cannot select from empty list")
  else
    let hash := hashString key in
    let segment := JsString.take 8 hash in
    match JsNumber.parseInt16 segment with
    | None => Return None
    | Some n =>
        let index := JsNumber.jsRem n (Z.of_nat (length items)) in
        Return (at_index items index)
    end.

(** [random] is the value of [Math.random()], in [0, 1). *)
Definition withJitter (base jitter : Q) (random : Q) : Q :=
  if Qle_bool jitter 0 then Qmax 0 base
  else
    let delta := (inject_Z (Qfloor (random * (jitter * 2 + 1))) - jitter)%Q in
    Qmax 0 (base + delta)%Q.

Definition percentToHit (pct : Q) (random : Q) : bool :=
  if Qle_bool pct 0 then false
  else if Qle_bool 100 pct then true
  else JsNumber.Qlt_bool (random * 100)%Q pct.

Definition ensureLeadingSlash (pathname : string) : string :=
  if JsString.startsWith "/" pathname then pathname else String "/"%char pathname.

(** [input.split("?")[0]] *)
Fixpoint beforeQuery (s : string) : string :=
  match s with
  | EmptyString => EmptyString
  | String c t => if Ascii.eqb c "?"%char then EmptyString else String c (beforeQuery t)
  end.

(** [.replace(/\\/g, "/")] *)
Fixpoint backslashesToSlashes (s : string) : string :=
  match s with
  | EmptyString => EmptyString
  | String c t =>
      String (if Ascii.eqb c "\"%char then "/"%char else c) (backslashesToSlashes t)
  end.

(** [.replace(/^\/+/, ...)] with the empty text *)
Fixpoint stripLeadingSlashes (s : string) : string :=
  match s with
  | String c t => if Ascii.eqb c "/"%char then stripLeadingSlashes t else s
  | EmptyString => s
  end.

Fixpoint skipDots (s : string) : string :=
  match s with
  | String c t => if Ascii.eqb c "."%char then skipDots t else s
  | EmptyString => s
  end.

(** [.replace(/\.\.+/g, ".")]: scanning from the left, a dot followed by a
    dot starts a match that takes the whole run of dots and is replaced by
    one dot; any other character is copied. *)
Fixpoint collapseDotRuns (s : string) : string :=
  match s with
  | EmptyString => EmptyString
  | String c t =>
      if Ascii.eqb c "."%char && JsString.startsWith "." t
      then String "."%char (collapseDotRuns (skipDots t))
      else String c (collapseDotRuns t)
  end.

Definition sanitizeMediaPath (input : string) : Outcome string :=
  let base := beforeQuery input in
  let normalized :=
    collapseDotRuns (stripLeadingSlashes (backslashesToSlashes base)) in
  if JsString.includes ".." normalized then Throw (error "INVALID_MEDIA_PATH")
  else Return normalized.

End Utils.

(** ** JS [Map] with observable iteration order *)

Module JsMap.

(** Entries in insertion order, one per key. *)
Definition t (V : Type) : Type := list (string * V).

Definition empty {V : Type} : t V := [].

Fixpoint get {V : Type} (k : string) (m : t V) : option V :=
  match m with
  | [] => None
  | (k', v) :: r => if String.eqb k' k then Some v else get k r
  end.

Definition has {V : Type} (k : string) (m : t V) : bool :=
  match get k m with Some _ => true | None => false end.

(** [m.set(k, v)]: an existing key keeps its position. *)
Fixpoint set {V : Type} (k : string) (v : V) (m : t V) : t V :=
  match m with
  | [] => [(k, v)]
  | (k', v') :: r =>
      if String.eqb k' k then (k', v) :: r else (k', v') :: set k v r
  end.

(** [new Map(entries)] *)
Definition ofEntries {V : Type} (entries : list (string * V)) : t V :=
  fold_left (fun m kv => set (fst kv) (snd kv) m) entries empty.

(** [Array.from(m.values())] *)
Definition values {V : Type} (m : t V) : list V := map snd m.

Definition size {V : Type} (m : t V) : nat := length m.

End JsMap.

(** ** types.ts

    Fields that no function of the core reads ([title], [tags],
    [timeline_path], [marks], [sidecar], ...) are left out. *)

(** A JSON value as far as the code inspects it; arrays and objects it only
    copies are kept as their text. *)
Inductive JsVal : Type :=
| JNull
| JBool (b : bool)
| JNum (q : Q)
| JStr (s : string)
| JOpaque (text : string).

Record TimelineTrack : Type := mkTrack {
  track_type : string;
  track_id : string;
  track_source_url : option string;   (* [source.url] *)
  track_url : option string;          (* [url], read as a fallback *)
  track_offset : option Q;
  track_duration : option Q
}.

Record TimelineSwapPoint : Type := mkSwapPoint {
  sp_at : Q;
  sp_replace : string;
  sp_with : string
}.

Record TimelineShareRef : Type := mkShareRef {
  share_id : string;
  ttl_s : Q;
  poster : option string;
  expires_at : option string
}.

Record TimelineV1 : Type := mkTimeline {
  version : string;
  clock : string;
  start_at : string;
  sources_badge : option bool;
  tracks : list TimelineTrack;
  swap_points : option (list TimelineSwapPoint);
  share_ref : option TimelineShareRef;      (* [None]: null or absent *)
  meta : option (gmap string JsVal)
}.

Record LoadedFixture : Type := mkFixture {
  fx_id : string;
  persona_id : string;
  swap_enabled : option bool;
  share_enabled : option bool;
  idle_after_ms : option Q;
  timeline : TimelineV1
}.

Record MissFlags : Type := mkMiss {
  miss_tts : option bool;
  miss_clip : option bool
}.

Record LatencyMs : Type := mkLatency {
  lat_audio : Q;
  lat_clip : Q
}.

Record SessionRecord : Type := mkSession {
  sess_id : string;
  token : string;
  mode : string;
  personas : list (string * option string);
  sess_createdAt : Z;
  sess_expiresAt : Z
}.

Record TurnCacheEntry : Type := mkEntry {
  requestId : string;
  fixtureId : string;
  createdAt : Z;
  expiresAt : Z;
  bodyHash : string;
  entry_timeline : TimelineV1;
  personaId : string;
  idempotencyKey : string;
  miss : option MissFlags;
  latencyMs : LatencyMs
}.

(** [Omit<TurnCacheEntry, "idempotencyKey" | "createdAt" | "expiresAt" | "bodyHash">] *)
Record TurnEntryData : Type := mkEntryData {
  d_requestId : string;
  d_fixtureId : string;
  d_timeline : TimelineV1;
  d_personaId : string;
  d_miss : option MissFlags;
  d_latencyMs : LatencyMs
}.

Record IdempotencyResult : Type := mkResult {
  entry : TurnCacheEntry;
  reused : bool
}.

(** JS truthiness of an optional flag. *)
Definition truthy (b : option bool) : bool :=
  match b with Some true => true | _ => false end.

(** ** config.ts *)

Record EmulatorConfig : Type := mkConfig {
  pairAudioOnly : bool;
  sseHeartbeatSec : Q;
  sseBackoffSequenceMs : list Q;
  latency_tts : Q;
  latency_clip : Q;
  latency_jitter : Q;
  missPct_tts : Q;
  missPct_clip : Q;
  swapEnabled : bool;
  shareEnabled : bool;
  shareTtlMinutes : Q;
  sessionTtlSeconds : Z;
  idempotencyTtlSeconds : Z
}.

Module Config.

Definition SESSION_TTL_SECONDS : Z := 1800.
Definition IDEMPOTENCY_TTL_SECONDS : Z := 24 * 60 * 60.

(** [Math.min(Math.max(raw, 0), 100)], the clamp of [EMU_MISS_*_PCT]. *)
Definition clampPct (raw : Q) : Q := Qmin (Qmax raw 0) 100.

(** The configuration built from the numbers and flags read from the
    environment (already parsed; the defaults are those of [config.ts]). *)
Definition defaults : EmulatorConfig :=
  {| pairAudioOnly := true;
     sseHeartbeatSec := 15;
     sseBackoffSequenceMs := [1000; 3000; 5000; 10000]%Q;
     latency_tts := 600;
     latency_clip := 1200;
     latency_jitter := Qmax 0 300;
     missPct_tts := clampPct 0;
     missPct_clip := clampPct 0;
     swapEnabled := true;
     shareEnabled := true;
     shareTtlMinutes := Qmax 10 1;
     sessionTtlSeconds := SESSION_TTL_SECONDS;
     idempotencyTtlSeconds := IDEMPOTENCY_TTL_SECONDS |}.

(** [envFlag(key, defaultValue)], on the value read from the environment. *)
Definition envFlag (raw : option string) (defaultValue : bool) : bool :=
  match raw with
  | None => defaultValue
  | Some raw =>
      let lower := JsString.toLowerCase raw in
      if String.eqb raw "0" || String.eqb lower "false" || String.eqb lower "no"
      then false
      else if String.eqb raw "1" || String.eqb lower "true" || String.eqb lower "yes"
           then true
           else defaultValue
  end.

(** [s.split(sep)] for a one-character separator: always at least one piece. *)
Fixpoint splitOn (sep : ascii) (s : string) : list string :=
  match s with
  | EmptyString => [EmptyString]
  | String c t =>
      if Ascii.eqb c sep then EmptyString :: splitOn sep t
      else
        match splitOn sep t with
        | piece :: rest => String c piece :: rest
        | [] => [String c EmptyString]
        end
  end.



End Config.

(** ** fixtures.ts *)

Module Fixtures.

Definition normalizeKey (value : string) : string :=
  JsString.toLowerCase (JsString.trim value).

Definition buildOverrideKey (personaId discriminator : string) : string :=
  String.append (normalizeKey personaId)
                (String.append "::" (normalizeKey discriminator)).

(** [data] is the list of the entries of the JSON object, in order. *)
Definition parseOverride (data : list (string * JsVal)) : gmap string string :=
  fold_left
    (fun (m : gmap string string) (kv : string * JsVal) =>
       match snd kv with
       | JStr value => <[normalizeKey (fst kv) := value]> m
       | _ => m
       end)
    data ∅.

Definition indexFixtures (fixtures : list LoadedFixture)
  : JsMap.t (list LoadedFixture) :=
  fold_left
    (fun index fixture =>
       let personaKey := normalizeKey (persona_id fixture) in
       let index1 :=
         if negb (JsMap.has personaKey index)
         then JsMap.set personaKey [] index else index in
       match JsMap.get personaKey index1 with
       | Some l => JsMap.set personaKey (l ++ [fixture]) index1
       | None => index1
       end)
    fixtures JsMap.empty.

Record FixtureRegistry : Type := mkRegistry {
  fixtureMap : JsMap.t LoadedFixture;
  personaIndex : JsMap.t (list LoadedFixture);
  overrides : gmap string string
}.

(** The constructor. *)
Definition new (fixtures : list LoadedFixture) (overrides : gmap string string)
  : FixtureRegistry :=
  {| fixtureMap := JsMap.ofEntries (map (fun fixture => (fx_id fixture, fixture)) fixtures);
     personaIndex := indexFixtures fixtures;
     overrides := overrides |}.

Definition getFixtureById (r : FixtureRegistry) (fixtureId : string)
  : option LoadedFixture :=
  JsMap.get fixtureId (fixtureMap r).

Definition getAllFixtures (r : FixtureRegistry) : list LoadedFixture :=
  JsMap.values (fixtureMap r).

Definition getFixturesByPersona (r : FixtureRegistry) (personaId : string)
  : list LoadedFixture :=
  let normalized := normalizeKey personaId in
  if String.eqb normalized "*" then getAllFixtures r
  else
    match JsMap.get normalized (personaIndex r) with
    | Some list =>
        if (0 <? length list)%nat then list else getAllFixtures r
    | None => getAllFixtures r
    end.

(** A string read from a table, kept when it is truthy (present and
    not empty). *)
Definition truthyString (o : option string) : option string :=
  match o with
  | Some v => if String.eqb v EmptyString then None else Some v
  | None => None
  end.

Definition resolveOverride (r : FixtureRegistry) (personaId discriminator : string)
  : option string :=
  let personaSpecificKey := buildOverrideKey personaId discriminator in
  match truthyString (overrides r !! personaSpecificKey) with
  | Some v => Some v
  | None =>
      let wildcardDiscriminator := buildOverrideKey personaId "*" in
      match truthyString (overrides r !! wildcardDiscriminator) with
      | Some v => Some v
      | None =>
          let wildcardPersonaKey := buildOverrideKey "*" discriminator in
          match truthyString (overrides r !! wildcardPersonaKey) with
          | Some v => Some v
          | None => overrides r !! "*::*"
          end
      end
  end.

Definition selectFixture (r : FixtureRegistry) (personaId discriminator : string)
  : Outcome (option LoadedFixture) :=
  let normalizedPersona := normalizeKey personaId in
  let normalizedDiscriminator := normalizeKey discriminator in
  match truthyString (resolveOverride r normalizedPersona normalizedDiscriminator) with
  | Some override =>
      match getFixtureById r override with
      | None =>
          Throw (error (String.append "Override fixture '"
                          (String.append override "' not found")))
      | Some fixture => Return (Some fixture)
      end
  | None =>
      let candidates := getFixturesByPersona r personaId in
      if (length candidates =? 0)%nat
      then Throw (error (String.append "No fixtures registered for persona '"
                           (String.append personaId "'")))
      else Utils.selectDeterministic candidates
             (String.append personaId (String.append ":" discriminator))
  end.

Definition getFixtureCount (r : FixtureRegistry) : nat :=
  JsMap.size (fixtureMap r).

End Fixtures.

(** ** [Date.prototype.toISOString] *)

Module JsDate.

(** [n] decimal digits of [x], most significant first. *)
Fixpoint decimal (n : nat) (x : Z) : string :=
  match n with
  | O => EmptyString
  | S k =>
      String (ascii_of_N (Z.to_N (48 + (x / 10 ^ Z.of_nat k) mod 10))) (decimal k x)
  end.

(** Year, month and day of a day count since 1970-01-01 (proleptic
    Gregorian calendar). *)
Definition civil (days : Z) : Z * Z * Z :=
  let z := days + 719468 in
  let era := z / 146097 in
  let doe := z - era * 146097 in
  let yoe := (doe - doe / 1460 + doe / 36524 - doe / 146096) / 365 in
  let doy := doe - (365 * yoe + yoe / 4 - yoe / 100) in
  let mp := (5 * doy + 2) / 153 in
  let d := doy - (153 * mp + 2) / 5 + 1 in
  let m := if mp <? 10 then mp + 3 else mp - 9 in
  let y := yoe + era * 400 + (if m <=? 2 then 1 else 0) in
  (y, m, d).

(** The text of a time value in the years 0000 to 9999. *)
Definition toISOString (ms : Z) : string :=
  let days := ms / 86400000 in
  let rest := ms mod 86400000 in
  let '(y, m, d) := civil days in
  String.append (decimal 4 y) (String.append "-" (String.append (decimal 2 m)
    (String.append "-" (String.append (decimal 2 d) (String.append "T"
    (String.append (decimal 2 (rest / 3600000)) (String.append ":"
    (String.append (decimal 2 (rest / 60000 mod 60)) (String.append ":"
    (String.append (decimal 2 (rest / 1000 mod 60)) (String.append "."
    (String.append (decimal 3 (rest mod 1000)) "Z")))))))))))).

(** [new Date(t)] keeps the integral part of [t] (towards zero). *)
Definition timeClip (t : Q) : Z := Z.quot (Qnum t) (Z.pos (Qden t)).

End JsDate.

(** ** app.ts: rendering a fixture for one turn *)

Module Render.

(** [x ?? y] on a value read from a JSON object. *)
Definition nullish (v : option JsVal) : option JsVal :=
  match v with
  | Some JNull => None
  | other => other
  end.

Definition orZero (x : option Q) : Q := match x with Some q => q | None => 0%Q end.

(** [tracks.map(...).filter((value) => Number.isFinite(value) && value > 0)] *)
Definition positiveDurations (tracks : list TimelineTrack) : list Q :=
  List.filter (fun value => JsNumber.Qlt_bool 0 value)
    (map (fun track =>
            ((orZero (track_offset track) + orZero (track_duration track)) * 1000)%Q)
         tracks).

(** [Math.max(...durations)] on a non-empty list. *)
Definition maxOf (first : Q) (rest : list Q) : Q := fold_left Qmax rest first.

Definition estimateTimelineDurationMs (timeline : TimelineV1) : Q :=
  match positiveDurations (tracks timeline) with
  | [] => 4000
  | first :: rest => maxOf first rest
  end.

(** [JSON.parse(JSON.stringify(source))]: a copy; values are immutable here. *)
Definition cloneTimeline (source : TimelineV1) : TimelineV1 := source.

Definition isFalse (b : option bool) : bool :=
  match b with Some false => true | _ => false end.

(** [minutesFromNow(minutes).toISOString()] *)
Definition minutesFromNowISO (now : Z) (minutes : Q) : string :=
  JsDate.toISOString (JsDate.timeClip (inject_Z now + minutes * 60 * 1000)%Q).

Definition applyFixtureToggles
           (config : EmulatorConfig) (now : Z)
           (fixture : LoadedFixture) (miss : MissFlags) : TimelineV1 :=
  let timeline := cloneTimeline (timeline fixture) in
  let meta0 : gmap string JsVal :=
    match meta timeline with Some m => m | None => ∅ end in
  let idleMs : JsVal :=
    match idle_after_ms fixture with
    | Some q => JNum q
    | None =>
        match nullish (meta0 !! "stage_idle_after_ms") with
        | Some v => v
        | None => JNum (estimateTimelineDurationMs timeline)
        end
    end in
  let meta1 := <["fixture_id" := JStr (fx_id fixture)]> meta0 in
  let meta2 := <["stage_idle_after_ms" := idleMs]> meta1 in
  let swap1 :=
    if negb (swapEnabled config) || isFalse (swap_enabled fixture)
    then Some [] else swap_points timeline in
  let share1 :=
    if negb (shareEnabled config) || isFalse (share_enabled fixture)
    then None
    else
      match share_ref timeline with
      | Some ref =>
          let ttlSeconds := (shareTtlMinutes config * 60)%Q in
          Some {| share_id := share_id ref;
                  ttl_s := ttlSeconds;
                  poster := poster ref;
                  expires_at := Some (minutesFromNowISO now (shareTtlMinutes config)) |}
      | None => None
      end in
  let clip := truthy (miss_clip miss) in
  let tracks3 :=
    if clip
    then List.filter (fun track => negb (String.eqb (track_type track) "video"))
                     (tracks timeline)
    else tracks timeline in
  let swap3 := if clip then Some [] else swap1 in
  let meta3 := if clip then <["miss_clip" := JBool true]> meta2 else meta2 in
  let meta4 :=
    if truthy (miss_tts miss) then <["miss_tts" := JBool true]> meta3 else meta3 in
  let meta5 :=
    if pairAudioOnly config then <["pair_audio_only" := JBool true]> meta4 else meta4 in
  {| version := version timeline;
     clock := clock timeline;
     start_at := start_at timeline;
     sources_badge := sources_badge timeline;
     tracks := tracks3;
     swap_points := swap3;
     share_ref := share1;
     meta := Some meta5 |}.

End Render.

(** ** sessionStore.ts

    Every operation takes the reading of the clock, [now], that it makes. *)

Module SessionStore.

Record t : Type := mkStore {
  sessions : gmap string SessionRecord;
  idempotency : gmap string (gmap string TurnCacheEntry);
  pendingTurns : gmap string (list TurnCacheEntry)
}.

(** [new SessionStore()] *)
Definition new : t :=
  {| sessions := ∅; idempotency := ∅; pendingTurns := ∅ |}.

Definition isExpired (now timestamp : Z) : bool := timestamp <=? now.

(** [record] carries the fields other than [createdAt] and [expiresAt]. *)
Definition createSession (config : EmulatorConfig) (now : Z)
           (id token mode : string) (personas : list (string * option string))
           (s : t) : t * SessionRecord :=
  let createdAt := now in
  let expiresAt := createdAt + sessionTtlSeconds config * 1000 in
  let session :=
    {| sess_id := id; token := token; mode := mode; personas := personas;
       sess_createdAt := createdAt; sess_expiresAt := expiresAt |} in
  ({| sessions := <[sess_id session := session]> (sessions s);
      idempotency := idempotency s;
      pendingTurns := pendingTurns s |}, session).

(** The three [delete] calls made for an expired session. *)
Definition purge (sessionId : string) (s : t) : t :=
  {| sessions := delete sessionId (sessions s);
     idempotency := delete sessionId (idempotency s);
     pendingTurns := delete sessionId (pendingTurns s) |}.

Definition getSession (now : Z) (sessionId : string) (s : t)
  : t * option SessionRecord :=
  match sessions s !! sessionId with
  | None => (s, None)
  | Some session =>
      if isExpired now (sess_expiresAt session)
      then (purge sessionId s, None)
      else (s, Some session)
  end.

Section PutTurn.

(** The request body and [JSON.stringify] on it. *)
Context {Body : Type} (stringify : Body -> string).

(** [hashString(JSON.stringify(body ?? {}))] *)
Definition digestOf (body : option Body) : string :=
  Utils.hashString (match body with Some b => stringify b | None => "{}" end).

Definition putTurn (config : EmulatorConfig) (now : Z)
           (sessionId idempotencyKey : string) (body : option Body)
           (entryData : TurnEntryData) (s : t)
  : t * Outcome IdempotencyResult :=
  let newHash := digestOf body in
  let '(s1, session) := getSession now sessionId s in
  match session with
  | None => (s1, Throw (error "SESSION_NOT_FOUND"))
  | Some _ =>
      let s2 :=
        match idempotency s1 !! sessionId with
        | None =>
            {| sessions := sessions s1;
               idempotency := <[sessionId := ∅]> (idempotency s1);
               pendingTurns := pendingTurns s1 |}
        | Some _ => s1
        end in
      let sessionCache : gmap string TurnCacheEntry :=
        match idempotency s2 !! sessionId with Some c => c | None => ∅ end in
      match sessionCache !! idempotencyKey with
      | Some cached =>
          if negb (String.eqb (bodyHash cached) newHash)
          then (s2, Throw {| message := "IDEMPOTENCY_BODY_MISMATCH";
                             code := Some "IDEMPOTENCY_BODY_MISMATCH" |})
          else (s2, Return {| entry := cached; reused := true |})
      | None =>
          let createdAt := now in
          let entry :=
            {| requestId := d_requestId entryData;
               fixtureId := d_fixtureId entryData;
               createdAt := createdAt;
               expiresAt := createdAt + idempotencyTtlSeconds config * 1000;
               bodyHash := newHash;
               entry_timeline := d_timeline entryData;
               personaId := d_personaId entryData;
               idempotencyKey := idempotencyKey;
               miss := d_miss entryData;
               latencyMs := d_latencyMs entryData |} in
          ({| sessions := sessions s2;
              idempotency :=
                <[sessionId := <[idempotencyKey := entry]> sessionCache]>
                  (idempotency s2);
              pendingTurns := pendingTurns s2 |},
           Return {| entry := entry; reused := false |})
      end
  end.

End PutTurn.

Definition enqueueTurn (sessionId : string) (entry : TurnCacheEntry) (s : t) : t :=
  let queue :=
    match pendingTurns s !! sessionId with Some q => q | None => [] end in
  {| sessions := sessions s;
     idempotency := idempotency s;
     pendingTurns := <[sessionId := queue ++ [entry]]> (pendingTurns s) |}.

Definition takePendingTurns (sessionId : string) (s : t)
  : t * list TurnCacheEntry :=
  let queue :=
    match pendingTurns s !! sessionId with Some q => q | None => [] end in
  ({| sessions := sessions s;
      idempotency := idempotency s;
      pendingTurns := <[sessionId := []]> (pendingTurns s) |}, queue).

(** First loop of [cleanupExpired]: one step per key of [sessions]. *)
Definition sweepSession (nowTs : Z) (s : t) (sessionId : string) : t :=
  match sessions s !! sessionId with
  | Some session =>
      if sess_expiresAt session <=? nowTs then purge sessionId s else s
  | None => s
  end.

(** Inner loop: the expired entries of one partition are deleted. *)
Definition sweepEntries (nowTs : Z) (entries : gmap string TurnCacheEntry)
  : gmap string TurnCacheEntry :=
  fold_left
    (fun (acc : gmap string TurnCacheEntry) (kv : string * TurnCacheEntry) =>
       if expiresAt (snd kv) <=? nowTs then delete (fst kv) acc else acc)
    (map_to_list entries) entries.

(** Second loop: one step per partition; an emptied partition is dropped. *)
Definition sweepPartition (nowTs : Z) (s : t)
           (kv : string * gmap string TurnCacheEntry) : t :=
  let entries := sweepEntries nowTs (snd kv) in
  {| sessions := sessions s;
     idempotency :=
       if (size entries =? 0)%nat
       then delete (fst kv) (idempotency s)
       else <[fst kv := entries]> (idempotency s);
     pendingTurns := pendingTurns s |}.

Definition cleanupExpired (nowTs : Z) (s : t) : t :=
  let s1 := fold_left (sweepSession nowTs) (map fst (map_to_list (sessions s))) s in
  fold_left (sweepPartition nowTs) (map_to_list (idempotency s1)) s1.

End SessionStore.

(** ** metrics.ts: the counters, gauge and histogram the core feeds *)

Record Metrics : Type := mkMetrics {
  turnCounter : gmap string nat;          (* by [fixture_id] *)
  missCounter : gmap string nat;          (* by [kind] *)
  shareCounter : gmap string nat;         (* by [status] *)
  latencyHistogram : list (string * Q);   (* observations, by [phase] *)
  sseGauge : nat
}.

Module Metric.

Definition zero : Metrics :=
  {| turnCounter := ∅; missCounter := ∅; shareCounter := ∅;
     latencyHistogram := []; sseGauge := 0 |}.

(** [counter.inc({label})] *)
Definition inc (label : string) (counter : gmap string nat) : gmap string nat :=
  <[label := S (match counter !! label with Some n => n | None => O end)]> counter.

Definition value (label : string) (counter : gmap string nat) : nat :=
  match counter !! label with Some n => n | None => O end.

Definition incTurn (fixture_id : string) (m : Metrics) : Metrics :=
  {| turnCounter := inc fixture_id (turnCounter m); missCounter := missCounter m;
     shareCounter := shareCounter m; latencyHistogram := latencyHistogram m;
     sseGauge := sseGauge m |}.

Definition incMiss (kind : string) (m : Metrics) : Metrics :=
  {| turnCounter := turnCounter m; missCounter := inc kind (missCounter m);
     shareCounter := shareCounter m; latencyHistogram := latencyHistogram m;
     sseGauge := sseGauge m |}.

Definition incShare (status : string) (m : Metrics) : Metrics :=
  {| turnCounter := turnCounter m; missCounter := missCounter m;
     shareCounter := inc status (shareCounter m);
     latencyHistogram := latencyHistogram m; sseGauge := sseGauge m |}.

Definition observe (phase : string) (v : Q) (m : Metrics) : Metrics :=
  {| turnCounter := turnCounter m; missCounter := missCounter m;
     shareCounter := shareCounter m;
     latencyHistogram := latencyHistogram m ++ [(phase, v)];
     sseGauge := sseGauge m |}.

Definition setGauge (n : nat) (m : Metrics) : Metrics :=
  {| turnCounter := turnCounter m; missCounter := missCounter m;
     shareCounter := shareCounter m; latencyHistogram := latencyHistogram m;
     sseGauge := n |}.

End Metric.

(** ** What is written to an SSE response *)

Record TrackEnvelope : Type := mkTrackEnvelope {
  kind : string;
  url : string;
  mime_type : string
}.

Record TimelineEnvelope : Type := mkEnvelope {
  turn_id : string;
  session_id : string;
  env_swap_points : list Z;              (* [t_ms] of each swap point *)
  env_tracks : list TrackEnvelope;
  env_sources_badge : bool;
  env_share_ref : option TimelineShareRef
}.

(** The [data] of a frame. *)
Inductive Payload : Type :=
| PHeartbeat (t : string)
| PBackoff (sequence_ms : list Q)
| PMiss (kind request_id : string)
| PTurnStarted (request_id : string)
| PReason (reason : string)
| PStageReason (type reason : string)                  (* [{stage: {type, payload: {reason}}}] *)
| PStagePlayIdle (type : string) (after_ms : Q) (media_url : string)
| PEnvelope (timeline : TimelineEnvelope)              (* [{timeline: {...}}] *)
| PTimeline (timeline : TimelineV1)
| PStageHints (swap_points : list TimelineSwapPoint)   (* [{stage_hints: {swap_points}}] *)
| PSwap (request_id : string) (swap_points : list TimelineSwapPoint)
| PAfter (after_ms : Q).

Inductive Frame : Type :=
| FEvent (event : string) (data : Payload)   (* [event: ...] then [data: ...] *)
| FMessage (data : Payload)                  (* [data: ...] alone *)
| FRetry (retryMs : Q).

(** A pending [setTimeout]: its delay and what its callback does when it
    runs, a histogram observation followed by a write to the client. *)
Record Timer : Type := mkTimer {
  delay : Q;
  observes : option (string * Q);
  writes : Frame
}.

Record ManagedClient : Type := mkClient {
  handle : nat;                 (* the identity of the object *)
  client_sessionId : string;
  res : list Frame;             (* what has been written to the response *)
  heartbeat : option Q;         (* the interval of the heartbeat timer *)
  timers : list Timer;
  closed : bool
}.

(** ** Timers of the Node.js event loop

    [setTimeout] turns a delay below 1 or above 2147483647 into 1 and drops
    the fraction of the others; timers set during one callback run by
    increasing delay, those of equal delay in the order they were set. *)

Module EventLoop.

Definition TIMEOUT_MAX : Z := 2147483647.

Definition effectiveDelay (d : Q) : Z :=
  if JsNumber.Qlt_bool d 1 || JsNumber.Qlt_bool (inject_Z TIMEOUT_MAX) d
  then 1 else Qfloor d.

Fixpoint insertTimer (t : Timer) (sorted : list Timer) : list Timer :=
  match sorted with
  | [] => [t]
  | u :: rest =>
      if effectiveDelay (delay t) <? effectiveDelay (delay u)
      then t :: u :: rest
      else u :: insertTimer t rest
  end.

(** The order in which timers set in the order [ts] run. *)
Definition runOrder (ts : list Timer) : list Timer :=
  fold_left (fun sorted t => insertTimer t sorted) ts [].

End EventLoop.

(** ** sse.ts

    The envelope leaves out [sidecar] and [citations_ref], which are copied
    from the timeline as they are. *)

Module Sse.

Definition computeTimelineDuration (entry : TurnCacheEntry) : Q :=
  match Render.positiveDurations (tracks (entry_timeline entry)) with
  | [] =>
      match share_ref (entry_timeline entry) with
      | Some ref =>
          if Qeq_bool (ttl_s ref) 0 then 4000 else (ttl_s ref * 1000)%Q
      | None => 4000
      end
  | first :: rest => Render.maxOf first rest
  end.

Definition writeEvent (client : ManagedClient) (event : string) (data : Payload)
  : ManagedClient :=
  if closed client then client
  else {| handle := handle client; client_sessionId := client_sessionId client;
          res := res client ++ [FEvent event data];
          heartbeat := heartbeat client; timers := timers client;
          closed := closed client |}.

Definition writeMessage (client : ManagedClient) (data : Payload) : ManagedClient :=
  if closed client then client
  else {| handle := handle client; client_sessionId := client_sessionId client;
          res := res client ++ [FMessage data];
          heartbeat := heartbeat client; timers := timers client;
          closed := closed client |}.

Definition writeRetry (client : ManagedClient) (retryMs : Q) : ManagedClient :=
  {| handle := handle client; client_sessionId := client_sessionId client;
     res := res client ++ [FRetry retryMs];
     heartbeat := heartbeat client; timers := timers client;
     closed := closed client |}.

(** A frame written by a timer callback goes through the same guard. *)
Definition writeFrame (client : ManagedClient) (f : Frame) : ManagedClient :=
  match f with
  | FEvent event data => writeEvent client event data
  | FMessage data => writeMessage client data
  | FRetry retryMs => writeRetry client retryMs
  end.

(** [client.timers.push(timer)] *)
Definition pushTimer (client : ManagedClient) (t : Timer) : ManagedClient :=
  {| handle := handle client; client_sessionId := client_sessionId client;
     res := res client; heartbeat := heartbeat client;
     timers := timers client ++ [t]; closed := closed client |}.

(** The client envelope of a track. *)
Definition trackEnvelope (track : TimelineTrack) : TrackEnvelope :=
  let raw :=
    match track_source_url track with
    | Some u => u
    | None => match track_url track with Some u => u | None => EmptyString end
    end in
  let lower := JsString.toLowerCase raw in
  let url :=
    if JsString.startsWith "http://" lower || JsString.startsWith "https://" lower
    then raw
    else if JsString.startsWith "/media/" raw then JsString.drop 7 raw
         else if JsString.startsWith "/" raw then JsString.drop 1 raw else raw in
  let kind := track_type track in
  let mime_type :=
    if String.eqb kind "audio" then "audio/wav"
    else if String.eqb kind "video" then "video/mp4"
         else if String.eqb kind "captions" then "text/vtt"
              else "application/octet-stream" in
  {| kind := kind; url := url; mime_type := mime_type |}.

(** [Math.round(x)] *)
Definition round (x : Q) : Z := Qfloor (x + (1 # 2))%Q.

Definition swapPointsOf (timeline : TimelineV1) : list TimelineSwapPoint :=
  match swap_points timeline with Some l => l | None => [] end.

Definition envelope (client : ManagedClient) (entry : TurnCacheEntry)
  : TimelineEnvelope :=
  let t := entry_timeline entry in
  {| turn_id := requestId entry;
     session_id := client_sessionId client;
     env_swap_points := map (fun sp => round (sp_at sp * 1000)%Q) (swapPointsOf t);
     env_tracks := map trackEnvelope (tracks t);
     env_sources_badge := truthy (sources_badge t);
     env_share_ref := share_ref t |}.

Definition missFlag (entry : TurnCacheEntry) (pick : MissFlags -> option bool) : bool :=
  match miss entry with Some flags => truthy (pick flags) | None => false end.

(** [typeof stageIdle === "number" ? stageIdle : computeTimelineDuration(entry)] *)
Definition idleAfterMs (entry : TurnCacheEntry) : Q :=
  match meta (entry_timeline entry) ≫= (fun m => m !! "stage_idle_after_ms") with
  | Some (JNum q) => q
  | _ => computeTimelineDuration entry
  end.

Definition dispatchTurn (m : Metrics) (client : ManagedClient) (entry : TurnCacheEntry)
  : Metrics * ManagedClient :=
  let '(m1, c1) :=
    if missFlag entry miss_tts
    then (Metric.incMiss "tts" m,
          writeEvent client "miss" (PMiss "tts" (requestId entry)))
    else (m, client) in
  let '(m2, c2) :=
    if missFlag entry miss_clip
    then (Metric.incMiss "clip" m1,
          writeEvent c1 "miss" (PMiss "clip" (requestId entry)))
    else (m1, c1) in
  let c3 := writeMessage c2 (PStageReason "stage.stop_idle" "new_turn") in
  let audioTimer :=
    {| delay := lat_audio (latencyMs entry);
       observes := Some ("audio", lat_audio (latencyMs entry));
       writes := FMessage (PEnvelope (envelope client entry)) |} in
  let c4 := pushTimer c3 audioTimer in
  let c5 :=
    match swap_points (entry_timeline entry) with
    | Some (sp :: sps) =>
        pushTimer c4
          {| delay := lat_clip (latencyMs entry);
             observes := Some ("clip", lat_clip (latencyMs entry));
             writes := FMessage (PStageHints (sp :: sps)) |}
    | _ => c4
    end in
  let idleAfter := idleAfterMs entry in
  let idleTimer :=
    {| delay := (lat_audio (latencyMs entry) + idleAfter)%Q;
       observes := None;
       writes :=
         FMessage
           (PStagePlayIdle "stage.play_idle" idleAfter
              (String.append "figures/"
                 (String.append (personaId entry) "/stage.mp4"))) |} in
  (m2, pushTimer c5 idleTimer).

(** A timer callback running. *)
Definition fire (state : Metrics * ManagedClient) (t : Timer) : Metrics * ManagedClient :=
  let m :=
    match observes t with
    | Some (phase, v) => Metric.observe phase v (fst state)
    | None => fst state
    end in
  (m, writeFrame (snd state) (writes t)).

(** All the timers of a client running, in the event loop's order. *)
Definition runTimers (state : Metrics * ManagedClient) : Metrics * ManagedClient :=
  fold_left fire (EventLoop.runOrder (timers (snd state))) state.

(** The hub: the clients of each session, in the order they were added. *)
Record Hub : Type := mkHub {
  clients : gmap string (list ManagedClient);
  nextHandle : nat
}.

Definition new : Hub := {| clients := ∅; nextHandle := 0 |}.

Definition clientsOf (hub : Hub) (sessionId : string) : list ManagedClient :=
  match clients hub !! sessionId with Some l => l | None => [] end.

Definition hasClients (hub : Hub) (sessionId : string) : bool :=
  (0 <? length (clientsOf hub sessionId))%nat.

Definition countClients (hub : Hub) : nat :=
  map_fold (fun _ (set : list ManagedClient) total => (total + length set)%nat)
           O (clients hub).

Definition addClient (config : EmulatorConfig) (m : Metrics) (hub : Hub)
           (sessionId : string) : Metrics * Hub :=
  let client :=
    {| handle := nextHandle hub; client_sessionId := sessionId; res := [];
       heartbeat := Some (sseHeartbeatSec config * 1000)%Q;
       timers := []; closed := false |} in
  let c1 :=
    writeRetry client
      (match sseBackoffSequenceMs config with first :: _ => first | [] => 1000 end) in
  let c2 := writeEvent c1 "sse_backoff" (PBackoff (sseBackoffSequenceMs config)) in
  let hub1 :=
    {| clients := <[sessionId := clientsOf hub sessionId ++ [c2]]> (clients hub);
       nextHandle := S (nextHandle hub) |} in
  (Metric.setGauge (countClients hub1) m, hub1).

(** One entry dispatched to every target, in order. *)
Definition dispatchAll (state : Metrics * list ManagedClient) (entry : TurnCacheEntry)
  : Metrics * list ManagedClient :=
  fold_left
    (fun (acc : Metrics * list ManagedClient) client =>
       let '(m1, c1) := dispatchTurn (fst acc) client entry in
       (m1, snd acc ++ [c1]))
    (snd state) (fst state, []).

Definition broadcastTurns (m : Metrics) (hub : Hub) (sessionId : string)
           (turns : list TurnCacheEntry) : Metrics * Hub :=
  if (length turns =? 0)%nat then (m, hub)
  else
    match clients hub !! sessionId with
    | None => (m, hub)
    | Some [] => (m, hub)
    | Some targets =>
        let '(m1, targets1) := fold_left dispatchAll turns (m, targets) in
        (m1, {| clients := <[sessionId := targets1]> (clients hub);
                nextHandle := nextHandle hub |})
    end.

Definition clearTimers (client : ManagedClient) : ManagedClient :=
  {| handle := handle client; client_sessionId := client_sessionId client;
     res := res client; heartbeat := None; timers := []; closed := closed client |}.

(** [client.closed = true] *)
Definition close (client : ManagedClient) : ManagedClient :=
  {| handle := handle client; client_sessionId := client_sessionId client;
     res := res client; heartbeat := heartbeat client; timers := timers client;
     closed := true |}.

(** [set.delete(client)]: the object is found by its identity. *)
Definition without (h : nat) (set : list ManagedClient) : list ManagedClient :=
  List.filter (fun c => negb (Nat.eqb (handle c) h)) set.

(** The client object is passed and returned beside the hub, since the
    caller (the close listener) holds a reference to it. *)
Definition removeClient (m : Metrics) (hub : Hub) (sessionId : string)
           (client : ManagedClient) : Metrics * Hub * ManagedClient :=
  if closed client then (m, hub, client)
  else
    let client1 := clearTimers (close client) in
    let hub1 :=
      match clients hub !! sessionId with
      | Some set =>
          let set1 := without (handle client) set in
          {| clients :=
               if (length set1 =? 0)%nat then delete sessionId (clients hub)
               else <[sessionId := set1]> (clients hub);
             nextHandle := nextHandle hub |}
      | None => hub
      end in
    (Metric.setGauge (countClients hub1) m, hub1, client1).

(** One tick of the heartbeat interval; [t] is [isoTimestamp()]. *)
Definition beat (client : ManagedClient) (t : string) : ManagedClient :=
  writeEvent client "heartbeat" (PHeartbeat t).

End Sse.

(** ** The second copy of sse.ts found in the sources

    It differs from [Sse] in [dispatchTurn]: a [turn_started] event is
    written first and every delivery is a named event. *)

Module SseVariant.

Definition dispatchTurn (m : Metrics) (client : ManagedClient) (entry : TurnCacheEntry)
  : Metrics * ManagedClient :=
  let '(m1, c1) :=
    if Sse.missFlag entry miss_tts
    then (Metric.incMiss "tts" m,
          Sse.writeEvent client "miss" (PMiss "tts" (requestId entry)))
    else (m, client) in
  let '(m2, c2) :=
    if Sse.missFlag entry miss_clip
    then (Metric.incMiss "clip" m1,
          Sse.writeEvent c1 "miss" (PMiss "clip" (requestId entry)))
    else (m1, c1) in
  let c3 := Sse.writeEvent c2 "turn_started" (PTurnStarted (requestId entry)) in
  let c3' := Sse.writeEvent c3 "stage.stop_idle" (PReason "new_turn") in
  let audioTimer :=
    {| delay := lat_audio (latencyMs entry);
       observes := Some ("audio", lat_audio (latencyMs entry));
       writes := FEvent "timeline" (PTimeline (entry_timeline entry)) |} in
  let c4 := Sse.pushTimer c3' audioTimer in
  let c5 :=
    match swap_points (entry_timeline entry) with
    | Some (sp :: sps) =>
        Sse.pushTimer c4
          {| delay := lat_clip (latencyMs entry);
             observes := Some ("clip", lat_clip (latencyMs entry));
             writes := FEvent "swap" (PSwap (requestId entry) (sp :: sps)) |}
    | _ => c4
    end in
  let idleAfter := Sse.idleAfterMs entry in
  let idleTimer :=
    {| delay := (lat_audio (latencyMs entry) + idleAfter)%Q;
       observes := None;
       writes := FEvent "stage.play_idle" (PAfter idleAfter) |} in
  (m2, Sse.pushTimer c5 idleTimer).

End SseVariant.

(** ** The events of one turn, in the design document's vocabulary *)

Inductive TurnEvent : Type :=
| EvMiss (kind : string)
| EvTurnStarted
| EvStopIdle
| EvTimeline
| EvSwap
| EvPlayIdle.

Module Delivery.

Definition classify (f : Frame) : option TurnEvent :=
  match f with
  | FEvent _ (PMiss kind _) => Some (EvMiss kind)
  | FEvent _ (PTurnStarted _) => Some EvTurnStarted
  | FEvent _ (PReason _) => Some EvStopIdle
  | FMessage (PStageReason _ _) => Some EvStopIdle
  | FMessage (PEnvelope _) => Some EvTimeline
  | FEvent _ (PTimeline _) => Some EvTimeline
  | FMessage (PStageHints _) => Some EvSwap
  | FEvent _ (PSwap _ _) => Some EvSwap
  | FMessage (PStagePlayIdle _ _ _) => Some EvPlayIdle
  | FEvent _ (PAfter _) => Some EvPlayIdle
  | _ => None
  end.

Definition events (frames : list Frame) : list TurnEvent :=
  omap classify frames.

(** The state of a subscriber once the timers set for it have run. *)
Definition deliver
           (dispatch : Metrics -> ManagedClient -> TurnCacheEntry -> Metrics * ManagedClient)
           (m : Metrics) (client : ManagedClient) (entry : TurnCacheEntry)
  : ManagedClient :=
  snd (Sse.runTimers (dispatch m client entry)).

(** The sequence the design document gives (section 8, delivery ordering). *)
Definition documented (entry : TurnCacheEntry) : list TurnEvent :=
  (if Sse.missFlag entry miss_tts then [EvMiss "tts"] else []) ++
  (if Sse.missFlag entry miss_clip then [EvMiss "clip"] else []) ++
  [EvTurnStarted; EvStopIdle; EvTimeline] ++
  (match swap_points (entry_timeline entry) with
   | Some (_ :: _) => [EvSwap]
   | _ => []
   end) ++
  [EvPlayIdle].


End Delivery.

(** ** app.ts: the turn endpoint *)

Record Transcript : Type := mkTranscript {
  text : string;
  lang : option string
}.

Record TurnRequestBody : Type := mkTurnBody {
  audio_url : option string;
  transcript : option Transcript;
  transcript_hint : option string;
  body_persona_id : string;
  body_session_id : option string
}.

(** The parts of the HTTP request the handler can read. *)
Record Request : Type := mkRequest {
  query_session_id : option string;      (* [req.query.session_id], when a string *)
  header_x_session_id : option string;
  header_authorization : option string;
  header_idempotency_key : option string;
  parsed : option TurnRequestBody        (* [turnSchema.safeParse(req.body)] *)
}.

Record TurnResponseBody : Type := mkTurnResponse {
  request_id : string;
  status : string;
  policy_pair_audio_only : bool;
  fixture_id : string
}.

Inductive Response : Type :=
| SendError (status : Z) (code : string)
| SendJson (body : TurnResponseBody)
| Rejected (e : JsError).      (* the handler's promise rejects *)

(** The values the handler draws: two [randomUUID()] and four [Math.random()]. *)
Record Draws : Type := mkDraws {
  uuid_session : string;
  uuid_request : string;
  random_miss_tts : Q;
  random_miss_clip : Q;
  random_jitter_audio : Q;
  random_jitter_clip : Q
}.

(** The process-wide state the handler works on. *)
Record World : Type := mkWorld {
  store : SessionStore.t;
  hub : Sse.Hub;
  metrics : Metrics;
  shareTimers : list Q        (* delays of the pending share-expiry timers *)
}.

Module App.

(** A non-empty string, if any. *)
Definition nonEmpty (o : option string) : option string :=
  match o with
  | Some s => if String.eqb s EmptyString then None else Some s
  | None => None
  end.

(** [auth.split(" ")] *)
Fixpoint splitSpaces (s : string) (current : string) : list string :=
  match s with
  | EmptyString => [current]
  | String c t =>
      if Ascii.eqb c " "%char then current :: splitSpaces t EmptyString
      else splitSpaces t (String.append current (String c EmptyString))
  end.

Definition extractSessionId (req : Request) (body : TurnRequestBody) : option string :=
  match query_session_id req with
  | Some q => Some q
  | None =>
      match nonEmpty (body_session_id body) with
      | Some b => Some b
      | None =>
          match nonEmpty (header_x_session_id req) with
          | Some h => Some h
          | None =>
              match nonEmpty (header_authorization req) with
              | Some auth =>
                  match splitSpaces auth EmptyString with
                  | [_; second] => Some second
                  | _ => Some auth
                  end
              | None => None
              end
          end
      end
  end.

Section Handler.

Context (stringify : TurnRequestBody -> string).
Context (config : EmulatorConfig) (fixtureRegistry : Fixtures.FixtureRegistry).

(** [transcript?.text ?? audio_url ?? transcript_hint ?? persona_id] *)
Definition discriminatorOf (payload : TurnRequestBody) : string :=
  match transcript payload with
  | Some t => text t
  | None =>
      match audio_url payload with
      | Some u => u
      | None =>
          match transcript_hint payload with
          | Some h => h
          | None => body_persona_id payload
          end
      end
  end.

(** The miss flags drawn, the rendered timeline, the request id and the
    latencies drawn for a turn: the [entryData] handed to [putTurn]. *)
Definition entryDataFor (now : Z) (draws : Draws) (payload : TurnRequestBody)
           (fixture : LoadedFixture) : TurnEntryData :=
  let miss :=
    {| miss_tts :=
         Some (Utils.percentToHit (missPct_tts config) (random_miss_tts draws));
       miss_clip :=
         Some (Utils.percentToHit (missPct_clip config) (random_miss_clip draws)) |} in
  let timeline := Render.applyFixtureToggles config now fixture miss in
  let requestId := String.append "req_" (uuid_request draws) in
  {| d_requestId := requestId;
     d_fixtureId := fx_id fixture;
     d_timeline := timeline;
     d_personaId := body_persona_id payload;
     d_miss := Some miss;
     d_latencyMs :=
       {| lat_audio :=
            Utils.withJitter (latency_tts config) (latency_jitter config)
                             (random_jitter_audio draws);
          lat_clip :=
            Utils.withJitter (latency_clip config) (latency_jitter config)
                             (random_jitter_clip draws) |} |}.

(** What follows a successful [putTurn]: the acceptance path, taken
    only when the entry is new, and the response. *)
Definition afterPutTurn (sessionId : string) (result : IdempotencyResult) (w : World)
  : World * Response :=
  let entry := entry result in
  let w1 :=
    if negb (reused result)
    then
      let m1 := Metric.incTurn (fixtureId entry) (metrics w) in
      let st1 := SessionStore.enqueueTurn sessionId entry (store w) in
      let '(m2, shares) :=
        match share_ref (entry_timeline entry) with
        | Some ref =>
            (Metric.incShare "issued" m1, shareTimers w ++ [(ttl_s ref * 1000)%Q])
        | None => (m1, shareTimers w)
        end in
      if Sse.hasClients (hub w) sessionId
      then
        let '(st2, pending) := SessionStore.takePendingTurns sessionId st1 in
        let '(m3, hub1) := Sse.broadcastTurns m2 (hub w) sessionId pending in
        {| store := st2; hub := hub1; metrics := m3; shareTimers := shares |}
      else {| store := st1; hub := hub w; metrics := m2; shareTimers := shares |}
    else w in
  (w1, SendJson {| request_id := requestId entry;
                   status := "accepted";
                   policy_pair_audio_only := pairAudioOnly config;
                   fixture_id := fixtureId entry |}).

(** The handler from the point where [sessionId] is bound. *)
Definition turnFor (now : Z) (draws : Draws) (sessionId idempotencyKey : string)
           (payload : TurnRequestBody) (w : World) : World * Response :=
  let '(st1, session) := SessionStore.getSession now sessionId (store w) in
  let w1 := {| store := st1; hub := hub w; metrics := metrics w;
               shareTimers := shareTimers w |} in
  match session with
  | None => (w1, SendError 404 "EMU_SESSION_UNKNOWN")
  | Some _ =>
      let discriminator := discriminatorOf payload in
      match Fixtures.selectFixture fixtureRegistry (body_persona_id payload)
                                   discriminator with
      | Throw _ => (w1, SendError 503 "EMU_FIXTURE_MISSING")
      | Return None =>
          (w1, Rejected (error "Cannot read properties of undefined"))
      | Return (Some fixture) =>
          let entryData := entryDataFor now draws payload fixture in
          match SessionStore.putTurn stringify config now sessionId idempotencyKey
                                     (Some payload) entryData st1 with
          | (st2, Throw e) =>
              let w2 := {| store := st2; hub := hub w; metrics := metrics w;
                           shareTimers := shareTimers w |} in
              match code e with
              | Some c =>
                  if String.eqb c "IDEMPOTENCY_BODY_MISMATCH"
                  then (w2, SendError 409 "EMU_IDEMPOTENCY_REPLAY")
                  else (w2, SendError 500 "EMU_INTERNAL_ERROR")
              | None => (w2, SendError 500 "EMU_INTERNAL_ERROR")
              end
          | (st2, Return result) =>
              afterPutTurn sessionId result
                {| store := st2; hub := hub w; metrics := metrics w;
                   shareTimers := shareTimers w |}
          end
      end
  end.

(** [POST /v1/session/turn] *)
Definition postTurn (now : Z) (draws : Draws) (req : Request) (w : World)
  : World * Response :=
  match nonEmpty (header_idempotency_key req) with
  | None => (w, SendError 400 "EMU_BAD_REQUEST")
  | Some idempotencyKey =>
      match parsed req with
      | None => (w, SendError 400 "EMU_BAD_REQUEST")
      | Some payload =>
          let sessionId := String.append "sess_" (uuid_session draws) in
          if String.eqb sessionId EmptyString
          then (w, SendError 400 "EMU_BAD_REQUEST")
          else turnFor now draws sessionId idempotencyKey payload w
      end
  end.

(** [POST /v1/session/start], for a body that passed the schema. *)
Definition postStart (now : Z) (uuid : string) (mode : string)
           (personas : list (string * option string)) (w : World)
  : World * SessionRecord :=
  let sessionId := String.append "sess_" uuid in
  let '(st1, session) :=
    SessionStore.createSession config now sessionId sessionId mode personas (store w) in
  ({| store := st1; hub := hub w; metrics := metrics w;
      shareTimers := shareTimers w |}, session).

End Handler.

(** What [GET /v1/sse/turn] does with the response: an error, or the
    stream is opened for a new client. *)
Inductive SseAnswer : Type :=
| SseError (status : Z) (code : string)
| SseOpened.

(** [GET /v1/sse/turn]; [query] is [req.query.session_id] when a string. *)
Definition getSseTurn (config : EmulatorConfig) (now : Z) (query : option string)
           (w : World) : World * SseAnswer :=
  match nonEmpty query with
  | None => (w, SseError 400 "EMU_BAD_REQUEST")
  | Some sessionId =>
      let '(st1, session) := SessionStore.getSession now sessionId (store w) in
      match session with
      | None =>
          ({| store := st1; hub := hub w; metrics := metrics w;
              shareTimers := shareTimers w |},
           SseError 404 "EMU_SESSION_UNKNOWN")
      | Some _ =>
          let '(m1, hub1) := Sse.addClient config (metrics w) (hub w) sessionId in
          let '(st2, pending) := SessionStore.takePendingTurns sessionId st1 in
          let '(m2, hub2) := Sse.broadcastTurns m1 hub1 sessionId pending in
          ({| store := st2; hub := hub2; metrics := m2;
              shareTimers := shareTimers w |}, SseOpened)
      end
  end.

End App.

(** ** The override layer and the candidate set, in the design document's words

    These definitions follow the text of the design document (section 4.1),
    not the code; the code is compared with them below. *)

Module Design.

(** The table entry for a (persona, discriminator) pair, both given
    case-folded and trimmed; an entry is an explicit, non-empty fixture id. *)
Definition tableEntry (table : gmap string string) (level : string * string)
  : option string :=
  Fixtures.truthyString
    (table !! String.append (fst level) (String.append "::" (snd level))).

(** exact > (persona, wildcard) > (wildcard, discriminator) > (wildcard, wildcard) *)
Definition precedence (persona discriminator : string) : list (string * string) :=
  [ (persona, discriminator); (persona, "*"); ("*", discriminator); ("*", "*") ].

Fixpoint firstMatch (table : gmap string string) (pairs : list (string * string))
  : option string :=
  match pairs with
  | [] => None
  | level :: rest =>
      match tableEntry table level with
      | Some id => Some id
      | None => firstMatch table rest
      end
  end.

Definition override (table : gmap string string) (personaId discriminator : string)
  : option string :=
  firstMatch table
    (precedence (Fixtures.normalizeKey personaId) (Fixtures.normalizeKey discriminator)).

(** The fixtures registered for a persona. *)
Definition registeredFor (fixtures : list LoadedFixture) (personaId : string)
  : list LoadedFixture :=
  List.filter
    (fun fixture =>
       String.eqb (Fixtures.normalizeKey (persona_id fixture))
                  (Fixtures.normalizeKey personaId))
    fixtures.

(** The persona's fixtures, or the full catalog when it has none or is
    the wildcard persona. *)
Definition candidates (catalog fixtures : list LoadedFixture) (personaId : string)
  : list LoadedFixture :=
  if String.eqb (Fixtures.normalizeKey personaId) "*" then catalog
  else
    match registeredFor fixtures personaId with
    | [] => catalog
    | mine => mine
    end.

(** The fixed-width prefix of the digest of [key], read as an unsigned
    integer: the first 32 bits of the SHA-256 digest. *)
Definition digestPrefix (key : string) : Z :=
  Sha256.ra (Sha256.digest (JsString.bytes key)).

End Design.

(** ** The vocabulary of the statements *)

Module Terms.

(** A 32-bit word. *)
Definition word32 (x : Z) : Prop := 0 <= x < 4294967296.

(** A character [parseInt] does not treat specially. *)
Definition plainChar (c : ascii) : bool :=
  negb (Ascii.eqb c "-" || Ascii.eqb c "+" || Ascii.eqb c "x" || Ascii.eqb c "X")%char.


(** The text starts with a character that is not white space, or is empty. *)
Definition startsClean (s : string) : Prop :=
  match s with
  | EmptyString => True
  | String c _ => JsString.isSpace c = false
  end.

(** The fixtures whose normalised persona id is [key]. *)
Definition matching (key : string) (fixtures : list LoadedFixture) : list LoadedFixture :=
  List.filter (fun f => String.eqb (Fixtures.normalizeKey (persona_id f)) key) fixtures.



(** The session [j] is recorded in [s] with an expiry at or before [nowTs]. *)
Definition expiredIn (nowTs : Z) (s : SessionStore.t) (j : string) : bool :=
  match SessionStore.sessions s !! j with
  | Some session => sess_expiresAt session <=? nowTs
  | None => false
  end.

(** Nothing of session [j] is left in [s]. *)
Definition gone (s : SessionStore.t) (j : string) : Prop :=
  SessionStore.sessions s !! j = None /\
  SessionStore.idempotency s !! j = None /\
  SessionStore.pendingTurns s !! j = None.

(** [s'] holds for [j] what [s] holds. *)
Definition same_at (s s' : SessionStore.t) (j : string) : Prop :=
  SessionStore.sessions s' !! j = SessionStore.sessions s !! j /\
  SessionStore.idempotency s' !! j = SessionStore.idempotency s !! j /\
  SessionStore.pendingTurns s' !! j = SessionStore.pendingTurns s !! j.

(** What a sweep leaves of a cache entry: it, if it expires after [nowTs]. *)
Definition liveEntry (nowTs : Z) (o : option TurnCacheEntry) : option TurnCacheEntry :=
  match o with
  | Some e => if expiresAt e <=? nowTs then None else Some e
  | None => None
  end.

(** What the second loop of the sweep leaves of a partition. *)
Definition livePartition (nowTs : Z) (o : option (gmap string TurnCacheEntry))
  : option (gmap string TurnCacheEntry) :=
  match o with
  | Some es =>
      if (size (SessionStore.sweepEntries nowTs es) =? 0)%nat then None
      else Some (SessionStore.sweepEntries nowTs es)
  | None => None
  end.

(** The session [sessionId] is recorded in [s] and expires after [now]. *)
Definition valid (now : Z) (s : SessionStore.t) (sessionId : string) : Prop :=
  exists session,
    SessionStore.sessions s !! sessionId = Some session /\
    now < sess_expiresAt session.

(** The entry cached for (sessionId, key), if any. *)
Definition cachedAt (s : SessionStore.t) (sessionId key : string)
  : option TurnCacheEntry :=
  SessionStore.idempotency s !! sessionId ≫= (fun cache => cache !! key).

(** The entry a first submission materialises. *)
Definition freshEntry {Body : Type} (stringify : Body -> string)
           (config : EmulatorConfig) (now : Z) (key : string)
           (body : option Body) (data : TurnEntryData) : TurnCacheEntry :=
  {| requestId := d_requestId data;
     fixtureId := d_fixtureId data;
     createdAt := now;
     expiresAt := now + idempotencyTtlSeconds config * 1000;
     bodyHash := SessionStore.digestOf stringify body;
     entry_timeline := d_timeline data;
     personaId := d_personaId data;
     idempotencyKey := key;
     miss := d_miss data;
     latencyMs := d_latencyMs data |}.

(** The entry the turn endpoint stores for a first submission. *)
Definition acceptedEntry (stringify : TurnRequestBody -> string)
           (config : EmulatorConfig) (now : Z) (draws : Draws) (key : string)
           (payload : TurnRequestBody) (fixture : LoadedFixture) : TurnCacheEntry :=
  freshEntry stringify config now key (Some payload)
    (App.entryDataFor config now draws payload fixture).

(** The answer to an accepted turn. *)
Definition accepted (config : EmulatorConfig) (e : TurnCacheEntry) : Response :=
  SendJson {| request_id := requestId e;
              status := "accepted";
              policy_pair_audio_only := pairAudioOnly config;
              fixture_id := fixtureId e |}.

Definition queueOf (s : SessionStore.t) (sessionId : string) : list TurnCacheEntry :=
  match SessionStore.pendingTurns s !! sessionId with Some q => q | None => [] end.

Definition hasSwap (entry : TurnCacheEntry) : bool :=
  match swap_points (entry_timeline entry) with
  | Some (_ :: _) => true
  | _ => false
  end.

(** The delays of the timers [dispatchTurn] sets, in the order it sets them. *)
Definition timerDelays (entry : TurnCacheEntry) : list Q :=
  [lat_audio (latencyMs entry)] ++
  (if hasSwap entry then [lat_clip (latencyMs entry)] else []) ++
  [(lat_audio (latencyMs entry) + Sse.idleAfterMs entry)%Q].


(** The character [c] occurs in [s]. *)
Fixpoint occurs (c : ascii) (s : string) : bool :=
  match s with
  | EmptyString => false
  | String d t => Ascii.eqb d c || occurs c t
  end.



(** The frames [dispatchTurn] writes to an open client before it sets
    its timers. *)
Definition immediateFrames (entry : TurnCacheEntry) : list Frame :=
  (if Sse.missFlag entry miss_tts
   then [FEvent "miss" (PMiss "tts" (requestId entry))] else []) ++
  (if Sse.missFlag entry miss_clip
   then [FEvent "miss" (PMiss "clip" (requestId entry))] else []) ++
  [FMessage (PStageReason "stage.stop_idle" "new_turn")].

(** The client after the turns [entries] were dispatched to it, in order. *)
Definition dispatched (client : ManagedClient) (entries : list TurnCacheEntry)
  : ManagedClient :=
  fold_left (fun c entry => snd (Sse.dispatchTurn Metric.zero c entry)) entries client.

(** The client [addClient] registers, with what it has been sent. *)
Definition freshClient (config : EmulatorConfig) (hub : Sse.Hub) (sessionId : string)
  : ManagedClient :=
  {| handle := Sse.nextHandle hub; client_sessionId := sessionId;
     res := [ FRetry (match sseBackoffSequenceMs config with
                      | first :: _ => first
                      | [] => 1000
                      end);
              FEvent "sse_backoff" (PBackoff (sseBackoffSequenceMs config)) ];
     heartbeat := Some (sseHeartbeatSec config * 1000)%Q;
     timers := []; closed := false |}.

(** How many clients of the set are the object [client]. *)
Definition occurrences (client : ManagedClient) (set : list ManagedClient) : nat :=
  length (List.filter (fun c => Nat.eqb (handle c) (handle client)) set).

End Terms.

(** ** Sample data *)

Module Examples.

Definition emptyTimeline : TimelineV1 :=
  mkTimeline "1" "audio" "now" None [] None None None.

Definition fx (id persona : string) : LoadedFixture :=
  mkFixture id persona None None None emptyTimeline.

Definition catalog : list LoadedFixture :=
  [ fx "fx_socrates_opening_01" "socrates";
    fx "fx_socrates_s2_virtue" "Socrates";
    fx "fx_plato_cave" "plato" ].

Definition overrideTable : gmap string string :=
  Fixtures.parseOverride
    [ (" Socrates::Virtue ", JStr "fx_socrates_s2_virtue");
      ("*::follow up", JStr "fx_plato_cave");
      ("plato::*", JStr "fx_plato_cave");
      ("ignored", JNum 3) ].

Definition registry : Fixtures.FixtureRegistry := Fixtures.new catalog overrideTable.

(** The id of the fixture selected. *)
Definition pick (personaId discriminator : string) : Outcome (option string) :=
  match Fixtures.selectFixture registry personaId discriminator with
  | Return (Some f) => Return (Some (fx_id f))
  | Return None => Return None
  | Throw e => Throw e
  end.

Definition plato : LoadedFixture := fx "fx_plato_cave" "plato".

(** A fixture with an audio track, a video track, a swap point and a
    share reference. *)
Definition videoTimeline : TimelineV1 :=
  mkTimeline "1" "audio" "now" None
    [ mkTrack "audio" "a1" (Some "/media/tts/hello.wav") None (Some 0%Q) (Some 3%Q);
      mkTrack "video" "v1" (Some "/media/clip/hello.mp4") None (Some 0%Q) (Some 3%Q) ]
    (Some [ mkSwapPoint 2 "v1" "{}" ])
    (Some (mkShareRef "share_1" 60 None None))
    None.

Definition videoFixture : LoadedFixture :=
  mkFixture "fx_video" "socrates" None None None videoTimeline.

(** The entry data of the repository's store tests. *)
Definition makeTurn : TurnEntryData :=
  {| d_requestId := "req_test";
     d_fixtureId := "fx_test";
     d_timeline := emptyTimeline;
     d_personaId := "socrates";
     d_miss := Some (mkMiss None None);
     d_latencyMs := mkLatency 100 200 |}.

Definition quoted (s : string) : string :=
  let quote := String (ascii_of_nat 34) EmptyString in
  String.append quote (String.append s quote).

(** [JSON.stringify] of a body that holds a persona id only. *)
Definition jsonText (persona : string) : string :=
  String.append "{"
    (String.append (quoted "persona_id")
       (String.append ":" (String.append (quoted persona) "}"))).

Definition withSession : SessionStore.t :=
  fst (SessionStore.createSession Config.defaults 0 "sess_test" "sess_test"
         "portrait_chat" [("socrates", None)] SessionStore.new).

Definition testSession : SessionRecord :=
  snd (SessionStore.createSession Config.defaults 0 "sess_test" "sess_test"
         "portrait_chat" [("socrates", None)] SessionStore.new).

Definition first : SessionStore.t * Outcome IdempotencyResult :=
  SessionStore.putTurn jsonText Config.defaults 5 "sess_test" "key"
    (Some "socrates") makeTurn withSession.

Definition stored : TurnCacheEntry :=
  Terms.freshEntry jsonText Config.defaults 5 "key" (Some "socrates") makeTurn.

Definition withTurn : SessionStore.t :=
  SessionStore.enqueueTurn "sess_test" stored (fst first).

(** The same key with another body. *)
Definition conflicting : SessionStore.t * Outcome IdempotencyResult :=
  SessionStore.putTurn jsonText Config.defaults 9 "sess_test" "key"
    (Some "plato") makeTurn withTurn.

(** A turn whose clip latency is shorter than its audio latency. *)
Definition clipFirst : TurnCacheEntry :=
  {| requestId := "req_1";
     fixtureId := "fx_video";
     createdAt := 0;
     expiresAt := 86400000;
     bodyHash := EmptyString;
     entry_timeline :=
       mkTimeline "1" "audio" "now" None
         (tracks videoTimeline) (swap_points videoTimeline) None
         (Some {[ "stage_idle_after_ms" := JNum 3000 ]});
     personaId := "socrates";
     idempotencyKey := "key";
     miss := Some (mkMiss (Some false) (Some false));
     latencyMs := mkLatency 600 100 |}.

(** The same turn with the default latencies and both misses. *)
Definition usual : TurnCacheEntry :=
  {| requestId := "req_2";
     fixtureId := "fx_video";
     createdAt := 0;
     expiresAt := 86400000;
     bodyHash := EmptyString;
     entry_timeline := entry_timeline clipFirst;
     personaId := "socrates";
     idempotencyKey := "key2";
     miss := Some (mkMiss (Some true) (Some true));
     latencyMs := mkLatency 600 1200 |}.

Definition subscriber : ManagedClient :=
  {| handle := 0; client_sessionId := "sess_test"; res := [];
     heartbeat := Some 15000%Q; timers := []; closed := false |}.

(** What a subscriber receives for one turn, in the design document's
    vocabulary. *)
Definition eventsOf
           (dispatch : Metrics -> ManagedClient -> TurnCacheEntry -> Metrics * ManagedClient)
           (entry : TurnCacheEntry) : list TurnEvent :=
  Delivery.events (res (Delivery.deliver dispatch Metric.zero subscriber entry)).

(** A rendering of [JSON.stringify] for bodies with a transcript and a
    persona id. *)
Definition stringify (payload : TurnRequestBody) : string :=
  String.append "{"
    (String.append (quoted "transcript")
       (String.append ":{"
          (String.append (quoted "text")
             (String.append ":"
                (String.append (quoted (App.discriminatorOf payload))
                   (String.append "},"
                      (String.append (quoted "persona_id")
                         (String.append ":"
                            (String.append (quoted (body_persona_id payload)) "}"))))))))).

Definition hello : TurnRequestBody :=
  {| audio_url := None;
     transcript := Some (mkTranscript "hello" None);
     transcript_hint := None;
     body_persona_id := "plato";
     body_session_id := Some "sess_A" |}.

Definition emptyWorld : World :=
  {| store := SessionStore.new; hub := Sse.new; metrics := Metric.zero;
     shareTimers := [] |}.

(** The world after [POST /v1/session/start] drew the identifier [A]. *)
Definition started : World :=
  fst (App.postStart Config.defaults 0 "A" "portrait_chat" [("plato", None)] emptyWorld).

Definition draws (session request : string) : Draws :=
  {| uuid_session := session; uuid_request := request;
     random_miss_tts := 1 # 2; random_miss_clip := 1 # 2;
     random_jitter_audio := 1 # 4; random_jitter_clip := 3 # 4 |}.

(** A turn request that names the session [sess_A] everywhere it can. *)
Definition request : Request :=
  {| query_session_id := Some "sess_A";
     header_x_session_id := Some "sess_A";
     header_authorization := Some "Bearer sess_A";
     header_idempotency_key := Some "key-1";
     parsed := Some hello |}.

(** The handler body run on the caller's session. *)
Definition turn (now : Z) (d : Draws) (w : World) : World * Response :=
  App.turnFor stringify Config.defaults registry now d "sess_A" "key-1" hello w.

(** The world after a turn was accepted at time 5 with no subscriber. *)
Definition queued : World := fst (turn 5 (draws "A" "r1") started).

(** The world after a subscriber of [sess_A] connected at time 6. *)
Definition subscribed : World :=
  fst (App.getSseTurn Config.defaults 6 (Some "sess_A") queued).

End Examples.

(** * Properties *)

(** ** Hexadecimal text and [parseInt] *)

Module HexFacts.

Lemma nibble_cases (d : Z) :
  0 <= d < 16 ->
  d = 0 \/ d = 1 \/ d = 2 \/ d = 3 \/ d = 4 \/ d = 5 \/ d = 6 \/ d = 7 \/
  d = 8 \/ d = 9 \/ d = 10 \/ d = 11 \/ d = 12 \/ d = 13 \/ d = 14 \/ d = 15.
Proof. lia. Qed.

Ltac each_nibble d H :=
  let C := fresh "C" in
  pose proof (nibble_cases d H) as C;
  repeat (destruct C as [C | C]; [subst d; try reflexivity |]);
  try (subst d; reflexivity).

Lemma value_digit (d : Z) : 0 <= d < 16 -> Hex.value (Hex.digit d) = Some d.
Proof. intros H. each_nibble d H. Qed.

Lemma digit_not_space (d : Z) : 0 <= d < 16 -> JsString.isSpace (Hex.digit d) = false.
Proof. intros H. each_nibble d H. Qed.

Lemma digit_plain (d : Z) : 0 <= d < 16 -> Terms.plainChar (Hex.digit d) = true.
Proof. intros H. each_nibble d H. Qed.

Lemma nibble_range (w i : Z) : 0 <= Z.shiftr w i mod 16 < 16.
Proof. apply Z.mod_pos_bound. lia. Qed.

(** Horner evaluation of the eight nibbles gives the word back. *)
Lemma nibbles_value (w : Z) :
  0 <= w < 4294967296 ->
  let n i := Z.shiftr w (4 * i) mod 16 in
  (((((((0 * 16 + n 7) * 16 + n 6) * 16 + n 5) * 16 + n 4) * 16 + n 3) * 16
      + n 2) * 16 + n 1) * 16 + n 0 = w.
Proof.
  intros Hw n. subst n. cbv beta.
  rewrite !Z.shiftr_div_pow2 by lia.
  change (2 ^ (4 * 0)) with 1. change (2 ^ (4 * 1)) with 16.
  change (2 ^ (4 * 2)) with (16 * 16).
  change (2 ^ (4 * 3)) with (16 * 16 * 16).
  change (2 ^ (4 * 4)) with (16 * 16 * 16 * 16).
  change (2 ^ (4 * 5)) with (16 * 16 * 16 * 16 * 16).
  change (2 ^ (4 * 6)) with (16 * 16 * 16 * 16 * 16 * 16).
  change (2 ^ (4 * 7)) with (16 * 16 * 16 * 16 * 16 * 16 * 16).
  rewrite Z.div_1_r.
  rewrite <- !Z.div_div by lia.
  set (q1 := w / 16). set (q2 := q1 / 16). set (q3 := q2 / 16).
  set (q4 := q3 / 16). set (q5 := q4 / 16). set (q6 := q5 / 16).
  set (q7 := q6 / 16).
  pose proof (Z.div_mod w 16 ltac:(lia)) as E0.
  pose proof (Z.div_mod q1 16 ltac:(lia)) as E1.
  pose proof (Z.div_mod q2 16 ltac:(lia)) as E2.
  pose proof (Z.div_mod q3 16 ltac:(lia)) as E3.
  pose proof (Z.div_mod q4 16 ltac:(lia)) as E4.
  pose proof (Z.div_mod q5 16 ltac:(lia)) as E5.
  pose proof (Z.div_mod q6 16 ltac:(lia)) as E6.
  pose proof (Z.div_mod q7 16 ltac:(lia)) as E7.
  fold q1 in E0. fold q2 in E1. fold q3 in E2. fold q4 in E3.
  fold q5 in E4. fold q6 in E5. fold q7 in E6.
  assert (q7 / 16 = 0) as Z8.
  { subst q7 q6 q5 q4 q3 q2 q1. rewrite !Z.div_div by lia.
    apply Z.div_small. lia. }
  rewrite Z8 in E7. lia.
Qed.

Lemma hexPrefix_ofWord (w : Z) :
  0 <= w < 4294967296 ->
  JsNumber.hexPrefix (Hex.ofWord w) 0 false = Some w.
Proof.
  intros Hw. unfold Hex.ofWord. cbn [fold_right JsNumber.hexPrefix].
  rewrite !value_digit by apply nibble_range.
  cbn [JsNumber.hexPrefix]. f_equal. apply (nibbles_value w Hw).
Qed.

Lemma parseInt16_ofWord (w : Z) :
  0 <= w < 4294967296 -> JsNumber.parseInt16 (Hex.ofWord w) = Some w.
Proof.
  intros Hw. pose proof (hexPrefix_ofWord w Hw) as HP.
  unfold Hex.ofWord in *. cbn [fold_right] in *.
  pose proof (digit_not_space _ (nibble_range w (4 * 7))) as Hs.
  pose proof (digit_plain _ (nibble_range w (4 * 7))) as H7.
  pose proof (digit_plain _ (nibble_range w (4 * 6))) as H6.
  set (d7 := Hex.digit (Z.shiftr w (4 * 7) mod 16)) in *.
  set (d6 := Hex.digit (Z.shiftr w (4 * 6) mod 16)) in *.
  unfold JsNumber.parseInt16. cbn [JsString.trimStart]. rewrite Hs.
  unfold Terms.plainChar in H7, H6.
  apply negb_true_iff in H7, H6.
  apply orb_false_iff in H7 as [H7 H7X]. apply orb_false_iff in H7 as [H7 H7x].
  apply orb_false_iff in H7 as [H7m H7p].
  apply orb_false_iff in H6 as [H6 H6X]. apply orb_false_iff in H6 as [_ H6x].
  rewrite H7m, H7p. cbn [fst snd JsString.startsWith].
  rewrite (Ascii.eqb_sym "x"%char d6), (Ascii.eqb_sym "X"%char d6), H6x, H6X.
  rewrite !andb_false_r. cbn [orb].
  rewrite HP. cbn. f_equal. lia.
Qed.

End HexFacts.

(** ** The digest is eight 32-bit words *)

Module Sha256Facts.

Lemma add32_word (x y : Z) : Terms.word32 (Sha256.add32 x y).
Proof. unfold Terms.word32, Sha256.add32, Sha256.w32. apply Z.mod_pos_bound. lia. Qed.

Lemma blocks_ra_word (fuel : nat) :
  forall ws h, Terms.word32 (Sha256.ra h) -> Terms.word32 (Sha256.ra (Sha256.blocks fuel ws h)).
Proof.
  induction fuel as [|k IH]; intros ws h Hh; cbn [Sha256.blocks]; [exact Hh|].
  destruct ws as [|w ws']; [exact Hh|].
  apply IH. unfold Sha256.compress. cbn [Sha256.ra]. apply add32_word.
Qed.

Lemma digest_ra_word (msg : list Z) : Terms.word32 (Sha256.ra (Sha256.digest msg)).
Proof.
  unfold Sha256.digest. apply blocks_ra_word.
  unfold Terms.word32. cbn. lia.
Qed.

End Sha256Facts.

(** ** utils.ts: [selectDeterministic] *)

Module UtilsFacts.

Lemma digestPrefix_range (key : string) : 0 <= Design.digestPrefix key < 4294967296.
Proof. apply Sha256Facts.digest_ra_word. Qed.

Lemma take8_ofWord_append (w : Z) (rest : string) :
  JsString.take 8 (String.append (Hex.ofWord w) rest) = Hex.ofWord w.
Proof. reflexivity. Qed.

Lemma segment_is_prefix (key : string) :
  JsString.take 8 (Utils.hashString key) = Hex.ofWord (Design.digestPrefix key).
Proof.
  unfold Utils.hashString, Sha256.regsWords, Hex.ofWords, Design.digestPrefix.
  cbn [fold_right]. apply take8_ofWord_append.
Qed.

Lemma segment_parses (key : string) :
  JsNumber.parseInt16 (JsString.take 8 (Utils.hashString key))
  = Some (Design.digestPrefix key).
Proof.
  rewrite segment_is_prefix.
  apply HexFacts.parseInt16_ofWord, digestPrefix_range.
Qed.

Lemma selectDeterministic_index {T : Type} (x : T) (xs : list T) (key : string) :
  Utils.selectDeterministic (x :: xs) key
  = Return ((x :: xs) !! Z.to_nat (Design.digestPrefix key mod Z.of_nat (length (x :: xs)))).
Proof.
  unfold Utils.selectDeterministic.
  change (length (x :: xs) =? 0)%nat with false. cbv iota.
  rewrite segment_parses.
  pose proof (digestPrefix_range key) as Hr.
  set (n := Z.of_nat (length (x :: xs))).
  assert (0 < n) as Hn by (subst n; cbn [length]; lia).
  unfold JsNumber.jsRem. rewrite Z.rem_mod_nonneg by lia.
  unfold Utils.at_index.
  pose proof (Z.mod_pos_bound (Design.digestPrefix key) n Hn) as Hm.
  destruct (Z.ltb_spec (Design.digestPrefix key mod n) 0) as [Hneg|_]; [lia|].
  reflexivity.
Qed.

(** The digest of "abc" given in FIPS 180-4. *)
Example sha256_abc :
  Utils.hashString "abc"
  = "ba7816bf8f01cfea414140de5dae2223b00361a396177a9cb410ff61f20015ad".
Proof. vm_compute. reflexivity. Qed.

Example selectDeterministic_abc :
  Utils.hashString "key"
  = "2c70e12b7a0646f92279f427c7b38e7334d8e5389cff167a1dc30e73f826b683"
  /\ Utils.selectDeterministic ["a"; "b"; "c"] "key" = Return (Some "b").
Proof. split; vm_compute; reflexivity. Qed.

End UtilsFacts.

(** C6. For a non-empty candidate list [x :: xs] and any [key],
    [selectDeterministic] reads the 8-character hexadecimal prefix of the
    SHA-256 digest of [key] as an unsigned 32-bit integer, reduces it modulo
    the length of the list and returns the element at that index (so it
    returns, and what it returns is a function of the list and the key only:
    equal inputs give equal results); on the empty list it throws. *)
Theorem C6_selectDeterministic_spec {T : Type} (x : T) (xs : list T) (key : string) :
  let items := x :: xs in
  let n := Design.digestPrefix key in
  JsString.take 8 (Utils.hashString key) = Hex.ofWord n /\
  JsNumber.parseInt16 (Hex.ofWord n) = Some n /\
  0 <= n < 2 ^ 32 /\
  (exists y : T,
      items !! Z.to_nat (n mod Z.of_nat (length items)) = Some y /\
      Utils.selectDeterministic items key = Return (Some y) /\
      (forall items' key', items' = items -> key' = key ->
         Utils.selectDeterministic items' key' = Return (Some y))) /\
  Utils.selectDeterministic (@nil T) key = Throw (error "Cannot select from empty list").
Proof.
  intros items n.
  pose proof (UtilsFacts.digestPrefix_range key) as Hr. fold n in Hr.
  split; [apply UtilsFacts.segment_is_prefix|].
  split; [apply HexFacts.parseInt16_ofWord; exact Hr|].
  split; [change (2 ^ 32) with 4294967296; exact Hr|].
  split; [|reflexivity].
  assert (0 < Z.of_nat (length items)) as Hlen by (subst items; cbn [length]; lia).
  pose proof (Z.mod_pos_bound n _ Hlen) as Hm.
  destruct (lookup_lt_is_Some_2 items (Z.to_nat (n mod Z.of_nat (length items))))
    as [y Hy]; [lia|].
  exists y. split; [exact Hy|].
  assert (Utils.selectDeterministic items key = Return (Some y)) as E.
  { subst items. rewrite UtilsFacts.selectDeterministic_index. fold n.
    f_equal. exact Hy. }
  split; [exact E|]. intros items' key' -> ->. exact E.
Qed.

(** ** utils.ts: [withJitter] and [percentToHit] *)

Module JitterFacts.






End JitterFacts.




(** ** utils.ts: [sanitizeMediaPath] *)

Module SanitizeFacts.

Lemma includes_dots_cons (c : ascii) (r : string) :
  JsString.includes ".." (String c r)
  = (Ascii.eqb "." c && JsString.startsWith "." r)
    || JsString.includes ".." r.
Proof. reflexivity. Qed.

Lemma skipDots_no_dot (s : string) :
  JsString.startsWith "." (Utils.skipDots s) = false.
Proof.
  induction s as [|c t IH]; [reflexivity|].
  cbn [Utils.skipDots]. destruct (Ascii.eqb c ".") eqn:E; [exact IH|].
  cbn [JsString.startsWith]. rewrite Ascii.eqb_sym, E. reflexivity.
Qed.

Lemma skipDots_length (s : string) :
  (String.length (Utils.skipDots s) <= String.length s)%nat.
Proof.
  induction s as [|c t IH]; [reflexivity|].
  cbn [Utils.skipDots]. destruct (Ascii.eqb c "."); cbn [String.length]; lia.
Qed.

(** Collapsing keeps the first character. *)
Lemma collapse_first (s : string) :
  JsString.startsWith "." (Utils.collapseDotRuns s) = JsString.startsWith "." s.
Proof.
  destruct s as [|c t]; [reflexivity|].
  cbn [Utils.collapseDotRuns].
  destruct (Ascii.eqb c "." && JsString.startsWith "." t) eqn:E; [|reflexivity].
  apply andb_true_iff in E as [E _]. apply Ascii.eqb_eq in E. subst c.
  reflexivity.
Qed.

Lemma collapse_no_dotdot_bounded (n : nat) :
  forall s, (String.length s <= n)%nat ->
            JsString.includes ".." (Utils.collapseDotRuns s) = false.
Proof.
  induction n as [|k IH]; intros s Hlen.
  - destruct s; [reflexivity | cbn [String.length] in Hlen; lia].
  - destruct s as [|c t]; [reflexivity|].
    cbn [String.length] in Hlen. cbn [Utils.collapseDotRuns].
    destruct (Ascii.eqb c "." && JsString.startsWith "." t) eqn:E.
    + rewrite includes_dots_cons, collapse_first, skipDots_no_dot.
      rewrite IH by (pose proof (skipDots_length t); lia).
      reflexivity.
    + rewrite includes_dots_cons, collapse_first, IH by lia.
      rewrite Ascii.eqb_sym, E. reflexivity.
Qed.

Lemma collapse_no_dotdot (s : string) :
  JsString.includes ".." (Utils.collapseDotRuns s) = false.
Proof. apply (collapse_no_dotdot_bounded (String.length s)). reflexivity. Qed.

Example sanitize_traversal :
  Utils.sanitizeMediaPath "/../..\secret/....txt?sig=.." = Return "././secret/.txt".
Proof. vm_compute. reflexivity. Qed.

End SanitizeFacts.

(** C10. [sanitizeMediaPath] returns for every input: the text it builds
    (query dropped, backslashes turned into slashes, leading slashes
    stripped, every run of two or more dots replaced by one dot) never
    contains two adjacent dots, so the [INVALID_MEDIA_PATH] branch is never
    taken; an input with [..] in it is collapsed and returned. *)
Theorem C10_sanitizeMediaPath_never_throws (input : string) :
  let normalized :=
    Utils.collapseDotRuns
      (Utils.stripLeadingSlashes
         (Utils.backslashesToSlashes (Utils.beforeQuery input))) in
  JsString.includes ".." normalized = false /\
  Utils.sanitizeMediaPath input = Return normalized /\
  (forall e, Utils.sanitizeMediaPath input <> Throw e) /\
  Utils.sanitizeMediaPath "../../etc/passwd" = Return "././etc/passwd".
Proof.
  intros normalized.
  assert (JsString.includes ".." normalized = false) as Hno
      by apply SanitizeFacts.collapse_no_dotdot.
  assert (Utils.sanitizeMediaPath input = Return normalized) as Hret.
  { unfold Utils.sanitizeMediaPath. fold normalized. rewrite Hno. reflexivity. }
  split; [exact Hno|]. split; [exact Hret|]. split.
  - intros e. rewrite Hret. discriminate.
  - vm_compute. reflexivity.
Qed.

(** ** [trim] and [toLowerCase] *)

Module JsStringFacts.

Lemma lowerChar_space (c : ascii) :
  JsString.isSpace (JsString.lowerChar c) = JsString.isSpace c.
Proof. destruct c as [[] [] [] [] [] [] [] []]; reflexivity. Qed.

Lemma lowerChar_idem (c : ascii) :
  JsString.lowerChar (JsString.lowerChar c) = JsString.lowerChar c.
Proof. destruct c as [[] [] [] [] [] [] [] []]; reflexivity. Qed.

Lemma toLowerCase_idem (s : string) :
  JsString.toLowerCase (JsString.toLowerCase s) = JsString.toLowerCase s.
Proof.
  induction s as [|c t IH]; [reflexivity|].
  cbn [JsString.toLowerCase]. rewrite lowerChar_idem, IH. reflexivity.
Qed.

Lemma trimStart_lower (s : string) :
  JsString.trimStart (JsString.toLowerCase s)
  = JsString.toLowerCase (JsString.trimStart s).
Proof.
  induction s as [|c t IH]; [reflexivity|].
  cbn [JsString.toLowerCase JsString.trimStart]. rewrite lowerChar_space.
  destruct (JsString.isSpace c); [exact IH | reflexivity].
Qed.

Lemma trimEnd_lower (s : string) :
  JsString.trimEnd (JsString.toLowerCase s)
  = JsString.toLowerCase (JsString.trimEnd s).
Proof.
  induction s as [|c t IH]; [reflexivity|].
  cbn [JsString.toLowerCase JsString.trimEnd]. rewrite IH, lowerChar_space.
  destruct (JsString.trimEnd t) as [|a r]; cbn [JsString.toLowerCase].
  - destruct (JsString.isSpace c); reflexivity.
  - reflexivity.
Qed.

Lemma trim_lower (s : string) :
  JsString.trim (JsString.toLowerCase s) = JsString.toLowerCase (JsString.trim s).
Proof. unfold JsString.trim. rewrite trimStart_lower, trimEnd_lower. reflexivity. Qed.

Lemma trimEnd_idem (s : string) :
  JsString.trimEnd (JsString.trimEnd s) = JsString.trimEnd s.
Proof.
  induction s as [|c t IH]; [reflexivity|].
  cbn [JsString.trimEnd].
  destruct (JsString.trimEnd t) as [|a r] eqn:E.
  - destruct (JsString.isSpace c) eqn:Ec; [reflexivity|].
    cbn [JsString.trimEnd]. rewrite Ec. reflexivity.
  - change (JsString.trimEnd (String c (String a r)))
      with (match JsString.trimEnd (String a r) with
            | EmptyString =>
                if JsString.isSpace c then EmptyString else String c EmptyString
            | String x y => String c (String x y)
            end).
    rewrite IH. reflexivity.
Qed.

Lemma trimStart_clean (s : string) : Terms.startsClean (JsString.trimStart s).
Proof.
  induction s as [|c t IH]; [exact I|].
  cbn [JsString.trimStart]. destruct (JsString.isSpace c) eqn:E; [exact IH | exact E].
Qed.

Lemma trimStart_of_clean (s : string) : Terms.startsClean s -> JsString.trimStart s = s.
Proof.
  destruct s as [|c t]; [reflexivity|]. cbn. intros ->. reflexivity.
Qed.

Lemma trimEnd_clean (s : string) : Terms.startsClean s -> Terms.startsClean (JsString.trimEnd s).
Proof.
  destruct s as [|c t]; [intros; exact I|]. cbn [Terms.startsClean JsString.trimEnd].
  intros Hc. destruct (JsString.trimEnd t); [rewrite Hc|]; exact Hc.
Qed.

Lemma trim_idem (s : string) : JsString.trim (JsString.trim s) = JsString.trim s.
Proof.
  unfold JsString.trim.
  rewrite (trimStart_of_clean (JsString.trimEnd (JsString.trimStart s)))
    by apply trimEnd_clean, trimStart_clean.
  apply trimEnd_idem.
Qed.

End JsStringFacts.

(** ** The insertion-ordered map *)

Module JsMapFacts.

Lemma get_set_eq {V : Type} (k : string) (v : V) (m : JsMap.t V) :
  JsMap.get k (JsMap.set k v m) = Some v.
Proof.
  induction m as [|[k' v'] r IH]; cbn [JsMap.set JsMap.get].
  - rewrite String.eqb_refl. reflexivity.
  - destruct (String.eqb k' k) eqn:E; cbn [JsMap.get]; rewrite E; [reflexivity | exact IH].
Qed.

Lemma get_set_ne {V : Type} (k j : string) (v : V) (m : JsMap.t V) :
  k <> j -> JsMap.get j (JsMap.set k v m) = JsMap.get j m.
Proof.
  intros Hne. induction m as [|[k' v'] r IH]; cbn [JsMap.set JsMap.get].
  - destruct (String.eqb k j) eqn:E; [apply String.eqb_eq in E; contradiction | reflexivity].
  - destruct (String.eqb k' k) eqn:E; cbn [JsMap.get].
    + apply String.eqb_eq in E. subst k'.
      destruct (String.eqb k j) eqn:E2; [apply String.eqb_eq in E2; contradiction | reflexivity].
    + rewrite IH. reflexivity.
Qed.

End JsMapFacts.

(** ** fixtures.ts *)

Module FixtureFacts.

Lemma normalizeKey_idem (s : string) :
  Fixtures.normalizeKey (Fixtures.normalizeKey s) = Fixtures.normalizeKey s.
Proof.
  unfold Fixtures.normalizeKey.
  rewrite JsStringFacts.trim_lower, JsStringFacts.toLowerCase_idem,
    JsStringFacts.trim_idem.
  reflexivity.
Qed.

Lemma buildOverrideKey_normalized (p d : string) :
  Fixtures.buildOverrideKey (Fixtures.normalizeKey p) (Fixtures.normalizeKey d)
  = String.append (Fixtures.normalizeKey p)
      (String.append "::" (Fixtures.normalizeKey d)).
Proof. unfold Fixtures.buildOverrideKey. rewrite !normalizeKey_idem. reflexivity. Qed.

Lemma truthyString_idem (o : option string) :
  Fixtures.truthyString (Fixtures.truthyString o) = Fixtures.truthyString o.
Proof.
  destruct o as [v|]; [|reflexivity]. cbn.
  destruct (String.eqb v EmptyString) eqn:E; [reflexivity|]. cbn. rewrite E. reflexivity.
Qed.

Lemma truthyString_Some (o : option string) (v : string) :
  Fixtures.truthyString o = Some v -> Fixtures.truthyString (Some v) = Some v.
Proof. intros H. rewrite <- H at 1. rewrite truthyString_idem. exact H. Qed.

(** The code's four look-ups are the design's precedence list. *)
Lemma resolveOverride_design (r : Fixtures.FixtureRegistry) (p d : string) :
  Fixtures.truthyString
    (Fixtures.resolveOverride r (Fixtures.normalizeKey p) (Fixtures.normalizeKey d))
  = Design.override (Fixtures.overrides r) p d.
Proof.
  unfold Fixtures.resolveOverride, Design.override, Design.precedence.
  cbn [Design.firstMatch]. unfold Design.tableEntry. cbn [fst snd].
  rewrite buildOverrideKey_normalized.
  change "*" with (Fixtures.normalizeKey "*") at 1 2.
  rewrite !buildOverrideKey_normalized.
  change (Fixtures.normalizeKey "*") with "*".
  change (String.append "*" (String.append "::" "*")) with "*::*".
  repeat match goal with
         | |- context [match Fixtures.truthyString ?o with _ => _ end] =>
             let E := fresh "E" in
             destruct (Fixtures.truthyString o) eqn:E;
             [ apply truthyString_Some in E; exact E |]
         end.
  destruct (Fixtures.truthyString (Fixtures.overrides r !! "*::*")); reflexivity.
Qed.

Lemma index_step_get (key : string) (fixtures : list LoadedFixture) :
  forall index : JsMap.t (list LoadedFixture),
    JsMap.get key
      (fold_left
         (fun index fixture =>
            let personaKey := Fixtures.normalizeKey (persona_id fixture) in
            let index1 :=
              if negb (JsMap.has personaKey index)
              then JsMap.set personaKey [] index else index in
            match JsMap.get personaKey index1 with
            | Some l => JsMap.set personaKey (l ++ [fixture]) index1
            | None => index1
            end)
         fixtures index)
    = match JsMap.get key index, Terms.matching key fixtures with
      | Some l, more => Some (l ++ more)
      | None, [] => None
      | None, more => Some more
      end.
Proof.
  induction fixtures as [|f fs IH]; intros index.
  - cbn. destruct (JsMap.get key index); [rewrite app_nil_r|]; reflexivity.
  - cbn [fold_left Terms.matching List.filter]. rewrite IH. clear IH.
    fold (Terms.matching key fs).
    set (pk := Fixtures.normalizeKey (persona_id f)).
    unfold JsMap.has.
    destruct (String.eqb pk key) eqn:Ek.
    + apply String.eqb_eq in Ek. subst key.
      destruct (JsMap.get pk index) as [l|] eqn:G; cbn [negb].
      * rewrite G, JsMapFacts.get_set_eq, <- app_assoc. reflexivity.
      * rewrite JsMapFacts.get_set_eq, JsMapFacts.get_set_eq. reflexivity.
    + apply String.eqb_neq in Ek.
      destruct (JsMap.get pk index) as [l|] eqn:G; cbn [negb].
      * rewrite G, JsMapFacts.get_set_ne by exact Ek. reflexivity.
      * rewrite JsMapFacts.get_set_eq, !JsMapFacts.get_set_ne by exact Ek.
        reflexivity.
Qed.

Lemma indexFixtures_get (key : string) (fixtures : list LoadedFixture) :
  JsMap.get key (Fixtures.indexFixtures fixtures)
  = match Terms.matching key fixtures with [] => None | more => Some more end.
Proof.
  unfold Fixtures.indexFixtures. rewrite index_step_get. cbn.
  destruct (Terms.matching key fixtures); reflexivity.
Qed.

Lemma getFixturesByPersona_design
      (fixtures : list LoadedFixture) (table : gmap string string) (personaId : string) :
  let r := Fixtures.new fixtures table in
  Fixtures.getFixturesByPersona r personaId
  = Design.candidates (Fixtures.getAllFixtures r) fixtures personaId.
Proof.
  intros r. unfold Fixtures.getFixturesByPersona, Design.candidates.
  destruct (String.eqb (Fixtures.normalizeKey personaId) "*"); [reflexivity|].
  subst r. cbn [Fixtures.personaIndex Fixtures.new].
  rewrite indexFixtures_get. unfold Design.registeredFor.
  fold (Terms.matching (Fixtures.normalizeKey personaId) fixtures).
  destruct (Terms.matching (Fixtures.normalizeKey personaId) fixtures); reflexivity.
Qed.



End FixtureFacts.

Module CatalogFacts.

Lemma set_fresh {V : Type} (k : string) (v : V) (m : JsMap.t V) :
  ~ In k (map fst m) -> JsMap.set k v m = m ++ [(k, v)].
Proof.
  induction m as [|[k' v'] r IH]; intros Hfresh; [reflexivity|].
  cbn [JsMap.set map fst In] in *.
  destruct (String.eqb k' k) eqn:E.
  - apply String.eqb_eq in E. tauto.
  - rewrite IH by tauto. reflexivity.
Qed.

Lemma ofEntries_fresh {V : Type} (entries : list (string * V)) :
  forall acc : JsMap.t V,
    List.NoDup (map fst (acc ++ entries)) ->
    fold_left (fun m kv => JsMap.set (fst kv) (snd kv) m) entries acc
    = acc ++ entries.
Proof.
  induction entries as [|[k v] rest IH]; intros acc Hnd; cbn [fold_left].
  - rewrite app_nil_r. reflexivity.
  - cbn [fst snd]. rewrite set_fresh.
    + rewrite IH; rewrite <- app_assoc; [reflexivity | exact Hnd].
    + rewrite map_app in Hnd. cbn [map fst] in Hnd.
      apply List.NoDup_remove_2 in Hnd. intros Hin. apply Hnd.
      apply in_or_app. left. exact Hin.
Qed.

(** With distinct fixture ids the catalog is the manifest's list. *)
Lemma getAllFixtures_distinct
      (fixtures : list LoadedFixture) (table : gmap string string) :
  List.NoDup (map fx_id fixtures) ->
  Fixtures.getAllFixtures (Fixtures.new fixtures table) = fixtures.
Proof.
  intros Hnd. unfold Fixtures.getAllFixtures, Fixtures.new, JsMap.ofEntries.
  cbn [Fixtures.fixtureMap]. rewrite ofEntries_fresh.
  - unfold JsMap.empty, JsMap.values. cbn [app].
    rewrite map_map. cbn [snd]. apply map_id.
  - unfold JsMap.empty. cbn [app]. rewrite map_map. cbn [fst]. exact Hnd.
Qed.

End CatalogFacts.

Module FixtureExamples.

(** Exact entry; persona wildcard; discriminator wildcard; no entry:
    deterministic selection among the persona's two fixtures; unknown
    persona: deterministic selection among the whole catalog. *)
Example precedence_levels :
  Examples.pick "SOCRATES " " virtue" = Return (Some "fx_socrates_s2_virtue") /\
  Examples.pick "Plato" "anything" = Return (Some "fx_plato_cave") /\
  Examples.pick "socrates" "Follow Up" = Return (Some "fx_plato_cave") /\
  Examples.pick "socrates" "justice" = Return (Some "fx_socrates_opening_01") /\
  Examples.pick "aristotle" "justice" = Return (Some "fx_socrates_s2_virtue").
Proof. repeat split; vm_compute; reflexivity. Qed.

End FixtureExamples.


(** ** app.ts: [applyFixtureToggles] *)

Module RenderFacts.




Example render_without_miss :
  let t := Render.applyFixtureToggles Config.defaults 0 Examples.videoFixture (mkMiss None None) in
  map track_id (tracks t) = ["a1"; "v1"] /\
  option_map (map sp_replace) (swap_points t) = Some ["v1"] /\
  (meta t ≫= (fun m => m !! "miss_clip")) = None /\
  option_map expires_at (share_ref t) = Some (Some "1970-01-01T00:10:00.000Z").
Proof. vm_compute. repeat split; reflexivity. Qed.

Example render_with_clip_miss :
  let t := Render.applyFixtureToggles Config.defaults 0 Examples.videoFixture
             (mkMiss None (Some true)) in
  map track_id (tracks t) = ["a1"] /\
  swap_points t = Some [] /\
  (meta t ≫= (fun m => m !! "miss_clip")) = Some (JBool true).
Proof. vm_compute. repeat split; reflexivity. Qed.

End RenderFacts.


(** ** sessionStore.ts *)

Module StoreFacts.

Lemma purge_gone (s : SessionStore.t) (j : string) : Terms.gone (SessionStore.purge j s) j.
Proof. unfold Terms.gone, SessionStore.purge. cbn. rewrite !lookup_delete_eq. done. Qed.

Lemma purge_other (s : SessionStore.t) (k j : string) :
  k <> j -> Terms.same_at s (SessionStore.purge k s) j.
Proof.
  intros Hne. unfold Terms.same_at, SessionStore.purge. cbn.
  rewrite !lookup_delete_ne by exact Hne. done.
Qed.

Lemma same_at_refl (s : SessionStore.t) (j : string) : Terms.same_at s s j.
Proof. unfold Terms.same_at. done. Qed.

(** The first loop of the sweep, key by key. *)
Lemma sweepSessions_at (nowTs : Z) (l : list string) :
  forall (acc : SessionStore.t) (j : string),
    let r := fold_left (SessionStore.sweepSession nowTs) l acc in
    if bool_decide (j ∈ l) && Terms.expiredIn nowTs acc j then Terms.gone r j else Terms.same_at acc r j.
Proof.
  induction l as [|k l IH]; intros acc j; cbn [fold_left].
  - rewrite bool_decide_eq_false_2 by apply not_elem_of_nil. apply same_at_refl.
  - specialize (IH (SessionStore.sweepSession nowTs acc k) j). cbv zeta in IH.
    set (r := fold_left (SessionStore.sweepSession nowTs) l
                (SessionStore.sweepSession nowTs acc k)) in *.
    unfold SessionStore.sweepSession in IH.
    destruct (decide (j = k)) as [->|Hne].
    + rewrite (bool_decide_eq_true_2 (k ∈ k :: l)) by apply list_elem_of_here.
      cbn [andb]. unfold Terms.expiredIn in *.
      destruct (SessionStore.sessions acc !! k) as [session|] eqn:Hs.
      * destruct (sess_expiresAt session <=? nowTs) eqn:Hx.
        -- destruct (purge_gone acc k) as (G1 & G2 & G3).
           rewrite G1, andb_false_r in IH.
           destruct IH as (I1 & I2 & I3). unfold Terms.gone.
           rewrite I1, I2, I3. done.
        -- rewrite Hs, Hx, andb_false_r in IH. exact IH.
      * rewrite Hs, andb_false_r in IH. exact IH.
    + assert (bool_decide (j ∈ k :: l) = bool_decide (j ∈ l)) as ->.
      { apply bool_decide_ext. rewrite elem_of_cons. tauto. }
      unfold Terms.expiredIn in *.
      destruct (SessionStore.sessions acc !! k) as [session|] eqn:Hs;
        [destruct (sess_expiresAt session <=? nowTs) eqn:Hx|]; try exact IH.
      destruct (purge_other acc k j ltac:(congruence)) as (P1 & P2 & P3).
      rewrite P1 in IH.
      destruct (bool_decide (j ∈ l) &&
                match SessionStore.sessions acc !! j with
                | Some session0 => sess_expiresAt session0 <=? nowTs
                | None => false
                end); [exact IH|].
      destruct IH as (I1 & I2 & I3). unfold Terms.same_at.
      rewrite I1, I2, I3, P1, P2, P3. done.
Qed.

Lemma sweepSessions_all (nowTs : Z) (s : SessionStore.t) (j : string) :
  let r := fold_left (SessionStore.sweepSession nowTs)
             (map fst (map_to_list (SessionStore.sessions s))) s in
  if Terms.expiredIn nowTs s j then Terms.gone r j else Terms.same_at s r j.
Proof.
  intros r. subst r.
  pose proof (sweepSessions_at nowTs
                (map fst (map_to_list (SessionStore.sessions s))) s j) as H.
  cbv zeta in H.
  destruct (Terms.expiredIn nowTs s j) eqn:E; [|rewrite andb_false_r in H; exact H].
  rewrite bool_decide_eq_true_2 in H; [exact H|].
  unfold Terms.expiredIn in E.
  destruct (SessionStore.sessions s !! j) as [session|] eqn:Hs; [|discriminate].
  apply list_elem_of_fmap. exists (j, session). split; [reflexivity|].
  apply elem_of_map_to_list. exact Hs.
Qed.

End StoreFacts.

Module SweepFacts.

Lemma sweepEntries_fold (nowTs : Z) (l : list (string * TurnCacheEntry)) :
  List.NoDup (map fst l) ->
  forall (acc : gmap string TurnCacheEntry) (j : string),
    fold_left
      (fun (acc : gmap string TurnCacheEntry) (kv : string * TurnCacheEntry) =>
         if expiresAt (snd kv) <=? nowTs then delete (fst kv) acc else acc)
      l acc !! j
    = match (list_to_map l : gmap string TurnCacheEntry) !! j with
      | Some e => if expiresAt e <=? nowTs then None else acc !! j
      | None => acc !! j
      end.
Proof.
  induction l as [|[k e] l IH]; intros Hnd acc j; cbn [fold_left].
  - rewrite list_to_map_nil, lookup_empty. reflexivity.
  - cbn [map fst] in Hnd. apply List.NoDup_cons_iff in Hnd as [Hk Hnd].
    rewrite (IH Hnd), list_to_map_cons. cbn [fst snd].
    destruct (decide (k = j)) as [->|Hne].
    + rewrite lookup_insert_eq.
      assert ((list_to_map l : gmap string TurnCacheEntry) !! j = None) as ->.
      { apply not_elem_of_list_to_map_1. rewrite <- list_elem_of_In in Hk. exact Hk. }
      destruct (expiresAt e <=? nowTs); [apply lookup_delete_eq | reflexivity].
    + rewrite lookup_insert_ne by exact Hne.
      destruct (expiresAt e <=? nowTs);
        [rewrite lookup_delete_ne by exact Hne|]; reflexivity.
Qed.

Lemma NoDup_keys {V : Type} (m : gmap string V) : List.NoDup (map fst (map_to_list m)).
Proof. apply NoDup_ListNoDup, NoDup_fst_map_to_list. Qed.

Lemma sweepEntries_lookup (nowTs : Z) (entries : gmap string TurnCacheEntry) (j : string) :
  SessionStore.sweepEntries nowTs entries !! j = Terms.liveEntry nowTs (entries !! j).
Proof.
  unfold SessionStore.sweepEntries.
  rewrite sweepEntries_fold by apply NoDup_keys.
  rewrite list_to_map_to_list. unfold Terms.liveEntry.
  destruct (entries !! j); reflexivity.
Qed.

Lemma sweepPartition_fold (nowTs : Z) (l : list (string * gmap string TurnCacheEntry)) :
  List.NoDup (map fst l) ->
  forall (acc : SessionStore.t),
    let r := fold_left (SessionStore.sweepPartition nowTs) l acc in
    SessionStore.sessions r = SessionStore.sessions acc /\
    SessionStore.pendingTurns r = SessionStore.pendingTurns acc /\
    forall j,
      SessionStore.idempotency r !! j
      = match (list_to_map l : gmap string (gmap string TurnCacheEntry)) !! j with
        | Some es => Terms.livePartition nowTs (Some es)
        | None => SessionStore.idempotency acc !! j
        end.
Proof.
  induction l as [|[k es] l IH]; intros Hnd acc; cbn [fold_left].
  - cbv zeta. split; [reflexivity|]. split; [reflexivity|].
    intros j. rewrite list_to_map_nil, lookup_empty. reflexivity.
  - cbn [map fst] in Hnd. apply List.NoDup_cons_iff in Hnd as [Hk Hnd].
    destruct (IH Hnd (SessionStore.sweepPartition nowTs acc (k, es))) as (I1 & I2 & I3).
    cbv zeta. split; [rewrite I1; reflexivity|]. split; [rewrite I2; reflexivity|].
    intros j. rewrite I3, list_to_map_cons.
    cbn [fst snd SessionStore.sweepPartition SessionStore.idempotency Terms.livePartition].
    destruct (decide (k = j)) as [->|Hne].
    + rewrite lookup_insert_eq.
      assert ((list_to_map l : gmap string (gmap string TurnCacheEntry)) !! j = None) as ->.
      { apply not_elem_of_list_to_map_1. rewrite <- list_elem_of_In in Hk. exact Hk. }
      destruct (size (SessionStore.sweepEntries nowTs es) =? 0)%nat;
        [apply lookup_delete_eq | apply lookup_insert_eq].
    + rewrite lookup_insert_ne by exact Hne.
      destruct ((list_to_map l : gmap string (gmap string TurnCacheEntry)) !! j);
        [reflexivity|].
      destruct (size (SessionStore.sweepEntries nowTs es) =? 0)%nat;
        [rewrite lookup_delete_ne by exact Hne | rewrite lookup_insert_ne by exact Hne];
        reflexivity.
Qed.

(** The whole sweep, read at one session id. *)
Lemma cleanupExpired_at (nowTs : Z) (s : SessionStore.t) (j : string) :
  let r := SessionStore.cleanupExpired nowTs s in
  if Terms.expiredIn nowTs s j then Terms.gone r j
  else SessionStore.sessions r !! j = SessionStore.sessions s !! j /\
       SessionStore.pendingTurns r !! j = SessionStore.pendingTurns s !! j /\
       SessionStore.idempotency r !! j
       = Terms.livePartition nowTs (SessionStore.idempotency s !! j).
Proof.
  intros r. subst r. unfold SessionStore.cleanupExpired.
  set (s1 := fold_left (SessionStore.sweepSession nowTs)
               (map fst (map_to_list (SessionStore.sessions s))) s).
  pose proof (StoreFacts.sweepSessions_all nowTs s j) as H1. cbv zeta in H1.
  fold s1 in H1.
  destruct (sweepPartition_fold nowTs (map_to_list (SessionStore.idempotency s1))
              (NoDup_keys _) s1) as (E1 & E2 & E3).
  specialize (E3 j). rewrite list_to_map_to_list in E3.
  destruct (Terms.expiredIn nowTs s j).
  - destruct H1 as (G1 & G2 & G3). unfold Terms.gone.
    rewrite E1, E2, E3, G1, G2, G3. done.
  - destruct H1 as (G1 & G2 & G3).
    rewrite E1, E2, E3, G1, G3. repeat split.
    rewrite <- G2. destruct (SessionStore.idempotency s1 !! j); reflexivity.
Qed.

End SweepFacts.

Module PutTurnFacts.

Section WithBody.

Context {Body : Type} (stringify : Body -> string).

Lemma getSession_valid (now : Z) (s : SessionStore.t) (sessionId : string) :
  Terms.valid now s sessionId ->
  exists session,
    SessionStore.sessions s !! sessionId = Some session /\
    SessionStore.getSession now sessionId s = (s, Some session).
Proof.
  intros (session & Hs & Hlive). exists session. split; [exact Hs|].
  unfold SessionStore.getSession, SessionStore.isExpired. rewrite Hs.
  destruct (Z.leb_spec (sess_expiresAt session) now); [lia | reflexivity].
Qed.

Lemma putTurn_replay (config : EmulatorConfig) (now : Z) (sessionId key : string)
      (body : option Body) (data : TurnEntryData) (s : SessionStore.t)
      (cached : TurnCacheEntry) :
  Terms.valid now s sessionId ->
  Terms.cachedAt s sessionId key = Some cached ->
  bodyHash cached = SessionStore.digestOf stringify body ->
  SessionStore.putTurn stringify config now sessionId key body data s
  = (s, Return {| entry := cached; reused := true |}).
Proof.
  intros Hv Hc Hd. destruct (getSession_valid now s sessionId Hv) as (session & _ & Hg).
  unfold SessionStore.putTurn. rewrite Hg. unfold Terms.cachedAt in Hc.
  destruct (SessionStore.idempotency s !! sessionId) as [cache|] eqn:Hi;
    [|discriminate].
  cbn [mbind option_bind] in Hc. rewrite Hi, Hc, Hd, String.eqb_refl.
  reflexivity.
Qed.

Lemma putTurn_conflict (config : EmulatorConfig) (now : Z) (sessionId key : string)
      (body : option Body) (data : TurnEntryData) (s : SessionStore.t)
      (cached : TurnCacheEntry) :
  Terms.valid now s sessionId ->
  Terms.cachedAt s sessionId key = Some cached ->
  bodyHash cached <> SessionStore.digestOf stringify body ->
  SessionStore.putTurn stringify config now sessionId key body data s
  = (s, Throw {| message := "IDEMPOTENCY_BODY_MISMATCH";
                 code := Some "IDEMPOTENCY_BODY_MISMATCH" |}).
Proof.
  intros Hv Hc Hd. destruct (getSession_valid now s sessionId Hv) as (session & _ & Hg).
  unfold SessionStore.putTurn. rewrite Hg. unfold Terms.cachedAt in Hc.
  destruct (SessionStore.idempotency s !! sessionId) as [cache|] eqn:Hi;
    [|discriminate].
  cbn [mbind option_bind] in Hc. rewrite Hi, Hc.
  apply String.eqb_neq in Hd. rewrite Hd. reflexivity.
Qed.

Lemma putTurn_fresh (config : EmulatorConfig) (now : Z) (sessionId key : string)
      (body : option Body) (data : TurnEntryData) (s : SessionStore.t) :
  Terms.valid now s sessionId ->
  Terms.cachedAt s sessionId key = None ->
  exists s',
    SessionStore.putTurn stringify config now sessionId key body data s
    = (s', Return {| entry := Terms.freshEntry stringify config now key body data; reused := false |}) /\
    Terms.cachedAt s' sessionId key = Some (Terms.freshEntry stringify config now key body data) /\
    SessionStore.sessions s' = SessionStore.sessions s /\
    SessionStore.pendingTurns s' = SessionStore.pendingTurns s.
Proof.
  intros Hv Hc. destruct (getSession_valid now s sessionId Hv) as (session & _ & Hg).
  unfold SessionStore.putTurn. rewrite Hg. unfold Terms.cachedAt in *.
  destruct (SessionStore.idempotency s !! sessionId) as [cache|] eqn:Hi.
  - cbn [mbind option_bind] in Hc. rewrite Hi, Hc.
    eexists. split; [reflexivity|]. cbn [SessionStore.idempotency
      SessionStore.sessions SessionStore.pendingTurns].
    rewrite lookup_insert_eq. cbn [mbind option_bind].
    rewrite lookup_insert_eq. done.
  - cbn [SessionStore.idempotency]. rewrite lookup_insert_eq, lookup_empty.
    eexists. split; [reflexivity|]. cbn [SessionStore.idempotency
      SessionStore.sessions SessionStore.pendingTurns].
    rewrite lookup_insert_eq. cbn [mbind option_bind].
    rewrite lookup_insert_eq. done.
Qed.

End WithBody.

End PutTurnFacts.

Module StoreExamples.

Example first_is_new :
  snd Examples.first = Return {| entry := Examples.stored; reused := false |}.
Proof. vm_compute. reflexivity. Qed.

End StoreExamples.

(** C2. When the session is Terms.valid and (sessionId, idempotencyKey) already
    has an entry whose stored digest differs from the digest of the new
    body, [putTurn] throws the error coded [IDEMPOTENCY_BODY_MISMATCH] and
    returns the store as it was: no entry is created and the stored entry,
    like the rest of the cache, is unchanged. *)
Theorem C2_conflict_leaves_cache_untouched
        {Body : Type} (stringify : Body -> string)
        (config : EmulatorConfig) (now : Z) (sessionId idempotencyKey : string)
        (body : option Body) (entryData : TurnEntryData) (s : SessionStore.t)
        (cached : TurnCacheEntry) :
  Terms.valid now s sessionId ->
  Terms.cachedAt s sessionId idempotencyKey = Some cached ->
  bodyHash cached <> SessionStore.digestOf stringify body ->
  let after := SessionStore.putTurn stringify config now sessionId idempotencyKey
                 body entryData s in
  snd after = Throw {| message := "IDEMPOTENCY_BODY_MISMATCH";
                       code := Some "IDEMPOTENCY_BODY_MISMATCH" |} /\
  fst after = s /\
  Terms.cachedAt (fst after) sessionId idempotencyKey = Some cached.
Proof.
  intros Hv Hc Hd after. subst after.
  rewrite (PutTurnFacts.putTurn_conflict stringify config now sessionId idempotencyKey
             body entryData s cached Hv Hc Hd).
  cbn [fst snd]. split; [reflexivity|]. split; [reflexivity | exact Hc].
Qed.

(** The conflict of the repository's test: the key of a turn for socrates
    resubmitted with a body for plato. *)
Lemma C2_conflict_leaves_cache_untouched_witness :
  snd Examples.conflicting
  = Throw {| message := "IDEMPOTENCY_BODY_MISMATCH";
             code := Some "IDEMPOTENCY_BODY_MISMATCH" |} /\
  fst Examples.conflicting = Examples.withTurn /\
  Terms.cachedAt (fst Examples.conflicting) "sess_test" "key"
  = Some Examples.stored.
Proof.
  apply (C2_conflict_leaves_cache_untouched Examples.jsonText Config.defaults 9
           "sess_test" "key" (Some "plato") Examples.makeTurn
           Examples.withTurn Examples.stored).
  - eexists. split; [vm_compute; reflexivity | vm_compute; reflexivity].
  - vm_compute. reflexivity.
  - vm_compute. discriminate.
Defined.

(** C5. For a session recorded with [expiresAt <= now], [getSession]
    returns absent and leaves no session record, no turn-cache partition
    and no pending queue under that id (the other sessions are untouched);
    [cleanupExpired], run on its own, leaves nothing either of any expired
    session, leaves no cache entry with [expiresAt <= now] in any partition,
    and keeps the record and the queue of every session that has not
    expired. *)
Theorem C5_expired_session_is_purged
        (now : Z) (sessionId : string) (s : SessionStore.t) (session : SessionRecord) :
  SessionStore.sessions s !! sessionId = Some session ->
  sess_expiresAt session <= now ->
  let lazy := SessionStore.getSession now sessionId s in
  let swept := SessionStore.cleanupExpired now s in
  (snd lazy = None /\
   Terms.gone (fst lazy) sessionId /\
   Terms.cachedAt (fst lazy) sessionId = (fun _ => None) /\
   (forall other, other <> sessionId -> Terms.same_at s (fst lazy) other)) /\
  (Terms.gone swept sessionId /\
   (forall j expired,
       SessionStore.sessions s !! j = Some expired ->
       sess_expiresAt expired <= now -> Terms.gone swept j) /\
   (forall j cache key e,
       SessionStore.idempotency swept !! j = Some cache ->
       cache !! key = Some e -> now < expiresAt e) /\
   (forall j live,
       SessionStore.sessions s !! j = Some live ->
       now < sess_expiresAt live ->
       SessionStore.sessions swept !! j = Some live /\
       SessionStore.pendingTurns swept !! j = SessionStore.pendingTurns s !! j)).
Proof.
  intros Hs Hexp lazy swept.
  assert (forall j x, SessionStore.sessions s !! j = Some x ->
                      sess_expiresAt x <= now -> Terms.gone swept j) as Hgone.
  { intros j x Hj Hx.
    pose proof (SweepFacts.cleanupExpired_at now s j) as H. cbv zeta in H.
    unfold Terms.expiredIn in H. rewrite Hj in H.
    destruct (Z.leb_spec (sess_expiresAt x) now); [exact H | lia]. }
  split; [|split; [|split; [|split]]].
  - subst lazy. unfold SessionStore.getSession, SessionStore.isExpired. rewrite Hs.
    destruct (Z.leb_spec (sess_expiresAt session) now) as [_|]; [|lia].
    cbn [fst snd]. split; [reflexivity|]. split; [apply StoreFacts.purge_gone|].
    split.
    + unfold Terms.cachedAt.
      destruct (StoreFacts.purge_gone s sessionId) as (_ & -> & _). reflexivity.
    + intros other Hne. apply StoreFacts.purge_other. congruence.
  - exact (Hgone sessionId session Hs Hexp).
  - exact Hgone.
  - intros j cache key e Hc He.
    pose proof (SweepFacts.cleanupExpired_at now s j) as H. cbv zeta in H.
    fold swept in H.
    destruct (Terms.expiredIn now s j).
    + destruct H as (_ & H & _). rewrite H in Hc. discriminate.
    + destruct H as (_ & _ & H). rewrite Hc in H.
      unfold Terms.livePartition in H.
      destruct (SessionStore.idempotency s !! j) as [es|]; [|discriminate].
      destruct (size (SessionStore.sweepEntries now es) =? 0)%nat; [discriminate|].
      injection H as ->.
      rewrite SweepFacts.sweepEntries_lookup in He. unfold Terms.liveEntry in He.
      destruct (es !! key) as [e0|]; [|discriminate].
      destruct (Z.leb_spec (expiresAt e0) now); [discriminate|].
      injection He as <-. lia.
  - intros j live Hj Hlive.
    pose proof (SweepFacts.cleanupExpired_at now s j) as H. cbv zeta in H.
    fold swept in H. unfold Terms.expiredIn in H. rewrite Hj in H.
    destruct (Z.leb_spec (sess_expiresAt live) now); [lia|].
    destruct H as (H1 & H2 & _). rewrite H1, H2. done.
Qed.

(** The test session, with one cached and queued turn, read at the instant
    it expires. *)
Lemma C5_expired_session_is_purged_witness :
  snd (SessionStore.getSession 1800000 "sess_test" Examples.withTurn) = None /\
  Terms.gone
    (fst (SessionStore.getSession 1800000 "sess_test" Examples.withTurn)) "sess_test" /\
  Terms.gone (SessionStore.cleanupExpired 1800000 Examples.withTurn) "sess_test".
Proof.
  destruct (C5_expired_session_is_purged 1800000 "sess_test" Examples.withTurn
              Examples.testSession)
    as [(H1 & H2 & _) (H3 & _)].
  - vm_compute. reflexivity.
  - vm_compute. discriminate.
  - split; [exact H1|]. split; [exact H2 | exact H3].
Defined.

(** ** sse.ts: the delivery of one turn *)

Module DeliveryFacts.






Example usual_delivery :
  Examples.eventsOf Sse.dispatchTurn Examples.usual
  = [EvMiss "tts"; EvMiss "clip"; EvStopIdle; EvTimeline; EvSwap; EvPlayIdle] /\
  Examples.eventsOf SseVariant.dispatchTurn Examples.usual
  = Delivery.documented Examples.usual.
Proof. split; vm_compute; reflexivity. Qed.

End DeliveryFacts.




(** ** app.ts: the turn endpoint *)

Module HubFacts.

Lemma dispatchTurn_turnCounter (m : Metrics) (client : ManagedClient)
      (entry : TurnCacheEntry) :
  turnCounter (fst (Sse.dispatchTurn m client entry)) = turnCounter m.
Proof.
  unfold Sse.dispatchTurn.
  destruct (Sse.missFlag entry miss_tts), (Sse.missFlag entry miss_clip);
    reflexivity.
Qed.

Lemma dispatchAll_turnCounter (entry : TurnCacheEntry) (state : Metrics * list ManagedClient) :
  turnCounter (fst (Sse.dispatchAll state entry)) = turnCounter (fst state).
Proof.
  unfold Sse.dispatchAll.
  assert (forall (l : list ManagedClient) (acc : Metrics * list ManagedClient),
            turnCounter
              (fst (fold_left
                      (fun (acc : Metrics * list ManagedClient) client =>
                         let '(m1, c1) := Sse.dispatchTurn (fst acc) client entry in
                         (m1, snd acc ++ [c1])) l acc))
            = turnCounter (fst acc)) as H.
  { induction l as [|c l IH]; intros acc; [reflexivity|].
    cbn [fold_left]. rewrite IH.
    pose proof (dispatchTurn_turnCounter (fst acc) c entry) as Hd.
    destruct (Sse.dispatchTurn (fst acc) c entry). exact Hd. }
  rewrite H. reflexivity.
Qed.

Lemma broadcastTurns_turnCounter (m : Metrics) (hub : Sse.Hub) (sessionId : string)
      (turns : list TurnCacheEntry) :
  turnCounter (fst (Sse.broadcastTurns m hub sessionId turns)) = turnCounter m.
Proof.
  unfold Sse.broadcastTurns.
  destruct (length turns =? 0)%nat; [reflexivity|].
  destruct (Sse.clients hub !! sessionId) as [[|c cs]|]; try reflexivity.
  assert (forall (l : list TurnCacheEntry) (acc : Metrics * list ManagedClient),
            turnCounter (fst (fold_left Sse.dispatchAll l acc))
            = turnCounter (fst acc)) as H.
  { induction l as [|e l IH]; intros acc; [reflexivity|].
    cbn [fold_left]. rewrite IH. apply dispatchAll_turnCounter. }
  specialize (H turns (m, c :: cs)).
  destruct (fold_left Sse.dispatchAll turns (m, c :: cs)). exact H.
Qed.

Lemma inc_value (label : string) (counter : gmap string nat) :
  Metric.value label (Metric.inc label counter) = S (Metric.value label counter).
Proof. unfold Metric.value, Metric.inc. rewrite lookup_insert_eq. reflexivity. Qed.

End HubFacts.

Module TurnFacts.

Section WithHandler.

Context (stringify : TurnRequestBody -> string).
Context (config : EmulatorConfig) (registry : Fixtures.FixtureRegistry).

Lemma world_eta (w : World) :
  {| store := store w; hub := hub w; metrics := metrics w;
     shareTimers := shareTimers w |} = w.
Proof. destruct w. reflexivity. Qed.

(** A first submission: the handler stores the entry and runs the
    acceptance path on the store [putTurn] returned. *)
Lemma turnFor_first (now : Z) (draws : Draws) (sessionId key : string)
      (payload : TurnRequestBody) (fixture : LoadedFixture) (w : World) :
  Terms.valid now (store w) sessionId ->
  Terms.cachedAt (store w) sessionId key = None ->
  Fixtures.selectFixture registry (body_persona_id payload)
    (App.discriminatorOf payload) = Return (Some fixture) ->
  exists s',
    App.turnFor stringify config registry now draws sessionId key payload w
    = App.afterPutTurn config sessionId
        {| entry := Terms.acceptedEntry stringify config now draws key payload fixture; reused := false |}
        {| store := s'; hub := hub w; metrics := metrics w;
           shareTimers := shareTimers w |} /\
    Terms.cachedAt s' sessionId key
    = Some (Terms.acceptedEntry stringify config now draws key payload fixture) /\
    SessionStore.sessions s' = SessionStore.sessions (store w) /\
    SessionStore.pendingTurns s' = SessionStore.pendingTurns (store w).
Proof.
  intros Hv Hc Hf.
  destruct (PutTurnFacts.getSession_valid now (store w) sessionId Hv)
    as (session & _ & Hg).
  destruct (PutTurnFacts.putTurn_fresh stringify config now sessionId key
              (Some payload) (App.entryDataFor config now draws payload fixture)
              (store w) Hv Hc) as (s' & Hp & Hc' & Hs' & Hq').
  exists s'. split; [|split; [exact Hc' | split; assumption]].
  unfold App.turnFor. rewrite Hg, Hf, Hp. reflexivity.
Qed.

(** A replay: the handler answers from the stored entry and changes
    nothing. *)
Lemma turnFor_replay (now : Z) (draws : Draws) (sessionId key : string)
      (payload : TurnRequestBody) (fixture : LoadedFixture) (w : World)
      (e : TurnCacheEntry) :
  Terms.valid now (store w) sessionId ->
  Terms.cachedAt (store w) sessionId key = Some e ->
  bodyHash e = SessionStore.digestOf stringify (Some payload) ->
  Fixtures.selectFixture registry (body_persona_id payload)
    (App.discriminatorOf payload) = Return (Some fixture) ->
  App.turnFor stringify config registry now draws sessionId key payload w
  = (w, Terms.accepted config e).
Proof.
  intros Hv Hc Hd Hf.
  destruct (PutTurnFacts.getSession_valid now (store w) sessionId Hv)
    as (session & _ & Hg).
  unfold App.turnFor. rewrite Hg, Hf.
  rewrite (PutTurnFacts.putTurn_replay stringify config now sessionId key
             (Some payload) _ (store w) e Hv Hc Hd).
  unfold App.afterPutTurn. cbn [reused entry negb]. rewrite world_eta.
  reflexivity.
Qed.

(** The state the acceptance path leaves. *)
Lemma afterPutTurn_new (sessionId : string) (e : TurnCacheEntry) (w : World) :
  let w1 := fst (App.afterPutTurn config sessionId {| entry := e; reused := false |} w) in
  snd (App.afterPutTurn config sessionId {| entry := e; reused := false |} w)
  = Terms.accepted config e /\
  SessionStore.sessions (store w1) = SessionStore.sessions (store w) /\
  SessionStore.idempotency (store w1) = SessionStore.idempotency (store w) /\
  turnCounter (metrics w1) = Metric.inc (fixtureId e) (turnCounter (metrics w)) /\
  (if Sse.hasClients (hub w) sessionId
   then SessionStore.pendingTurns (store w1) !! sessionId = Some [] /\
        exists m', (metrics w1, hub w1)
                   = Sse.broadcastTurns m' (hub w) sessionId
                       (Terms.queueOf (store w) sessionId ++ [e])
   else SessionStore.pendingTurns (store w1) !! sessionId
        = Some (Terms.queueOf (store w) sessionId ++ [e]) /\
        hub w1 = hub w).
Proof.
  intros w1. subst w1. unfold App.afterPutTurn, Terms.accepted.
  cbn [reused entry negb fst snd].
  split; [reflexivity|].
  set (m1 := Metric.incTurn (fixtureId e) (metrics w)).
  set (shared :=
         match share_ref (entry_timeline e) with
         | Some ref => (Metric.incShare "issued" m1,
                        shareTimers w ++ [(ttl_s ref * 1000)%Q])
         | None => (m1, shareTimers w)
         end).
  assert (turnCounter (fst shared) = Metric.inc (fixtureId e) (turnCounter (metrics w)))
    as Hm2 by (subst shared m1; destruct (share_ref (entry_timeline e)); reflexivity).
  destruct shared as [m2 shares]. cbn [fst] in Hm2.
  destruct (Sse.hasClients (hub w) sessionId).
  - unfold SessionStore.takePendingTurns, SessionStore.enqueueTurn.
    cbn [SessionStore.sessions SessionStore.idempotency SessionStore.pendingTurns].
    rewrite lookup_insert_eq. fold (Terms.queueOf (store w) sessionId).
    pose proof (HubFacts.broadcastTurns_turnCounter m2 (hub w) sessionId
                  (Terms.queueOf (store w) sessionId ++ [e])) as Hb.
    destruct (Sse.broadcastTurns m2 (hub w) sessionId
                (Terms.queueOf (store w) sessionId ++ [e])) as [m3 hub1] eqn:Eb.
    cbn [store hub metrics fst snd SessionStore.sessions SessionStore.idempotency
         SessionStore.pendingTurns] in *.
    split; [reflexivity|]. split; [reflexivity|].
    split; [rewrite Hb; exact Hm2|]. split; [apply lookup_insert_eq|].
    exists m2. rewrite Eb. reflexivity.
  - unfold SessionStore.enqueueTurn.
    cbn [store hub metrics fst snd SessionStore.sessions SessionStore.idempotency
         SessionStore.pendingTurns].
    split; [reflexivity|]. split; [reflexivity|]. split; [exact Hm2|].
    split; [apply lookup_insert_eq | reflexivity].
Qed.

End WithHandler.

End TurnFacts.

Module AppExamples.

Example selects_plato :
  Fixtures.selectFixture Examples.registry "plato" "hello"
  = Return (Some Examples.plato).
Proof. vm_compute. reflexivity. Qed.

End AppExamples.

(** C1. For a valid session and a key with no entry yet, a first turn
    stores an entry and is answered with its [requestId] and [fixtureId];
    a second [putTurn] with the same (sessionId, idempotencyKey) and a body
    of equal digest returns that stored entry with [reused = true] and the
    store unchanged, whatever entry data it is given; the second request to
    the endpoint gets the same answer and leaves the whole state (cache,
    queue, hub, counters) as the first left it. The acceptance path ran
    once, at creation: the turn counter of the fixture went up by one, and
    the entry was enqueued and, when the session has subscribers, the queue
    was drained and broadcast. *)
Theorem C1_idempotent_replay
        (stringify : TurnRequestBody -> string) (config : EmulatorConfig)
        (registry : Fixtures.FixtureRegistry)
        (now1 now2 : Z) (draws1 draws2 : Draws) (sessionId idempotencyKey : string)
        (payload : TurnRequestBody) (fixture : LoadedFixture) (w : World) :
  Terms.valid now1 (store w) sessionId ->
  Terms.valid now2 (store w) sessionId ->
  Terms.cachedAt (store w) sessionId idempotencyKey = None ->
  Fixtures.selectFixture registry (body_persona_id payload)
    (App.discriminatorOf payload) = Return (Some fixture) ->
  let first :=
    App.turnFor stringify config registry now1 draws1 sessionId idempotencyKey payload w in
  let second :=
    App.turnFor stringify config registry now2 draws2 sessionId idempotencyKey payload
      (fst first) in
  let e := Terms.acceptedEntry stringify config now1 draws1 idempotencyKey
             payload fixture in
  Terms.cachedAt (store (fst first)) sessionId idempotencyKey = Some e /\
  requestId e = String.append "req_" (uuid_request draws1) /\
  fixtureId e = fx_id fixture /\
  snd first = Terms.accepted config e /\
  (forall (body2 : option TurnRequestBody) (data2 : TurnEntryData),
      SessionStore.digestOf stringify body2 = bodyHash e ->
      SessionStore.putTurn stringify config now2 sessionId idempotencyKey body2 data2
        (store (fst first))
      = (store (fst first), Return {| entry := e; reused := true |})) /\
  second = (fst first, snd first) /\
  Metric.value (fx_id fixture) (turnCounter (metrics (fst first)))
  = S (Metric.value (fx_id fixture) (turnCounter (metrics w))) /\
  turnCounter (metrics (fst second)) = turnCounter (metrics (fst first)) /\
  (if Sse.hasClients (hub w) sessionId
   then SessionStore.pendingTurns (store (fst first)) !! sessionId = Some [] /\
        exists m', (metrics (fst first), hub (fst first))
                   = Sse.broadcastTurns m' (hub w) sessionId
                       (Terms.queueOf (store w) sessionId ++ [e])
   else SessionStore.pendingTurns (store (fst first)) !! sessionId
        = Some (Terms.queueOf (store w) sessionId ++ [e]) /\
        hub (fst first) = hub w).
Proof.
  intros Hv1 Hv2 Hnone Hfix first second e.
  destruct (TurnFacts.turnFor_first stringify config registry now1 draws1 sessionId
              idempotencyKey payload fixture w Hv1 Hnone Hfix)
    as (s' & Hfirst & Hc' & Hs' & Hq').
  fold e in Hfirst, Hc'.
  set (w' := {| store := s'; hub := hub w; metrics := metrics w;
                shareTimers := shareTimers w |}) in *.
  destruct (TurnFacts.afterPutTurn_new config sessionId e w')
    as (Hresp & Hsess & Hidem & Hcount & Hpath).
  assert (first = App.afterPutTurn config sessionId {| entry := e; reused := false |} w')
    as Efirst by exact Hfirst.
  rewrite <- Efirst in Hresp, Hsess, Hidem, Hcount, Hpath.
  clear Efirst Hfirst. subst w'.
  cbn [store hub metrics] in Hsess, Hidem, Hcount, Hpath.
  assert (Terms.cachedAt (store (fst first)) sessionId idempotencyKey = Some e)
    as Hstored.
  { unfold Terms.cachedAt in *. rewrite Hidem. exact Hc'. }
  assert (Terms.valid now2 (store (fst first)) sessionId) as Hv2'.
  { destruct Hv2 as (session & Hs & Hl). exists session.
    rewrite Hsess, Hs'. split; assumption. }
  assert (second = (fst first, snd first)) as Esecond.
  { subst second. rewrite Hresp.
    apply (TurnFacts.turnFor_replay stringify config registry now2 draws2 sessionId
             idempotencyKey payload fixture (fst first) e Hv2' Hstored);
      [reflexivity | exact Hfix]. }
  split; [exact Hstored|]. split; [reflexivity|]. split; [reflexivity|].
  split; [exact Hresp|]. split.
  { intros body2 data2 Hd.
    apply (PutTurnFacts.putTurn_replay stringify config now2 sessionId idempotencyKey
             body2 data2 (store (fst first)) e Hv2' Hstored).
    symmetry. exact Hd. }
  split; [exact Esecond|]. split.
  { rewrite Hcount. apply HubFacts.inc_value. }
  split; [rewrite Esecond; reflexivity|].
  unfold Terms.queueOf in *. cbn [store] in Hpath. rewrite Hq' in Hpath.
  exact Hpath.
Qed.

(** A turn for plato accepted at time 5 and replayed at time 9 with other
    draws. *)
Lemma C1_idempotent_replay_witness :
  snd (Examples.turn 5 (Examples.draws "A" "r1") Examples.started)
  = SendJson (mkTurnResponse "req_r1" "accepted" true "fx_plato_cave") /\
  Examples.turn 9 (Examples.draws "A" "r2")
    (fst (Examples.turn 5 (Examples.draws "A" "r1") Examples.started))
  = (fst (Examples.turn 5 (Examples.draws "A" "r1") Examples.started),
     SendJson (mkTurnResponse "req_r1" "accepted" true "fx_plato_cave")) /\
  Metric.value "fx_plato_cave"
    (turnCounter
       (metrics (fst (Examples.turn 5 (Examples.draws "A" "r1") Examples.started))))
  = 1%nat.
Proof.
  destruct (C1_idempotent_replay Examples.stringify Config.defaults
              Examples.registry 5 9 (Examples.draws "A" "r1")
              (Examples.draws "A" "r2") "sess_A" "key-1" Examples.hello
              Examples.plato Examples.started)
    as (_ & _ & _ & H1 & _ & H2 & H3 & _).
  - eexists. split; vm_compute; reflexivity.
  - eexists. split; vm_compute; reflexivity.
  - vm_compute. reflexivity.
  - exact AppExamples.selects_plato.
  - fold (Examples.turn 5 (Examples.draws "A" "r1") Examples.started) in H1, H2, H3.
    fold (Examples.turn 9 (Examples.draws "A" "r2")
            (fst (Examples.turn 5 (Examples.draws "A" "r1") Examples.started)))
      in H2.
    split; [rewrite H1; reflexivity|].
    split; [rewrite H2, H1; reflexivity|].
    exact H3.
Defined.

Module SessionLookupFacts.

(** The handler looks the session up under the identifier it has just
    drawn: when no session is recorded under it, the answer is 404,
    whatever session the caller named. *)
Lemma postTurn_looks_up_drawn_id
      (stringify : TurnRequestBody -> string) (config : EmulatorConfig)
      (registry : Fixtures.FixtureRegistry)
      (now : Z) (draws : Draws) (req : Request) (w : World)
      (key : string) (payload : TurnRequestBody) :
  App.nonEmpty (header_idempotency_key req) = Some key ->
  parsed req = Some payload ->
  SessionStore.sessions (store w) !! String.append "sess_" (uuid_session draws) = None ->
  App.postTurn stringify config registry now draws req w
  = (w, SendError 404 "EMU_SESSION_UNKNOWN").
Proof.
  intros Hk Hp Hs. unfold App.postTurn. rewrite Hk, Hp.
  cbn [String.append String.eqb Ascii.eqb]. cbn.
  unfold App.turnFor, SessionStore.getSession.
  cbn [String.append] in Hs. rewrite Hs. rewrite TurnFacts.world_eta. reflexivity.
Qed.

End SessionLookupFacts.

(** C3. A session started as [sess_A] and still valid, named by the caller
    in the query, the body and both headers of a well-formed turn request:
    the endpoint draws a fresh identifier, looks that one up and answers
    404 [EMU_SESSION_UNKNOWN], although the store holds the caller's session
    and the same handler run on the caller's identifier accepts the turn. *)
Theorem C3_turn_ignores_caller_session :
  App.extractSessionId Examples.request Examples.hello = Some "sess_A" /\
  (exists session,
      SessionStore.getSession 5 "sess_A" (store Examples.started)
      = (store Examples.started, Some session)) /\
  App.postTurn Examples.stringify Config.defaults Examples.registry 5
    (Examples.draws "B" "r1") Examples.request Examples.started
  = (Examples.started, SendError 404 "EMU_SESSION_UNKNOWN") /\
  snd (App.turnFor Examples.stringify Config.defaults Examples.registry 5
         (Examples.draws "B" "r1") "sess_A" "key-1" Examples.hello
         Examples.started)
  = SendJson (mkTurnResponse "req_r1" "accepted" true "fx_plato_cave").
Proof.
  split; [reflexivity|]. split; [eexists; vm_compute; reflexivity|].
  split.
  - apply (SessionLookupFacts.postTurn_looks_up_drawn_id Examples.stringify
             Config.defaults Examples.registry 5 (Examples.draws "B" "r1")
             Examples.request Examples.started "key-1" Examples.hello);
      vm_compute; reflexivity.
  - vm_compute. reflexivity.
Qed.

(** * Further properties of the code *)

(** ** sessionStore.ts: the pending queue, session creation and the cache *)

Module QueueFacts.

Lemma enqueue_all (sessionId : string) (entries : list TurnCacheEntry) :
  forall s : SessionStore.t,
    let queued :=
      fold_left (fun acc e => SessionStore.enqueueTurn sessionId e acc) entries s in
    Terms.queueOf queued sessionId = Terms.queueOf s sessionId ++ entries /\
    SessionStore.sessions queued = SessionStore.sessions s /\
    SessionStore.idempotency queued = SessionStore.idempotency s /\
    forall other, other <> sessionId ->
                  SessionStore.pendingTurns queued !! other
                  = SessionStore.pendingTurns s !! other.
Proof.
  induction entries as [|e entries IH]; intros s; cbn [fold_left].
  - cbv zeta. rewrite app_nil_r. done.
  - destruct (IH (SessionStore.enqueueTurn sessionId e s)) as (Q & S1 & I1 & O).
    cbv zeta. rewrite Q, S1, I1. unfold Terms.queueOf, SessionStore.enqueueTurn.
    cbn [SessionStore.pendingTurns SessionStore.sessions SessionStore.idempotency].
    rewrite lookup_insert_eq, <- app_assoc.
    split; [reflexivity|]. split; [reflexivity|]. split; [reflexivity|].
    intros other Hne. rewrite O by exact Hne.
    unfold SessionStore.enqueueTurn. cbn [SessionStore.pendingTurns].
    apply lookup_insert_ne. congruence.
Qed.

Lemma store_eq (s s' : SessionStore.t) :
  SessionStore.sessions s = SessionStore.sessions s' ->
  SessionStore.idempotency s = SessionStore.idempotency s' ->
  SessionStore.pendingTurns s = SessionStore.pendingTurns s' ->
  s = s'.
Proof. destruct s, s'. cbn. intros -> -> ->. reflexivity. Qed.

End QueueFacts.

(** X1. The pending queue is first in, first out and drained by one read:
    after any number of [enqueueTurn] calls for a session,
    [takePendingTurns] returns what was pending followed by the new
    entries in the order they were enqueued, a second read returns the
    empty list, and neither the sessions, the cache nor the queues of the
    other sessions are touched. *)
Theorem X1_pending_queue_fifo
        (sessionId : string) (entries : list TurnCacheEntry) (s : SessionStore.t) :
  let queued :=
    fold_left (fun acc e => SessionStore.enqueueTurn sessionId e acc) entries s in
  let taken := SessionStore.takePendingTurns sessionId queued in
  snd taken = Terms.queueOf s sessionId ++ entries /\
  snd (SessionStore.takePendingTurns sessionId (fst taken)) = [] /\
  SessionStore.sessions (fst taken) = SessionStore.sessions s /\
  SessionStore.idempotency (fst taken) = SessionStore.idempotency s /\
  (forall other, other <> sessionId ->
                 SessionStore.pendingTurns (fst taken) !! other
                 = SessionStore.pendingTurns s !! other).
Proof.
  intros queued taken.
  destruct (QueueFacts.enqueue_all sessionId entries s) as (Q & S1 & I1 & O).
  fold queued in Q, S1, I1, O.
  subst taken. unfold SessionStore.takePendingTurns.
  cbn [fst snd SessionStore.pendingTurns SessionStore.sessions SessionStore.idempotency].
  fold (Terms.queueOf queued sessionId).
  split; [exact Q|]. split; [rewrite lookup_insert_eq; reflexivity|].
  split; [exact S1|]. split; [exact I1|].
  intros other Hne. rewrite lookup_insert_ne by congruence. apply O, Hne.
Qed.

(** X2. A session just created is returned by [getSession], with the store
    left as it is, at every instant before [createdAt + sessionTtlSeconds *
    1000], and is absent (and purged) from that instant on; creating a
    session does not touch the cache partitions or queues, also not those
    already recorded under the same id. *)
Theorem X2_created_session_lives_for_its_ttl
        (config : EmulatorConfig) (now later : Z) (id token mode : string)
        (personas : list (string * option string)) (s : SessionStore.t) :
  let created := SessionStore.createSession config now id token mode personas s in
  let expiry := now + sessionTtlSeconds config * 1000 in
  sess_id (snd created) = id /\
  sess_createdAt (snd created) = now /\
  sess_expiresAt (snd created) = expiry /\
  SessionStore.idempotency (fst created) = SessionStore.idempotency s /\
  SessionStore.pendingTurns (fst created) = SessionStore.pendingTurns s /\
  (later < expiry ->
   SessionStore.getSession later id (fst created) = (fst created, Some (snd created))) /\
  (expiry <= later ->
   snd (SessionStore.getSession later id (fst created)) = None /\
   Terms.gone (fst (SessionStore.getSession later id (fst created))) id).
Proof.
  intros created expiry. subst created expiry.
  unfold SessionStore.createSession, SessionStore.getSession, SessionStore.isExpired.
  cbn [fst snd sess_id sess_createdAt sess_expiresAt SessionStore.sessions
       SessionStore.idempotency SessionStore.pendingTurns].
  rewrite lookup_insert_eq. cbn [sess_expiresAt].
  repeat (split; [reflexivity|]). split.
  - intros Hlive.
    destruct (Z.leb_spec (now + sessionTtlSeconds config * 1000) later); [lia|].
    reflexivity.
  - intros Hdead.
    destruct (Z.leb_spec (now + sessionTtlSeconds config * 1000) later); [|lia].
    cbn [fst snd]. split; [reflexivity | apply StoreFacts.purge_gone].
Qed.

Module CacheFacts.

Lemma valid_dec (now : Z) (s : SessionStore.t) (sessionId : string) :
  Terms.valid now s sessionId \/
  (~ Terms.valid now s sessionId /\
   (SessionStore.sessions s !! sessionId = None \/
    exists x, SessionStore.sessions s !! sessionId = Some x /\ sess_expiresAt x <= now)).
Proof.
  unfold Terms.valid.
  destruct (SessionStore.sessions s !! sessionId) as [x|] eqn:E.
  - destruct (Z.le_gt_cases (sess_expiresAt x) now) as [Hd|Hl].
    + right. split.
      * intros (y & Hy & Hlive). injection Hy as <-. lia.
      * right. exists x. split; [reflexivity | exact Hd].
    + left. exists x. split; [reflexivity | lia].
  - right. split; [intros (y & Hy & _); discriminate | left; reflexivity].
Qed.

Lemma liveEntry_idem (nowTs : Z) (o : option TurnCacheEntry) :
  Terms.liveEntry nowTs (Terms.liveEntry nowTs o) = Terms.liveEntry nowTs o.
Proof.
  destruct o as [e|]; [|reflexivity]. cbn.
  destruct (expiresAt e <=? nowTs) eqn:E; [reflexivity|]. cbn. rewrite E. reflexivity.
Qed.

Lemma sweepEntries_idem (nowTs : Z) (es : gmap string TurnCacheEntry) :
  SessionStore.sweepEntries nowTs (SessionStore.sweepEntries nowTs es)
  = SessionStore.sweepEntries nowTs es.
Proof.
  apply map_eq. intros k.
  rewrite !SweepFacts.sweepEntries_lookup. apply liveEntry_idem.
Qed.

Lemma livePartition_idem (nowTs : Z) (o : option (gmap string TurnCacheEntry)) :
  Terms.livePartition nowTs (Terms.livePartition nowTs o) = Terms.livePartition nowTs o.
Proof.
  destruct o as [es|]; [|reflexivity]. cbn [Terms.livePartition].
  destruct (size (SessionStore.sweepEntries nowTs es) =? 0)%nat eqn:E; [reflexivity|].
  cbn [Terms.livePartition]. rewrite sweepEntries_idem, E. reflexivity.
Qed.

(** After a sweep no recorded session is expired. *)
Lemma swept_not_expired (nowTs : Z) (s : SessionStore.t) (j : string) :
  Terms.expiredIn nowTs (SessionStore.cleanupExpired nowTs s) j = false.
Proof.
  pose proof (SweepFacts.cleanupExpired_at nowTs s j) as H. cbv zeta in H.
  destruct (Terms.expiredIn nowTs s j) eqn:E.
  - destruct H as (H & _). unfold Terms.expiredIn. rewrite H. reflexivity.
  - destruct H as (H & _). unfold Terms.expiredIn in *. rewrite H. exact E.
Qed.

End CacheFacts.

(** X3. [putTurn] throws [SESSION_NOT_FOUND] exactly when the session is
    absent or expired at the time of the call; it then stores no entry, the
    session has no record afterwards, and the store is either untouched
    (absent session) or purged of that session (expired one). The error
    carries no [code]. *)
Theorem X3_putTurn_session_not_found
        {Body : Type} (stringify : Body -> string)
        (config : EmulatorConfig) (now : Z) (sessionId idempotencyKey : string)
        (body : option Body) (entryData : TurnEntryData) (s : SessionStore.t) :
  let after := SessionStore.putTurn stringify config now sessionId idempotencyKey
                 body entryData s in
  (snd after = Throw {| message := "SESSION_NOT_FOUND"; code := None |}
   <-> ~ Terms.valid now s sessionId) /\
  (~ Terms.valid now s sessionId ->
   SessionStore.sessions (fst after) !! sessionId = None /\
   (fst after = s \/ fst after = SessionStore.purge sessionId s)).
Proof.
  intros after. subst after.
  destruct (CacheFacts.valid_dec now s sessionId) as [Hv|[Hn Hcase]].
  - split; [|intros Hn; contradiction].
    split; [|intros Hn; contradiction].
    intros Hthrow. exfalso.
    destruct (Terms.cachedAt s sessionId idempotencyKey) as [c|] eqn:Hc.
    + destruct (String.eqb (bodyHash c) (SessionStore.digestOf stringify body)) eqn:Hd.
      * apply String.eqb_eq in Hd.
        rewrite (PutTurnFacts.putTurn_replay stringify config now sessionId
                   idempotencyKey body entryData s c Hv Hc Hd) in Hthrow.
        discriminate.
      * apply String.eqb_neq in Hd.
        rewrite (PutTurnFacts.putTurn_conflict stringify config now sessionId
                   idempotencyKey body entryData s c Hv Hc Hd) in Hthrow.
        discriminate.
    + destruct (PutTurnFacts.putTurn_fresh stringify config now sessionId
                  idempotencyKey body entryData s Hv Hc) as (s' & Hp & _).
      rewrite Hp in Hthrow. discriminate.
  - unfold SessionStore.putTurn, SessionStore.getSession, SessionStore.isExpired.
    destruct Hcase as [Habs|(x & Hx & Hdead)].
    + rewrite Habs. cbn [fst snd]. split; [tauto|].
      intros _. split; [exact Habs | left; reflexivity].
    + rewrite Hx. destruct (Z.leb_spec (sess_expiresAt x) now); [|lia].
      cbn [fst snd]. split; [tauto|].
      intros _. split; [|right; reflexivity].
      apply (StoreFacts.purge_gone s sessionId).
Qed.

(** X4. [putTurn] touches one cache slot at most. Whatever its outcome, the
    record, the cache partition and the queue of every other session are
    unchanged; and when the session is valid, its record and queue, the
    entries under its other keys, and an entry already stored under the
    same key are all unchanged (an entry is never overwritten). *)
Theorem X4_putTurn_touches_one_slot
        {Body : Type} (stringify : Body -> string)
        (config : EmulatorConfig) (now : Z) (sessionId idempotencyKey : string)
        (body : option Body) (entryData : TurnEntryData) (s : SessionStore.t) :
  let after := fst (SessionStore.putTurn stringify config now sessionId idempotencyKey
                      body entryData s) in
  (forall other, other <> sessionId -> Terms.same_at s after other) /\
  (Terms.valid now s sessionId ->
   SessionStore.sessions after = SessionStore.sessions s /\
   SessionStore.pendingTurns after = SessionStore.pendingTurns s /\
   (forall key, key <> idempotencyKey ->
                Terms.cachedAt after sessionId key = Terms.cachedAt s sessionId key) /\
   (forall stored, Terms.cachedAt s sessionId idempotencyKey = Some stored ->
                   Terms.cachedAt after sessionId idempotencyKey = Some stored)).
Proof.
  intros after. subst after.
  destruct (CacheFacts.valid_dec now s sessionId) as [Hv|[Hn Hcase]].
  - destruct (Terms.cachedAt s sessionId idempotencyKey) as [c|] eqn:Hc.
    + assert (fst (SessionStore.putTurn stringify config now sessionId idempotencyKey
                     body entryData s) = s) as ->.
      { destruct (String.eqb (bodyHash c) (SessionStore.digestOf stringify body)) eqn:Hd.
        - apply String.eqb_eq in Hd.
          rewrite (PutTurnFacts.putTurn_replay stringify config now sessionId
                     idempotencyKey body entryData s c Hv Hc Hd). reflexivity.
        - apply String.eqb_neq in Hd.
          rewrite (PutTurnFacts.putTurn_conflict stringify config now sessionId
                     idempotencyKey body entryData s c Hv Hc Hd). reflexivity. }
      split; [intros; apply StoreFacts.same_at_refl|]. intros _.
      split; [reflexivity|]. split; [reflexivity|].
      split; [intros; reflexivity | intros stored Hs; congruence].
    + destruct (PutTurnFacts.getSession_valid now s sessionId Hv) as (session & _ & Hg).
      unfold SessionStore.putTurn. rewrite Hg. unfold Terms.cachedAt in Hc.
      destruct (SessionStore.idempotency s !! sessionId) as [cache|] eqn:Hi;
        cbn [mbind option_bind] in Hc;
        cbn [SessionStore.idempotency]; rewrite ?lookup_insert_eq, ?Hi, ?Hc,
          ?lookup_empty;
        cbn [fst SessionStore.sessions SessionStore.idempotency
             SessionStore.pendingTurns];
        (split;
         [ intros other Hne; unfold Terms.same_at;
           cbn [SessionStore.sessions SessionStore.idempotency
                SessionStore.pendingTurns];
           rewrite ?lookup_insert_ne by congruence; done
         | intros _; split; [reflexivity|]; split; [reflexivity|]; split;
           [ intros key Hne; unfold Terms.cachedAt;
             cbn [SessionStore.idempotency];
             rewrite lookup_insert_eq, ?Hi; cbn [mbind option_bind];
             rewrite lookup_insert_ne by congruence; rewrite ?lookup_empty;
             reflexivity
           | intros stored Hs; discriminate Hs ] ]).
  - split; [|intros Hv; contradiction].
    unfold SessionStore.putTurn, SessionStore.getSession, SessionStore.isExpired.
    destruct Hcase as [Habs|(x & Hx & Hdead)].
    + rewrite Habs. cbn [fst]. intros; apply StoreFacts.same_at_refl.
    + rewrite Hx. destruct (Z.leb_spec (sess_expiresAt x) now); [|lia].
      cbn [fst]. intros other Hne. apply StoreFacts.purge_other. congruence.
Qed.

(** X5. [cleanupExpired] is idempotent at a given instant, and what it
    leaves is clean: no recorded session with [expiresAt <= now] and no
    empty cache partition. *)
Theorem X5_cleanup_is_idempotent (now : Z) (s : SessionStore.t) :
  let swept := SessionStore.cleanupExpired now s in
  SessionStore.cleanupExpired now swept = swept /\
  (forall j session, SessionStore.sessions swept !! j = Some session ->
                     now < sess_expiresAt session) /\
  (forall j cache, SessionStore.idempotency swept !! j = Some cache -> cache <> ∅).
Proof.
  intros swept.
  assert (forall j, SessionStore.idempotency swept !! j
                    = Terms.livePartition now (SessionStore.idempotency swept !! j))
    as Hlive.
  { intros j. pose proof (SweepFacts.cleanupExpired_at now s j) as H. cbv zeta in H.
    fold swept in H.
    destruct (Terms.expiredIn now s j).
    - destruct H as (_ & H & _). rewrite H. reflexivity.
    - destruct H as (_ & _ & H). rewrite H. symmetry. apply CacheFacts.livePartition_idem. }
  split; [|split].
  - apply QueueFacts.store_eq; apply map_eq; intros j;
      pose proof (SweepFacts.cleanupExpired_at now swept j) as H; cbv zeta in H;
      unfold swept in H at 1; rewrite CacheFacts.swept_not_expired in H;
      fold swept in H; destruct H as (H1 & H2 & H3).
    + exact H1.
    + rewrite H3. symmetry. apply Hlive.
    + exact H2.
  - intros j session Hj.
    pose proof (CacheFacts.swept_not_expired now s j) as H. fold swept in H.
    unfold Terms.expiredIn in H. rewrite Hj in H.
    destruct (Z.leb_spec (sess_expiresAt session) now); [discriminate | lia].
  - intros j cache Hj Hempty. pose proof (Hlive j) as H. rewrite Hj in H.
    subst cache. unfold Terms.livePartition in H.
    assert (SessionStore.sweepEntries now ∅ = (∅ : gmap string TurnCacheEntry)) as He.
    { apply map_eq. intros k. rewrite SweepFacts.sweepEntries_lookup, lookup_empty.
      reflexivity. }
    rewrite He, map_size_empty in H. discriminate.
Qed.

(** ** utils.ts: [percentToHit] and the shape of a sanitized path *)



Module PathFacts.

Lemma occurs_beforeQuery (s : string) :
  Terms.occurs "?" (Utils.beforeQuery s) = false.
Proof.
  induction s as [|c t IH]; [reflexivity|]. cbn [Utils.beforeQuery].
  destruct (Ascii.eqb c "?") eqn:E; [reflexivity|].
  cbn [Terms.occurs]. rewrite E, IH. reflexivity.
Qed.

Lemma occurs_backslashes (s : string) :
  Terms.occurs "\" (Utils.backslashesToSlashes s) = false /\
  (Terms.occurs "?" s = false ->
   Terms.occurs "?" (Utils.backslashesToSlashes s) = false).
Proof.
  induction s as [|c t [IH1 IH2]]; [split; reflexivity|].
  cbn [Utils.backslashesToSlashes Terms.occurs]. split.
  - rewrite IH1. destruct (Ascii.eqb c "\") eqn:E; [reflexivity|].
    rewrite E. reflexivity.
  - intros H. apply orb_false_iff in H as [Hc Ht]. rewrite (IH2 Ht).
    destruct (Ascii.eqb c "\"); [reflexivity | rewrite Hc; reflexivity].
Qed.

Lemma occurs_strip (c : ascii) (s : string) :
  Terms.occurs c s = false -> Terms.occurs c (Utils.stripLeadingSlashes s) = false.
Proof.
  induction s as [|d t IH]; [reflexivity|]. cbn [Utils.stripLeadingSlashes].
  intros H. destruct (Ascii.eqb d "/"); [|exact H].
  cbn [Terms.occurs] in H. apply orb_false_iff in H as [_ Ht]. exact (IH Ht).
Qed.

Lemma strip_no_slash (s : string) :
  JsString.startsWith "/" (Utils.stripLeadingSlashes s) = false.
Proof.
  induction s as [|d t IH]; [reflexivity|]. cbn [Utils.stripLeadingSlashes].
  destruct (Ascii.eqb d "/") eqn:E; [exact IH|].
  cbn [JsString.startsWith]. rewrite Ascii.eqb_sym, E. reflexivity.
Qed.

Lemma occurs_skipDots (c : ascii) (s : string) :
  Terms.occurs c s = false -> Terms.occurs c (Utils.skipDots s) = false.
Proof.
  induction s as [|d t IH]; [reflexivity|]. cbn [Utils.skipDots].
  intros H. destruct (Ascii.eqb d "."); [|exact H].
  cbn [Terms.occurs] in H. apply orb_false_iff in H as [_ Ht]. exact (IH Ht).
Qed.

(** Collapsing introduces no character. *)
Lemma occurs_collapse_bounded (c : ascii) (n : nat) :
  forall s, (String.length s <= n)%nat -> Terms.occurs c s = false ->
            Terms.occurs c (Utils.collapseDotRuns s) = false.
Proof.
  induction n as [|k IH]; intros s Hlen Hs.
  - destruct s; [reflexivity | cbn [String.length] in Hlen; lia].
  - destruct s as [|d t]; [reflexivity|].
    cbn [String.length] in Hlen. cbn [Terms.occurs] in Hs.
    apply orb_false_iff in Hs as [Hd Ht]. cbn [Utils.collapseDotRuns].
    destruct (Ascii.eqb d "." && JsString.startsWith "." t) eqn:E.
    + apply andb_true_iff in E as [E _]. apply Ascii.eqb_eq in E. subst d.
      cbn [Terms.occurs]. rewrite Hd. cbn [orb]. apply IH.
      * pose proof (SanitizeFacts.skipDots_length t). lia.
      * apply occurs_skipDots, Ht.
    + cbn [Terms.occurs]. rewrite Hd. cbn [orb]. apply IH; [lia | exact Ht].
Qed.

Lemma occurs_collapse (c : ascii) (s : string) :
  Terms.occurs c s = false -> Terms.occurs c (Utils.collapseDotRuns s) = false.
Proof. apply (occurs_collapse_bounded c (String.length s)). reflexivity. Qed.

(** Collapsing keeps the first character. *)
Lemma collapse_head (c : ascii) (s : string) :
  JsString.startsWith (String c EmptyString) (Utils.collapseDotRuns s)
  = JsString.startsWith (String c EmptyString) s.
Proof.
  destruct s as [|d t]; [reflexivity|]. cbn [Utils.collapseDotRuns].
  destruct (Ascii.eqb d "." && JsString.startsWith "." t) eqn:E; [|reflexivity].
  apply andb_true_iff in E as [E _]. apply Ascii.eqb_eq in E. subst d. reflexivity.
Qed.

Lemma beforeQuery_id (s : string) :
  Terms.occurs "?" s = false -> Utils.beforeQuery s = s.
Proof.
  induction s as [|c t IH]; [reflexivity|]. cbn [Terms.occurs Utils.beforeQuery].
  intros H. apply orb_false_iff in H as [Hc Ht]. rewrite Hc, (IH Ht). reflexivity.
Qed.

Lemma backslashes_id (s : string) :
  Terms.occurs "\" s = false -> Utils.backslashesToSlashes s = s.
Proof.
  induction s as [|c t IH]; [reflexivity|].
  cbn [Terms.occurs Utils.backslashesToSlashes].
  intros H. apply orb_false_iff in H as [Hc Ht]. rewrite Hc, (IH Ht). reflexivity.
Qed.

Lemma strip_id (s : string) :
  JsString.startsWith "/" s = false -> Utils.stripLeadingSlashes s = s.
Proof.
  destruct s as [|c t]; [reflexivity|]. cbn [JsString.startsWith Utils.stripLeadingSlashes].
  rewrite andb_true_r, Ascii.eqb_sym. intros ->. reflexivity.
Qed.

Lemma collapse_id (s : string) :
  JsString.includes ".." s = false -> Utils.collapseDotRuns s = s.
Proof.
  induction s as [|c t IH]; [reflexivity|].
  rewrite SanitizeFacts.includes_dots_cons. intros H.
  apply orb_false_iff in H as [Hhead Ht]. cbn [Utils.collapseDotRuns].
  rewrite Ascii.eqb_sym, Hhead, (IH Ht). reflexivity.
Qed.

End PathFacts.

(** X7. The path [sanitizeMediaPath] returns holds no question mark and no
    backslash, does not start with a slash, has no two adjacent dots, and
    is a fixed point: sanitizing it again returns it unchanged. *)
Theorem X7_sanitized_path_shape (input : string) :
  exists path : string,
    Utils.sanitizeMediaPath input = Return path /\
    Terms.occurs "?" path = false /\
    Terms.occurs "\" path = false /\
    JsString.startsWith "/" path = false /\
    JsString.includes ".." path = false /\
    Utils.sanitizeMediaPath path = Return path.
Proof.
  set (path := Utils.collapseDotRuns
                 (Utils.stripLeadingSlashes
                    (Utils.backslashesToSlashes (Utils.beforeQuery input)))).
  assert (JsString.includes ".." path = false) as Hdots
      by apply SanitizeFacts.collapse_no_dotdot.
  assert (Terms.occurs "?" path = false) as Hq.
  { apply PathFacts.occurs_collapse, PathFacts.occurs_strip.
    apply (PathFacts.occurs_backslashes (Utils.beforeQuery input)).
    apply PathFacts.occurs_beforeQuery. }
  assert (Terms.occurs "\" path = false) as Hb.
  { apply PathFacts.occurs_collapse, PathFacts.occurs_strip.
    apply (PathFacts.occurs_backslashes (Utils.beforeQuery input)). }
  assert (JsString.startsWith "/" path = false) as Hs.
  { unfold path. rewrite PathFacts.collapse_head. apply PathFacts.strip_no_slash. }
  exists path. split.
  { unfold Utils.sanitizeMediaPath. fold path. rewrite Hdots. reflexivity. }
  split; [exact Hq|]. split; [exact Hb|]. split; [exact Hs|]. split; [exact Hdots|].
  unfold Utils.sanitizeMediaPath.
  rewrite (PathFacts.beforeQuery_id path Hq), (PathFacts.backslashes_id path Hb),
    (PathFacts.strip_id path Hs), (PathFacts.collapse_id path Hdots), Hdots.
  reflexivity.
Qed.

(** ** config.ts: [parseCsv] *)

Module CsvFacts.

Lemma splitOn_nonempty (sep : ascii) (s : string) : Config.splitOn sep s <> [].
Proof.
  destruct s as [|c t]; cbn [Config.splitOn]; [discriminate|].
  destruct (Ascii.eqb c sep); [discriminate|].
  destruct (Config.splitOn sep t); discriminate.
Qed.









End CsvFacts.



(** ** fixtures.ts: the catalog *)

Module RegistryFacts.

Lemma find_snoc {A : Type} (p : A -> bool) (l : list A) (x : A) :
  List.find p (l ++ [x])
  = match List.find p l with
    | Some y => Some y
    | None => if p x then Some x else None
    end.
Proof.
  induction l as [|a l IH]; [reflexivity|]. cbn [app List.find].
  destruct (p a); [reflexivity | exact IH].
Qed.

Lemma get_set {V : Type} (k j : string) (v : V) (m : JsMap.t V) :
  JsMap.get j (JsMap.set k v m) = if String.eqb k j then Some v else JsMap.get j m.
Proof.
  destruct (String.eqb k j) eqn:E.
  - apply String.eqb_eq in E. subst j. apply JsMapFacts.get_set_eq.
  - apply String.eqb_neq in E. apply JsMapFacts.get_set_ne, E.
Qed.

(** The map built from the manifest, read at one id. *)
Lemma get_entries (fixtures : list LoadedFixture) :
  forall (acc : JsMap.t LoadedFixture) (id : string),
    JsMap.get id
      (fold_left (fun m kv => JsMap.set (fst kv) (snd kv) m)
         (map (fun fixture => (fx_id fixture, fixture)) fixtures) acc)
    = match List.find (fun f => String.eqb (fx_id f) id) (rev fixtures) with
      | Some f => Some f
      | None => JsMap.get id acc
      end.
Proof.
  induction fixtures as [|f l IH]; intros acc id; [reflexivity|].
  cbn [map fold_left fst snd rev]. rewrite IH, find_snoc.
  destruct (List.find (fun f0 => String.eqb (fx_id f0) id) (rev l)); [reflexivity|].
  rewrite get_set. destruct (String.eqb (fx_id f) id); reflexivity.
Qed.

Lemma set_not_nil {V : Type} (k : string) (v : V) (m : JsMap.t V) :
  JsMap.set k v m <> [].
Proof.
  destruct m as [|[k' v'] r]; cbn [JsMap.set]; [discriminate|].
  destruct (String.eqb k' k); discriminate.
Qed.

Lemma entries_not_nil {V : Type} (entries : list (string * V)) :
  forall acc : JsMap.t V,
    acc <> [] \/ entries <> [] ->
    fold_left (fun m kv => JsMap.set (fst kv) (snd kv) m) entries acc <> [].
Proof.
  induction entries as [|kv l IH]; intros acc H; cbn [fold_left].
  - destruct H as [H|H]; [exact H | contradiction].
  - apply IH. left. apply set_not_nil.
Qed.

Lemma in_set {V : Type} (k : string) (v : V) (m : JsMap.t V) (x : V) :
  In x (map snd (JsMap.set k v m)) -> x = v \/ In x (map snd m).
Proof.
  induction m as [|[k' v'] r IH]; cbn [JsMap.set map snd In].
  - intros [H|[]]. left. congruence.
  - destruct (String.eqb k' k); cbn [map snd In].
    + intros [H|H]; [left; congruence | right; right; exact H].
    + intros [H|H]; [right; left; exact H|].
      destruct (IH H) as [E|E]; [left; exact E | right; right; exact E].
Qed.

Lemma in_entries (fixtures : list LoadedFixture) :
  forall (acc : JsMap.t LoadedFixture) (x : LoadedFixture),
    In x (map snd
            (fold_left (fun m kv => JsMap.set (fst kv) (snd kv) m)
               (map (fun fixture => (fx_id fixture, fixture)) fixtures) acc)) ->
    In x fixtures \/ In x (map snd acc).
Proof.
  induction fixtures as [|f l IH]; intros acc x H; [right; exact H|].
  cbn [map fold_left fst snd] in H. destruct (IH _ x H) as [E|E].
  - left. right. exact E.
  - destruct (in_set _ _ _ _ E) as [->|E']; [left; left; reflexivity | right; exact E'].
Qed.

Lemma catalog_from_manifest (fixtures : list LoadedFixture) (table : gmap string string)
      (x : LoadedFixture) :
  In x (Fixtures.getAllFixtures (Fixtures.new fixtures table)) -> In x fixtures.
Proof.
  intros H. destruct (in_entries fixtures JsMap.empty x H) as [E|[]]. exact E.
Qed.

Lemma catalog_not_nil (fixtures : list LoadedFixture) (table : gmap string string) :
  fixtures <> [] -> Fixtures.getAllFixtures (Fixtures.new fixtures table) <> [].
Proof.
  intros Hne H. unfold Fixtures.getAllFixtures, JsMap.values in H.
  apply map_eq_nil in H. revert H. apply entries_not_nil. right.
  destruct fixtures; [contradiction | discriminate].
Qed.

Lemma selected_in_list {T : Type} (x : T) (xs : list T) (key : string) :
  exists y, Utils.selectDeterministic (x :: xs) key = Return (Some y) /\ In y (x :: xs).
Proof.
  rewrite UtilsFacts.selectDeterministic_index.
  pose proof (UtilsFacts.digestPrefix_range key) as Hr.
  set (n := Z.of_nat (length (x :: xs))).
  assert (0 < n) as Hn by (subst n; cbn [length]; lia).
  pose proof (Z.mod_pos_bound (Design.digestPrefix key) n Hn) as Hm.
  destruct (lookup_lt_is_Some_2 (x :: xs) (Z.to_nat (Design.digestPrefix key mod n)))
    as [y Hy]; [subst n; lia|].
  exists y. split; [f_equal; exact Hy|].
  apply list_elem_of_In. eapply list_elem_of_lookup_2. exact Hy.
Qed.

End RegistryFacts.

(** X9. [getFixtureById] returns the last fixture of the manifest that
    carries the id (a later duplicate replaces an earlier one) and nothing
    when no fixture carries it; with distinct ids the count of fixtures is
    the length of the manifest. *)
Theorem X9_getFixtureById_last_wins
        (fixtures : list LoadedFixture) (table : gmap string string) (id : string) :
  let r := Fixtures.new fixtures table in
  Fixtures.getFixtureById r id
  = List.find (fun f => String.eqb (fx_id f) id) (rev fixtures) /\
  (Fixtures.getFixtureById r id = None <-> ~ In id (map fx_id fixtures)) /\
  (Fixtures.getFixtureCount r <= length fixtures)%nat /\
  (List.NoDup (map fx_id fixtures) -> Fixtures.getFixtureCount r = length fixtures).
Proof.
  intros r.
  assert (Fixtures.getFixtureById r id
          = List.find (fun f => String.eqb (fx_id f) id) (rev fixtures)) as Hget.
  { unfold Fixtures.getFixtureById, r, Fixtures.new, JsMap.ofEntries.
    cbn [Fixtures.fixtureMap]. rewrite RegistryFacts.get_entries.
    destruct (List.find _ (rev fixtures)); reflexivity. }
  split; [exact Hget|]. split; [|split].
  - rewrite Hget. split.
    + intros Hnone Hin. apply in_map_iff in Hin as (f & Hf & Hin).
      apply in_rev in Hin. pose proof (List.find_none _ _ Hnone f Hin) as Hno.
      cbv beta in Hno. rewrite Hf, String.eqb_refl in Hno. discriminate Hno.
    + intros Hnot. destruct (List.find _ (rev fixtures)) as [f|] eqn:E; [|reflexivity].
      exfalso. apply List.find_some in E as [Hin Hid]. apply Hnot.
      apply String.eqb_eq in Hid. subst id. apply in_map, in_rev, Hin.
  - unfold Fixtures.getFixtureCount, JsMap.size, r, Fixtures.new, JsMap.ofEntries.
    cbn [Fixtures.fixtureMap].
    assert (forall (l : list LoadedFixture) (acc : JsMap.t LoadedFixture),
              (length (fold_left (fun m kv => JsMap.set (fst kv) (snd kv) m)
                         (map (fun fixture => (fx_id fixture, fixture)) l) acc)
               <= length acc + length l)%nat) as Hlen.
    { induction l as [|f l IH]; intros acc; cbn [map fold_left length]; [lia|].
      etransitivity; [apply IH|]. cbn [fst snd].
      assert (length (JsMap.set (fx_id f) f acc) <= S (length acc))%nat; [|lia].
      clear. induction acc as [|[k v] a IH]; cbn [JsMap.set length]; [lia|].
      destruct (String.eqb k (fx_id f)); cbn [length]; lia. }
    apply (Hlen fixtures JsMap.empty).
  - intros Hnd. unfold Fixtures.getFixtureCount, JsMap.size.
    transitivity (length (Fixtures.getAllFixtures r)).
    + unfold Fixtures.getAllFixtures, JsMap.values. rewrite length_map. reflexivity.
    + subst r. rewrite CatalogFacts.getAllFixtures_distinct by exact Hnd. reflexivity.
Qed.

(** X10. On a registry with a non-empty manifest [selectFixture] returns one
    of the manifest's fixtures, whatever the persona and the discriminator;
    the only way it throws is an override that names an id no fixture
    carries. *)
Theorem X10_selectFixture_returns_a_manifest_fixture
        (fixtures : list LoadedFixture) (table : gmap string string)
        (personaId discriminator : string) :
  fixtures <> [] ->
  let r := Fixtures.new fixtures table in
  match Fixtures.selectFixture r personaId discriminator with
  | Return (Some fixture) => In fixture fixtures
  | Return None => False
  | Throw _ =>
      exists id, Design.override table personaId discriminator = Some id /\
                 Fixtures.getFixtureById r id = None
  end.
Proof.
  intros Hne r. unfold Fixtures.selectFixture.
  rewrite FixtureFacts.resolveOverride_design.
  change (Fixtures.overrides r) with table.
  destruct (Design.override table personaId discriminator) as [id|] eqn:Ho.
  - destruct (Fixtures.getFixtureById r id) as [f|] eqn:Hg.
    + unfold Fixtures.getFixtureById in Hg.
      apply (RegistryFacts.catalog_from_manifest fixtures table).
      unfold Fixtures.getAllFixtures, JsMap.values. fold r.
      clear - Hg. induction (Fixtures.fixtureMap r) as [|[k v] m IH]; [discriminate|].
      cbn [JsMap.get] in Hg. cbn [map snd In].
      destruct (String.eqb k id); [left; congruence | right; exact (IH Hg)].
    + exists id. split; [reflexivity | exact Hg].
  - subst r. rewrite FixtureFacts.getFixturesByPersona_design.
    set (catalog := Fixtures.getAllFixtures (Fixtures.new fixtures table)).
    assert (catalog <> []) as Hcat by (apply RegistryFacts.catalog_not_nil, Hne).
    assert (forall x, In x (Design.candidates catalog fixtures personaId) ->
                      In x fixtures) as Hsub.
    { intros x. unfold Design.candidates.
      destruct (String.eqb (Fixtures.normalizeKey personaId) "*");
        [apply RegistryFacts.catalog_from_manifest|].
      destruct (Design.registeredFor fixtures personaId) as [|a l] eqn:E;
        [apply RegistryFacts.catalog_from_manifest|].
      rewrite <- E. unfold Design.registeredFor. intros H.
      apply filter_In in H as [H _]. exact H. }
    assert (Design.candidates catalog fixtures personaId <> []) as Hcand.
    { unfold Design.candidates.
      destruct (String.eqb (Fixtures.normalizeKey personaId) "*"); [exact Hcat|].
      destruct (Design.registeredFor fixtures personaId); [exact Hcat | discriminate]. }
    destruct (Design.candidates catalog fixtures personaId) as [|x xs];
      [contradiction|].
    change (length (x :: xs) =? 0)%nat with false. cbv iota.
    destruct (RegistryFacts.selected_in_list x xs
                (String.append personaId (String.append ":" discriminator)))
      as (y & -> & Hy).
    apply Hsub, Hy.
Qed.

(** The sample registry asked for plato. *)
Lemma X10_selectFixture_returns_a_manifest_fixture_witness :
  match Fixtures.selectFixture (Fixtures.new Examples.catalog Examples.overrideTable)
          "plato" "hello" with
  | Return (Some fixture) => In fixture Examples.catalog
  | Return None => False
  | Throw _ =>
      exists id, Design.override Examples.overrideTable "plato" "hello" = Some id /\
                 Fixtures.getFixtureById
                   (Fixtures.new Examples.catalog Examples.overrideTable) id = None
  end.
Proof.
  apply (X10_selectFixture_returns_a_manifest_fixture Examples.catalog
           Examples.overrideTable "plato" "hello").
  discriminate.
Defined.

(** ** app.ts: the duration estimate and the rendering of a turn *)

Module EstimateFacts.






End EstimateFacts.


Module RenderedFacts.

Lemma stamped_idle (meta2 : gmap string JsVal) (v : JsVal) (clip tts pair : bool) :
  meta2 !! "stage_idle_after_ms" = Some v ->
  (let meta3 := if clip then <["miss_clip" := JBool true]> meta2 else meta2 in
   let meta4 := if tts then <["miss_tts" := JBool true]> meta3 else meta3 in
   let meta5 := if pair then <["pair_audio_only" := JBool true]> meta4 else meta4 in
   meta5) !! "stage_idle_after_ms" = Some v.
Proof.
  intros H. cbv zeta.
  destruct clip, tts, pair; repeat (rewrite lookup_insert_ne by discriminate); exact H.
Qed.

Lemma kind_of_envelope (track : TimelineTrack) :
  kind (Sse.trackEnvelope track) = track_type track.
Proof. reflexivity. Qed.

End RenderedFacts.

(** X12. The idle period the hub announces for a turn the endpoint
    accepted is the fixture's [idle_after_ms] when it has one, else the
    number the fixture's timeline carries as [meta.stage_idle_after_ms],
    else the duration estimate of the fixture's timeline as it was before
    rendering, also when a clip miss removed its video tracks. Only for a
    meta value that is neither a number nor null does the hub use its own
    estimate of the rendered timeline. *)
Theorem X12_idle_period_of_an_accepted_turn
        (stringify : TurnRequestBody -> string) (config : EmulatorConfig) (now : Z)
        (draws : Draws) (key : string) (payload : TurnRequestBody)
        (fixture : LoadedFixture) :
  let entry := Terms.acceptedEntry stringify config now draws key payload fixture in
  Sse.idleAfterMs entry
  = match idle_after_ms fixture with
    | Some q => q
    | None =>
        match meta (timeline fixture) ≫= (fun m => m !! "stage_idle_after_ms") with
        | Some (JNum q) => q
        | Some JNull | None => Render.estimateTimelineDurationMs (timeline fixture)
        | Some _ => Sse.computeTimelineDuration entry
        end
    end.
Proof.
  intros entry. unfold Sse.idleAfterMs.
  change (entry_timeline entry)
    with (Render.applyFixtureToggles config now fixture
            {| miss_tts :=
                 Some (Utils.percentToHit (missPct_tts config) (random_miss_tts draws));
               miss_clip :=
                 Some (Utils.percentToHit (missPct_clip config) (random_miss_clip draws)) |}).
  unfold Render.applyFixtureToggles at 1. cbn [meta option_bind mbind].
  unfold Render.cloneTimeline.
  set (meta0 := match meta (timeline fixture) with Some m => m | None => ∅ end).
  set (idleMs := match idle_after_ms fixture with
                 | Some q => JNum q
                 | None => _
                 end).
  change (option_bind _ _ ?f (Some ?x)) with (f x). cbv beta.
  rewrite (RenderedFacts.stamped_idle _ idleMs) by apply lookup_insert_eq.
  subst idleMs. destruct (idle_after_ms fixture) as [q|]; [reflexivity|].
  assert (meta0 !! "stage_idle_after_ms"
          = meta (timeline fixture) ≫= (fun m => m !! "stage_idle_after_ms")) as ->.
  { subst meta0. destruct (meta (timeline fixture)); [reflexivity | apply lookup_empty]. }
  destruct (meta (timeline fixture) ≫= (fun m => m !! "stage_idle_after_ms"))
    as [[| | | |]|]; reflexivity.
Qed.

(** X13. What a clip miss and the swap toggles do to the delivery of an
    accepted turn: the miss flags the hub reads are the two draws; when the
    clip missed, or swapping is disabled in the configuration or by the
    fixture, the turn has no swap point, so the hub sets the timeline and
    play_idle timers only; after a clip miss the envelope sent to the
    client has no video track, and without one it has every track of the
    fixture. *)
Theorem X13_clip_miss_and_swap_toggle_delivery
        (stringify : TurnRequestBody -> string) (config : EmulatorConfig) (now : Z)
        (draws : Draws) (key : string) (payload : TurnRequestBody)
        (fixture : LoadedFixture) :
  let entry := Terms.acceptedEntry stringify config now draws key payload fixture in
  let clip := Utils.percentToHit (missPct_clip config) (random_miss_clip draws) in
  let audio := lat_audio (latencyMs entry) in
  Sse.missFlag entry miss_clip = clip /\
  Sse.missFlag entry miss_tts
  = Utils.percentToHit (missPct_tts config) (random_miss_tts draws) /\
  (clip = true \/ swapEnabled config = false \/ swap_enabled fixture = Some false ->
   Terms.hasSwap entry = false /\
   forall (m : Metrics) (client : ManagedClient),
     map delay (timers (snd (Sse.dispatchTurn m client entry)))
     = map delay (timers client) ++ [audio; (audio + Sse.idleAfterMs entry)%Q]) /\
  (forall client : ManagedClient,
      if clip
      then Forall (fun t => kind t <> "video") (env_tracks (Sse.envelope client entry)) /\
           env_swap_points (Sse.envelope client entry) = []
      else env_tracks (Sse.envelope client entry)
           = map Sse.trackEnvelope (tracks (timeline fixture))).
Proof.
  intros entry clip audio.
  assert (forall b : bool, truthy (Some b) = b) as Htruthy by (intros []; reflexivity).
  assert (Sse.missFlag entry miss_clip = clip) as Hclip by apply Htruthy.
  split; [exact Hclip|]. split; [apply Htruthy|].
  assert (swap_points (entry_timeline entry)
          = if clip then Some []
            else if negb (swapEnabled config) || Render.isFalse (swap_enabled fixture)
                 then Some [] else swap_points (timeline fixture)) as Hswap.
  { unfold entry, Terms.acceptedEntry, Terms.freshEntry, App.entryDataFor.
    cbn [entry_timeline d_timeline]. unfold Render.applyFixtureToggles.
    cbn [swap_points miss_clip]. rewrite Htruthy. fold clip.
    destruct clip; reflexivity. }
  assert (tracks (entry_timeline entry)
          = if clip
            then List.filter (fun track => negb (String.eqb (track_type track) "video"))
                             (tracks (timeline fixture))
            else tracks (timeline fixture)) as Htracks.
  { unfold entry, Terms.acceptedEntry, Terms.freshEntry, App.entryDataFor.
    cbn [entry_timeline d_timeline]. unfold Render.applyFixtureToggles.
    cbn [tracks miss_clip]. rewrite Htruthy. reflexivity. }
  split.
  - intros Hoff.
    assert (swap_points (entry_timeline entry) = Some []) as Hnone.
    { rewrite Hswap. destruct clip; [reflexivity|].
      destruct Hoff as [Hoff|[Hoff|Hoff]]; [discriminate Hoff | |];
        rewrite Hoff; [reflexivity|].
      cbn [Render.isFalse]. rewrite orb_true_r. reflexivity. }
    split; [unfold Terms.hasSwap; rewrite Hnone; reflexivity|].
    intros m client. unfold Sse.dispatchTurn. rewrite Hnone.
    destruct (Sse.missFlag entry miss_tts), (Sse.missFlag entry miss_clip);
      cbn [snd Sse.pushTimer timers]; rewrite !map_app; cbn [map delay];
      rewrite <- !app_assoc; cbn [app];
      f_equal; unfold Sse.writeMessage, Sse.writeEvent;
      repeat match goal with
             | |- context [if closed ?c then _ else _] =>
                 destruct (closed c) eqn:?; cbn [timers closed] in *
             end; try reflexivity; try congruence.
  - intros client. unfold Sse.envelope. cbn [env_tracks env_swap_points].
    unfold Sse.swapPointsOf. rewrite Hswap, Htracks. destruct clip.
    + split; [|reflexivity]. apply Forall_forall. intros t Hin.
      apply list_elem_of_In, in_map_iff in Hin as (track & <- & Hin).
      apply filter_In in Hin as [_ Hneq]. rewrite RenderedFacts.kind_of_envelope.
      intros Heq. rewrite Heq in Hneq. discriminate Hneq.
    + reflexivity.
Qed.

(** ** sse.ts: clients and the hub *)

Module ClientFacts.

Lemma dispatchTurn_any_metrics (m m' : Metrics) (client : ManagedClient)
      (entry : TurnCacheEntry) :
  snd (Sse.dispatchTurn m client entry) = snd (Sse.dispatchTurn m' client entry).
Proof.
  unfold Sse.dispatchTurn.
  destruct (Sse.missFlag entry miss_tts), (Sse.missFlag entry miss_clip);
    reflexivity.
Qed.

(** One turn dispatched to an open client. *)
Lemma dispatchTurn_open (m : Metrics) (client : ManagedClient) (entry : TurnCacheEntry) :
  closed client = false ->
  let after := snd (Sse.dispatchTurn m client entry) in
  res after = res client ++ Terms.immediateFrames entry /\
  map delay (timers after) = map delay (timers client) ++ Terms.timerDelays entry /\
  closed after = false /\
  handle after = handle client /\
  client_sessionId after = client_sessionId client /\
  heartbeat after = heartbeat client.
Proof.
  intros Hopen. destruct client as [h sid out hb ts cl]. cbn in Hopen. subst cl.
  unfold Sse.dispatchTurn, Terms.immediateFrames, Terms.timerDelays, Terms.hasSwap.
  destruct (swap_points (entry_timeline entry)) as [[|sp sps]|];
    destruct (Sse.missFlag entry miss_tts), (Sse.missFlag entry miss_clip);
    cbn [Sse.writeEvent Sse.writeMessage Sse.pushTimer closed res timers handle
         client_sessionId heartbeat fst snd];
    rewrite ?map_app; cbn [map delay]; rewrite <- ?app_assoc; cbn [app];
    repeat split; reflexivity.
Qed.

(** A closed client is written nothing, at once or by a timer. *)
Lemma write_closed (client : ManagedClient) (f : Frame) :
  closed client = true ->
  (forall retryMs, f <> FRetry retryMs) ->
  Sse.writeFrame client f = client.
Proof.
  intros Hc Hf. destruct f as [event data|data|retryMs];
    cbn [Sse.writeFrame]; unfold Sse.writeEvent, Sse.writeMessage;
    rewrite ?Hc; try reflexivity.
  exfalso. apply (Hf retryMs). reflexivity.
Qed.

Lemma dispatched_open (entries : list TurnCacheEntry) :
  forall client : ManagedClient,
    closed client = false ->
    res (Terms.dispatched client entries)
    = res client ++ flat_map Terms.immediateFrames entries /\
    map delay (timers (Terms.dispatched client entries))
    = map delay (timers client) ++ flat_map Terms.timerDelays entries /\
    closed (Terms.dispatched client entries) = false /\
    handle (Terms.dispatched client entries) = handle client.
Proof.
  induction entries as [|entry rest IH]; intros client Hopen.
  - cbn [Terms.dispatched fold_left flat_map]. rewrite !app_nil_r. auto.
  - destruct (dispatchTurn_open Metric.zero client entry Hopen)
      as (Hres & Htimers & Hopen' & Hhandle & _).
    destruct (IH _ Hopen') as (Hr & Ht & Ho & Hh).
    unfold Terms.dispatched in *. cbn [fold_left flat_map].
    rewrite Hr, Ht, Hres, Htimers, Hh, Hhandle, <- !app_assoc. auto.
Qed.

Lemma dispatchAll_clients (entry : TurnCacheEntry) (targets : list ManagedClient) :
  forall (m : Metrics) (done : list ManagedClient),
    snd (fold_left
           (fun (acc : Metrics * list ManagedClient) client =>
              let '(m1, c1) := Sse.dispatchTurn (fst acc) client entry in
              (m1, snd acc ++ [c1]))
           targets (m, done))
    = done ++ map (fun c => snd (Sse.dispatchTurn Metric.zero c entry)) targets.
Proof.
  induction targets as [|c rest IH]; intros m done; cbn [fold_left map fst snd].
  - rewrite app_nil_r. reflexivity.
  - destruct (Sse.dispatchTurn m c entry) as [m1 c1] eqn:E.
    rewrite IH, <- app_assoc. cbn [app].
    rewrite (dispatchTurn_any_metrics Metric.zero m), E. reflexivity.
Qed.

Lemma broadcast_clients (turns : list TurnCacheEntry) :
  forall (m : Metrics) (targets : list ManagedClient),
    snd (fold_left Sse.dispatchAll turns (m, targets))
    = map (fun c => Terms.dispatched c turns) targets.
Proof.
  induction turns as [|entry rest IH]; intros m targets; cbn [fold_left].
  - cbn [snd Terms.dispatched fold_left]. symmetry. apply map_id.
  - destruct (Sse.dispatchAll (m, targets) entry) as [m1 targets1] eqn:E.
    rewrite IH.
    assert (targets1 = map (fun c => snd (Sse.dispatchTurn Metric.zero c entry)) targets)
      as ->.
    { change targets1 with (snd (m1, targets1)). rewrite <- E.
      unfold Sse.dispatchAll. cbn [fst snd]. rewrite dispatchAll_clients.
      reflexivity. }
    rewrite map_map. reflexivity.
Qed.

(** The clients of every session after a broadcast. *)
Lemma broadcastTurns_clientsOf (m : Metrics) (hub : Sse.Hub) (sessionId : string)
      (turns : list TurnCacheEntry) (j : string) :
  Sse.clientsOf (snd (Sse.broadcastTurns m hub sessionId turns)) j
  = if String.eqb j sessionId
    then map (fun c => Terms.dispatched c turns) (Sse.clientsOf hub sessionId)
    else Sse.clientsOf hub j.
Proof.
  unfold Sse.broadcastTurns.
  destruct (String.eqb_spec j sessionId) as [->|Hne].
  - destruct turns as [|entry rest].
    + cbn [length Nat.eqb snd Terms.dispatched fold_left]. symmetry. apply map_id.
    + change (length (entry :: rest) =? 0)%nat with false. cbv iota.
      unfold Sse.clientsOf at 2.
      destruct (Sse.clients hub !! sessionId) as [[|c targets]|] eqn:E;
        cbn [snd]; unfold Sse.clientsOf; rewrite ?E; try reflexivity.
      destruct (fold_left Sse.dispatchAll (entry :: rest) (m, c :: targets))
        as [m1 targets1] eqn:Ef.
      cbn [snd Sse.clients]. rewrite lookup_insert_eq.
      change targets1 with (snd (m1, targets1)). rewrite <- Ef.
      apply broadcast_clients.
  - destruct (length turns =? 0)%nat; [reflexivity|].
    destruct (Sse.clients hub !! sessionId) as [[|c targets]|] eqn:E;
      cbn [snd]; try reflexivity.
    destruct (fold_left Sse.dispatchAll turns (m, c :: targets)) as [m1 targets1].
    cbn [snd]. unfold Sse.clientsOf. cbn [Sse.clients].
    rewrite lookup_insert_ne by congruence. reflexivity.
Qed.

Lemma getSession_some (now : Z) (s s' : SessionStore.t) (sessionId : string)
      (session : SessionRecord) :
  SessionStore.getSession now sessionId s = (s', Some session) ->
  Terms.valid now s sessionId.
Proof.
  unfold SessionStore.getSession, SessionStore.isExpired.
  destruct (SessionStore.sessions s !! sessionId) as [found|] eqn:E; [|discriminate].
  destruct (Z.leb_spec (sess_expiresAt found) now); [discriminate|].
  intros _. exists found. split; [exact E | assumption].
Qed.

Lemma getSession_none (now : Z) (s : SessionStore.t) (sessionId : string) :
  ~ Terms.valid now s sessionId ->
  SessionStore.getSession now sessionId s = (s, None) \/
  SessionStore.getSession now sessionId s = (SessionStore.purge sessionId s, None).
Proof.
  intros Hnot. unfold SessionStore.getSession, SessionStore.isExpired.
  destruct (SessionStore.sessions s !! sessionId) as [found|] eqn:E; [|left; reflexivity].
  destruct (Z.leb_spec (sess_expiresAt found) now); [right; reflexivity|].
  exfalso. apply Hnot. exists found. split; [exact E | assumption].
Qed.

Lemma nonEmpty_some (s : string) :
  s <> EmptyString -> App.nonEmpty (Some s) = Some s.
Proof.
  intros Hne. cbn [App.nonEmpty].
  destruct (String.eqb_spec s EmptyString); [contradiction | reflexivity].
Qed.

End ClientFacts.

(** X14. A subscriber that connects to [GET /v1/sse/turn] for a valid
    session is registered after the session's earlier subscribers, is sent
    the retry hint and the [sse_backoff] event, and then every turn that
    was waiting in the session's queue is dispatched to the session's
    subscribers, oldest first: the new subscriber has received, after the
    two opening frames, the immediate frames of each queued turn in the
    order the turns were accepted, and holds their timers in that order.
    The queue is empty afterwards; sessions, the idempotency cache and the
    subscribers of other sessions are as before. *)
Theorem X14_late_subscriber_receives_queued_turns
        (config : EmulatorConfig) (now : Z) (sessionId : string) (w : World) :
  sessionId <> EmptyString ->
  Terms.valid now (store w) sessionId ->
  let after := App.getSseTurn config now (Some sessionId) w in
  let queue := Terms.queueOf (store w) sessionId in
  let fresh := Terms.freshClient config (hub w) sessionId in
  snd after = App.SseOpened /\
  Sse.clientsOf (hub (fst after)) sessionId
  = map (fun c => Terms.dispatched c queue)
        (Sse.clientsOf (hub w) sessionId ++ [fresh]) /\
  res (Terms.dispatched fresh queue)
  = res fresh ++ flat_map Terms.immediateFrames queue /\
  map delay (timers (Terms.dispatched fresh queue))
  = flat_map Terms.timerDelays queue /\
  (forall j, j <> sessionId ->
             Sse.clientsOf (hub (fst after)) j = Sse.clientsOf (hub w) j) /\
  Terms.queueOf (store (fst after)) sessionId = [] /\
  SessionStore.sessions (store (fst after)) = SessionStore.sessions (store w) /\
  SessionStore.idempotency (store (fst after)) = SessionStore.idempotency (store w) /\
  shareTimers (fst after) = shareTimers w.
Proof.
  intros Hne Hvalid after queue fresh.
  destruct (PutTurnFacts.getSession_valid now (store w) sessionId Hvalid)
    as (session & _ & Hget).
  assert (forall j,
             Sse.clientsOf (snd (Sse.addClient config (metrics w) (hub w) sessionId)) j
             = if String.eqb j sessionId
               then Sse.clientsOf (hub w) sessionId ++ [fresh]
               else Sse.clientsOf (hub w) j) as Hadd.
  { intros j. unfold Sse.addClient. cbn [snd]. unfold Sse.clientsOf at 1.
    cbn [Sse.clients]. destruct (String.eqb_spec j sessionId) as [->|Hj].
    - rewrite lookup_insert_eq. reflexivity.
    - rewrite lookup_insert_ne by congruence. reflexivity. }
  subst after. unfold App.getSseTurn.
  rewrite (ClientFacts.nonEmpty_some sessionId Hne), Hget.
  destruct (Sse.addClient config (metrics w) (hub w) sessionId) as [m1 hub1] eqn:Ea.
  cbn [snd] in Hadd.
  unfold SessionStore.takePendingTurns. fold (Terms.queueOf (store w) sessionId).
  fold queue.
  pose proof (ClientFacts.broadcastTurns_clientsOf m1 hub1 sessionId queue) as Hb.
  destruct (Sse.broadcastTurns m1 hub1 sessionId queue) as [m2 hub2].
  cbn [fst snd store hub metrics shareTimers] in *.
  destruct (ClientFacts.dispatched_open queue fresh eq_refl) as (Hres & Htimers & _).
  split; [reflexivity|]. split.
  { rewrite Hb, String.eqb_refl, Hadd, String.eqb_refl. reflexivity. }
  split; [exact Hres|]. split; [exact Htimers|]. split.
  { intros j Hj. rewrite Hb. apply String.eqb_neq in Hj. rewrite Hj, Hadd, Hj.
    reflexivity. }
  split.
  { unfold Terms.queueOf. cbn [SessionStore.pendingTurns].
    rewrite lookup_insert_eq. reflexivity. }
  repeat split; reflexivity.
Qed.

(** The turn accepted at time 5 reaches the subscriber that connects at
    time 6. *)
Lemma X14_late_subscriber_receives_queued_turns_witness :
  snd (App.getSseTurn Config.defaults 6 (Some "sess_A") Examples.queued) = App.SseOpened /\
  map (fun c => Delivery.events (res c)) (Sse.clientsOf (hub Examples.subscribed) "sess_A")
  = [[EvStopIdle]] /\
  Terms.queueOf (store Examples.subscribed) "sess_A" = [].
Proof.
  destruct (X14_late_subscriber_receives_queued_turns Config.defaults 6 "sess_A"
              Examples.queued)
    as (H1 & H2 & _ & _ & _ & H3 & _).
  - discriminate.
  - eexists. split; vm_compute; reflexivity.
  - split; [exact H1|]. split; [|exact H3].
    unfold Examples.subscribed. rewrite H2. vm_compute. reflexivity.
Defined.

(** X15. [GET /v1/sse/turn] opens a stream exactly when the query names a
    valid session. A missing or empty [session_id] is answered 400 and
    changes nothing; an unknown or expired session is answered 404; in both
    cases no subscriber is registered and no counter moves, and the only
    change to the store is the purge of the session when it had expired. *)
Theorem X15_sse_endpoint_errors
        (config : EmulatorConfig) (now : Z) (query : option string) (w : World) :
  let after := App.getSseTurn config now query w in
  (snd after = App.SseOpened <->
   exists sessionId, query = Some sessionId /\ sessionId <> EmptyString /\
                     Terms.valid now (store w) sessionId) /\
  (snd after = App.SseError 400 "EMU_BAD_REQUEST" <->
   query = None \/ query = Some EmptyString) /\
  (query = None \/ query = Some EmptyString -> fst after = w) /\
  (snd after <> App.SseOpened ->
   snd after = App.SseError 400 "EMU_BAD_REQUEST" \/
   snd after = App.SseError 404 "EMU_SESSION_UNKNOWN") /\
  (snd after <> App.SseOpened ->
   hub (fst after) = hub w /\ metrics (fst after) = metrics w /\
   shareTimers (fst after) = shareTimers w /\
   (store (fst after) = store w \/
    exists sessionId, query = Some sessionId /\
                      store (fst after) = SessionStore.purge sessionId (store w))).
Proof.
  intros after. subst after. unfold App.getSseTurn.
  destruct query as [sessionId|]; cbn [App.nonEmpty].
  2:{ cbn [fst snd]. split; [split; [discriminate | intros (? & H & _); discriminate H]|].
      split; [split; auto|]. split; [reflexivity|]. split; [auto|]. intros _. auto. }
  destruct (String.eqb_spec sessionId EmptyString) as [->|Hne].
  { cbn [fst snd]. split.
    { split; [discriminate|]. intros (? & H & Hn & _). congruence. }
    split; [split; auto|]. split; [reflexivity|]. split; [auto|]. intros _. auto. }
  destruct (SessionStore.getSession now sessionId (store w)) as [st1 [session|]] eqn:Hget.
  - pose proof (ClientFacts.getSession_some _ _ _ _ _ Hget) as Hvalid.
    destruct (Sse.addClient config (metrics w) (hub w) sessionId) as [m1 hub1].
    destruct (SessionStore.takePendingTurns sessionId st1) as [st2 pending].
    destruct (Sse.broadcastTurns m1 hub1 sessionId pending) as [m2 hub2].
    cbn [fst snd]. split.
    { split; [|reflexivity]. intros _. exists sessionId. auto. }
    split.
    { split; [discriminate|]. intros [H|H]; congruence. }
    split; [intros [H|H]; congruence|].
    split; intros H; exfalso; apply H; reflexivity.
  - assert (~ Terms.valid now (store w) sessionId) as Hnot.
    { intros Hv. destruct (PutTurnFacts.getSession_valid now (store w) sessionId Hv)
        as (session & _ & Hg). congruence. }
    cbn [fst snd hub metrics shareTimers store]. split.
    { split; [discriminate|]. intros (sid & Hq & _ & Hv). congruence. }
    split.
    { split; [discriminate|]. intros [H|H]; congruence. }
    split; [intros [H|H]; congruence|].
    split; [auto|]. intros _. split; [reflexivity|]. split; [reflexivity|].
    split; [reflexivity|].
    destruct (ClientFacts.getSession_none now (store w) sessionId Hnot) as [Hg|Hg];
      rewrite Hg in Hget; injection Hget as <-; [left; reflexivity|].
    right. exists sessionId. auto.
Qed.

(** ** sse.ts: the count of clients *)

Module GaugeFacts.

Lemma count_hub (hub : Sse.Hub) (k : string) :
  Sse.countClients hub
  = (Sse.countClients {| Sse.clients := delete k (Sse.clients hub);
                         Sse.nextHandle := Sse.nextHandle hub |}
     + length (Sse.clientsOf hub k))%nat.
Proof.
  unfold Sse.countClients, Sse.clientsOf. cbn [Sse.clients].
  destruct (Sse.clients hub !! k) as [set|] eqn:E.
  - rewrite (map_fold_delete_L _ _ k set (Sse.clients hub)); [reflexivity| |exact E].
    intros. lia.
  - rewrite delete_id by exact E. cbn [length]. lia.
Qed.

Lemma count_insert (m : gmap string (list ManagedClient)) (n n' : nat) (k : string)
      (set : list ManagedClient) :
  Sse.countClients {| Sse.clients := <[k := set]> m; Sse.nextHandle := n |}
  = (Sse.countClients {| Sse.clients := delete k m; Sse.nextHandle := n' |}
     + length set)%nat.
Proof.
  unfold Sse.countClients. cbn [Sse.clients]. rewrite <- insert_delete_eq.
  rewrite map_fold_insert_L; [reflexivity| |apply lookup_delete_eq].
  intros. lia.
Qed.

Lemma count_only_clients (m : gmap string (list ManagedClient)) (n n' : nat) :
  Sse.countClients {| Sse.clients := m; Sse.nextHandle := n |}
  = Sse.countClients {| Sse.clients := m; Sse.nextHandle := n' |}.
Proof. reflexivity. Qed.

Lemma without_length (h : nat) (set : list ManagedClient) :
  (length (Sse.without h set)
   + length (List.filter (fun c => Nat.eqb (handle c) h) set))%nat
  = length set.
Proof.
  induction set as [|c set IH]; [reflexivity|].
  unfold Sse.without in *. cbn [List.filter].
  destruct (Nat.eqb (handle c) h); cbn [negb length]; lia.
Qed.

Lemma without_none (h : nat) (set : list ManagedClient) :
  List.filter (fun c => Nat.eqb (handle c) h) (Sse.without h set) = [].
Proof.
  induction set as [|c set IH]; [reflexivity|].
  unfold Sse.without in *. cbn [List.filter].
  destruct (Nat.eqb (handle c) h) eqn:E; cbn [negb]; [exact IH|].
  cbn [List.filter]. rewrite E. exact IH.
Qed.

Lemma insertTimer_all (P : Timer -> Prop) (t : Timer) (sorted : list Timer) :
  P t -> Forall P sorted -> Forall P (EventLoop.insertTimer t sorted).
Proof.
  intros Ht. induction 1 as [|u rest Hu Hrest IH]; cbn [EventLoop.insertTimer].
  - repeat constructor. exact Ht.
  - destruct (_ <? _); repeat constructor; assumption.
Qed.

Lemma runOrder_all (P : Timer -> Prop) (ts : list Timer) :
  Forall P ts -> Forall P (EventLoop.runOrder ts).
Proof.
  unfold EventLoop.runOrder.
  assert (Forall P (@nil Timer)) as Hnil by constructor. revert Hnil.
  generalize (@nil Timer) as sorted.
  induction ts as [|t ts IH]; intros sorted Hs Hts; cbn [fold_left]; [exact Hs|].
  apply Forall_cons in Hts as [Ht Hts].
  apply IH; [apply insertTimer_all; assumption | exact Hts].
Qed.

(** Timer callbacks that run after the client was closed write nothing. *)
Lemma fire_closed (ts : list Timer) :
  forall state : Metrics * ManagedClient,
    closed (snd state) = true ->
    Forall (fun t => forall retryMs, writes t <> FRetry retryMs) ts ->
    snd (fold_left Sse.fire ts state) = snd state.
Proof.
  induction ts as [|t ts IH]; intros state Hc Hts; [reflexivity|].
  apply Forall_cons in Hts as [Ht Hts]. cbn [fold_left].
  assert (snd (Sse.fire state t) = snd state) as Hs
      by (apply ClientFacts.write_closed; assumption).
  rewrite IH; [exact Hs | rewrite Hs; exact Hc | exact Hts].
Qed.

Lemma dispatchTurn_closed (m : Metrics) (client : ManagedClient) (entry : TurnCacheEntry) :
  closed client = true ->
  Forall (fun t => forall retryMs, writes t <> FRetry retryMs) (timers client) ->
  res (snd (Sse.runTimers (Sse.dispatchTurn m client entry))) = res client.
Proof.
  intros Hc Hts. unfold Sse.runTimers.
  assert (res (snd (Sse.dispatchTurn m client entry)) = res client /\
          closed (snd (Sse.dispatchTurn m client entry)) = true /\
          Forall (fun t => forall retryMs, writes t <> FRetry retryMs)
                 (timers (snd (Sse.dispatchTurn m client entry)))) as (Hr & Hc' & Hts').
  { unfold Sse.dispatchTurn, Sse.writeEvent, Sse.writeMessage. rewrite Hc.
    destruct (swap_points (entry_timeline entry)) as [[|sp sps]|];
      destruct (Sse.missFlag entry miss_tts), (Sse.missFlag entry miss_clip);
      cbn [snd Sse.pushTimer res closed timers]; rewrite ?Hc;
      cbn [snd Sse.pushTimer res closed timers];
      (split; [reflexivity|]); (split; [first [exact Hc | reflexivity]|]);
      repeat (apply Forall_app; split; [|repeat constructor; cbn [writes]; discriminate]);
      exact Hts. }
  rewrite fire_closed; [exact Hr | exact Hc' | apply runOrder_all, Hts'].
Qed.

End GaugeFacts.

(** X16. [addClient] appends the new client to the session's clients and
    leaves the other sessions' clients alone; the session has clients
    afterwards, the number of clients of the hub went up by one and the
    gauge shows that number; the counters are not touched. *)
Theorem X16_addClient_counts_one_more
        (config : EmulatorConfig) (m : Metrics) (hub : Sse.Hub) (sessionId : string) :
  let after := Sse.addClient config m hub sessionId in
  Sse.clientsOf (snd after) sessionId
  = Sse.clientsOf hub sessionId ++ [Terms.freshClient config hub sessionId] /\
  (forall j, j <> sessionId -> Sse.clientsOf (snd after) j = Sse.clientsOf hub j) /\
  Sse.hasClients (snd after) sessionId = true /\
  Sse.countClients (snd after) = S (Sse.countClients hub) /\
  sseGauge (fst after) = S (Sse.countClients hub) /\
  turnCounter (fst after) = turnCounter m /\
  missCounter (fst after) = missCounter m /\
  shareCounter (fst after) = shareCounter m /\
  latencyHistogram (fst after) = latencyHistogram m.
Proof.
  intros after. subst after. unfold Sse.addClient. cbn [fst snd].
  assert (forall set, Sse.clientsOf
                        {| Sse.clients := <[sessionId := set]> (Sse.clients hub);
                           Sse.nextHandle := S (Sse.nextHandle hub) |} sessionId = set)
    as Hat by (intros set; unfold Sse.clientsOf; cbn [Sse.clients];
               rewrite lookup_insert_eq; reflexivity).
  assert (Sse.countClients
            {| Sse.clients :=
                 <[sessionId := Sse.clientsOf hub sessionId
                                ++ [Terms.freshClient config hub sessionId]]>
                   (Sse.clients hub);
               Sse.nextHandle := S (Sse.nextHandle hub) |}
          = S (Sse.countClients hub)) as Hcount.
  { rewrite (GaugeFacts.count_insert _ _ (Sse.nextHandle hub)).
    rewrite (GaugeFacts.count_hub hub sessionId), length_app. cbn [length]. lia. }
  split; [apply Hat|]. split.
  { intros j Hj. unfold Sse.clientsOf. cbn [Sse.clients].
    rewrite lookup_insert_ne by congruence. reflexivity. }
  split.
  { unfold Sse.hasClients. rewrite Hat, length_app. cbn [length].
    apply Nat.ltb_lt. lia. }
  split; [exact Hcount|]. split; [exact Hcount|]. repeat split; reflexivity.
Qed.

(** X17. [removeClient] on an open client closes it and cancels its
    heartbeat and timers: a heartbeat tick, a later dispatch and the timers
    that dispatch sets write nothing more to it. The client is taken out of
    its session's set, a set left empty is dropped from the hub, other
    sessions are untouched, the gauge shows the clients left, and a second
    call for the same client changes nothing. *)
Theorem X17_removeClient_closes_and_forgets
        (m : Metrics) (hub : Sse.Hub) (sessionId : string) (client : ManagedClient) :
  closed client = false ->
  let after := Sse.removeClient m hub sessionId client in
  let m1 := fst (fst after) in
  let hub1 := snd (fst after) in
  let client1 := snd after in
  closed client1 = true /\ timers client1 = [] /\ heartbeat client1 = None /\
  res client1 = res client /\
  (forall t, Sse.beat client1 t = client1) /\
  (forall m' entry,
      res (snd (Sse.runTimers (Sse.dispatchTurn m' client1 entry))) = res client) /\
  Sse.clientsOf hub1 sessionId = Sse.without (handle client) (Sse.clientsOf hub sessionId) /\
  Terms.occurrences client (Sse.clientsOf hub1 sessionId) = O /\
  (forall j, j <> sessionId -> Sse.clientsOf hub1 j = Sse.clientsOf hub j) /\
  Sse.clients hub1 !! sessionId <> Some [] /\
  (Sse.countClients hub1 + Terms.occurrences client (Sse.clientsOf hub sessionId))%nat
  = Sse.countClients hub /\
  sseGauge m1 = Sse.countClients hub1 /\
  Sse.removeClient m1 hub1 sessionId client1 = after.
Proof.
  intros Hopen after m1 hub1 client1.
  subst m1 hub1 client1 after. unfold Sse.removeClient. rewrite Hopen.
  cbn [fst snd Sse.clearTimers Sse.close closed timers heartbeat res handle].
  split; [reflexivity|]. split; [reflexivity|]. split; [reflexivity|].
  split; [reflexivity|]. split; [reflexivity|]. split.
  { intros m' entry. rewrite GaugeFacts.dispatchTurn_closed; [reflexivity..|].
    cbn [timers]. constructor. }
  set (hub1 := match Sse.clients hub !! sessionId with
               | Some set => _
               | None => hub
               end).
  assert (Sse.clientsOf hub1 sessionId
          = Sse.without (handle client) (Sse.clientsOf hub sessionId)) as Hset.
  { subst hub1. unfold Sse.clientsOf.
    destruct (Sse.clients hub !! sessionId) as [set|] eqn:E; cbn [Sse.clients].
    - destruct (length (Sse.without (handle client) set) =? 0)%nat eqn:El.
      + rewrite lookup_delete_eq. apply Nat.eqb_eq in El.
        destruct (Sse.without (handle client) set); [reflexivity | discriminate El].
      + rewrite lookup_insert_eq. reflexivity.
    - rewrite E. reflexivity. }
  assert (forall j, j <> sessionId -> Sse.clientsOf hub1 j = Sse.clientsOf hub j) as Hother.
  { intros j Hj. subst hub1. unfold Sse.clientsOf.
    destruct (Sse.clients hub !! sessionId) as [set|] eqn:E; cbn [Sse.clients];
      [|reflexivity].
    destruct (length (Sse.without (handle client) set) =? 0)%nat;
      [rewrite lookup_delete_ne by congruence | rewrite lookup_insert_ne by congruence];
      reflexivity. }
  assert (delete sessionId (Sse.clients hub1) = delete sessionId (Sse.clients hub))
    as Hrest.
  { subst hub1. destruct (Sse.clients hub !! sessionId) as [set|]; cbn [Sse.clients];
      [|reflexivity].
    destruct (length (Sse.without (handle client) set) =? 0)%nat;
      [apply delete_delete_eq | apply delete_insert_eq]. }
  split; [exact Hset|]. split.
  { unfold Terms.occurrences. rewrite Hset, GaugeFacts.without_none. reflexivity. }
  split; [exact Hother|]. split.
  { subst hub1. destruct (Sse.clients hub !! sessionId) as [set|] eqn:E;
      cbn [Sse.clients]; [|rewrite E; discriminate].
    destruct (length (Sse.without (handle client) set) =? 0)%nat eqn:El.
    - rewrite lookup_delete_eq. discriminate.
    - rewrite lookup_insert_eq. intros H. injection H as H. rewrite H in El.
      discriminate El. }
  split.
  { rewrite (GaugeFacts.count_hub hub1 sessionId), (GaugeFacts.count_hub hub sessionId).
    rewrite Hset, Hrest. unfold Terms.occurrences.
    rewrite <- (GaugeFacts.without_length (handle client) (Sse.clientsOf hub sessionId)).
    rewrite (GaugeFacts.count_only_clients _ (Sse.nextHandle hub1) (Sse.nextHandle hub)).
    lia. }
  split; reflexivity.
Qed.

(** The subscriber of the sample world disconnects. *)
Lemma X17_removeClient_closes_and_forgets_witness :
  closed (hd Examples.subscriber (Sse.clientsOf (hub Examples.subscribed) "sess_A"))
  = false /\
  Sse.hasClients
    (snd (fst (Sse.removeClient (metrics Examples.subscribed) (hub Examples.subscribed)
                 "sess_A"
                 (hd Examples.subscriber
                     (Sse.clientsOf (hub Examples.subscribed) "sess_A")))))
    "sess_A" = false /\
  closed
    (snd (Sse.removeClient (metrics Examples.subscribed) (hub Examples.subscribed)
            "sess_A"
            (hd Examples.subscriber (Sse.clientsOf (hub Examples.subscribed) "sess_A"))))
  = true.
Proof.
  assert (closed (hd Examples.subscriber
                     (Sse.clientsOf (hub Examples.subscribed) "sess_A")) = false)
    as Hopen by (vm_compute; reflexivity).
  destruct (X17_removeClient_closes_and_forgets (metrics Examples.subscribed)
              (hub Examples.subscribed) "sess_A"
              (hd Examples.subscriber (Sse.clientsOf (hub Examples.subscribed) "sess_A"))
              Hopen)
    as (Hclosed & _ & _ & _ & _ & _ & Hset & _).
  split; [exact Hopen|]. split; [|exact Hclosed].
  unfold Sse.hasClients. rewrite Hset. vm_compute. reflexivity.
Defined.

(** ** sse.ts and app.ts: what a broadcast does to the counters *)

Module CountFacts.

Section Counting.

(** A reading [g] of the metrics that one dispatch raises by [k entry]. *)
Variable g : Metrics -> nat.
Variable k : TurnCacheEntry -> nat.
Hypothesis step :
  forall m client entry, g (fst (Sse.dispatchTurn m client entry)) = (g m + k entry)%nat.

Lemma targets_count (entry : TurnCacheEntry) (targets : list ManagedClient) :
  forall acc : Metrics * list ManagedClient,
    g (fst (fold_left
              (fun (acc : Metrics * list ManagedClient) client =>
                 let '(m1, c1) := Sse.dispatchTurn (fst acc) client entry in
                 (m1, snd acc ++ [c1]))
              targets acc))
    = (g (fst acc) + length targets * k entry)%nat.
Proof.
  induction targets as [|c rest IH]; intros acc; cbn [fold_left length]; [lia|].
  rewrite IH. pose proof (step (fst acc) c entry) as Hs.
  destruct (Sse.dispatchTurn (fst acc) c entry) as [m1 c1]. cbn [fst] in *. lia.
Qed.

Lemma targets_length (entry : TurnCacheEntry) (targets : list ManagedClient) :
  forall acc : Metrics * list ManagedClient,
    length (snd (fold_left
                   (fun (acc : Metrics * list ManagedClient) client =>
                      let '(m1, c1) := Sse.dispatchTurn (fst acc) client entry in
                      (m1, snd acc ++ [c1]))
                   targets acc))
    = (length (snd acc) + length targets)%nat.
Proof.
  induction targets as [|c rest IH]; intros acc; cbn [fold_left length]; [lia|].
  rewrite IH. destruct (Sse.dispatchTurn (fst acc) c entry) as [m1 c1].
  cbn [snd]. rewrite length_app. cbn [length]. lia.
Qed.

Lemma turns_count (turns : list TurnCacheEntry) :
  forall state : Metrics * list ManagedClient,
    g (fst (fold_left Sse.dispatchAll turns state))
    = (g (fst state) + length (snd state) * list_sum (map k turns))%nat.
Proof.
  induction turns as [|entry rest IH]; intros state; cbn [fold_left map].
  - change (list_sum []) with O. lia.
  - change (list_sum (k entry :: map k rest))
      with (k entry + list_sum (map k rest))%nat.
    rewrite IH. unfold Sse.dispatchAll.
    rewrite targets_count, targets_length. cbn [fst snd length].
    rewrite Nat.mul_add_distr_l. lia.
Qed.

Lemma broadcast_count (m : Metrics) (hub : Sse.Hub) (sessionId : string)
      (turns : list TurnCacheEntry) :
  g (fst (Sse.broadcastTurns m hub sessionId turns))
  = (g m + length (Sse.clientsOf hub sessionId) * list_sum (map k turns))%nat.
Proof.
  unfold Sse.broadcastTurns, Sse.clientsOf.
  destruct turns as [|entry rest];
    [cbn [length Nat.eqb fst map]; change (list_sum []) with O; lia|].
  change (length (entry :: rest) =? 0)%nat with false. cbv iota.
  destruct (Sse.clients hub !! sessionId) as [[|c targets]|];
    try (cbn [fst length]; lia).
  pose proof (turns_count (entry :: rest) (m, c :: targets)) as H.
  destruct (fold_left Sse.dispatchAll (entry :: rest) (m, c :: targets)).
  exact H.
Qed.

End Counting.

Lemma value_inc (label other : string) (counter : gmap string nat) :
  Metric.value label (Metric.inc other counter)
  = (Metric.value label counter + if String.eqb other label then 1 else 0)%nat.
Proof.
  unfold Metric.value, Metric.inc. destruct (String.eqb_spec other label) as [->|Hne].
  - rewrite lookup_insert_eq. lia.
  - rewrite lookup_insert_ne by exact Hne. lia.
Qed.

Lemma dispatch_miss (kind : string) (m : Metrics) (client : ManagedClient)
      (entry : TurnCacheEntry) :
  Metric.value kind (missCounter (fst (Sse.dispatchTurn m client entry)))
  = (Metric.value kind (missCounter m)
     + ((if Sse.missFlag entry miss_tts && String.eqb "tts" kind then 1 else 0)
        + (if Sse.missFlag entry miss_clip && String.eqb "clip" kind then 1 else 0)))%nat.
Proof.
  unfold Sse.dispatchTurn.
  destruct (Sse.missFlag entry miss_tts), (Sse.missFlag entry miss_clip);
    cbn [fst Metric.incMiss missCounter andb]; rewrite ?value_inc;
    destruct (String.eqb "tts" kind), (String.eqb "clip" kind); lia.
Qed.

Lemma dispatch_share (m : Metrics) (client : ManagedClient) (entry : TurnCacheEntry) :
  shareCounter (fst (Sse.dispatchTurn m client entry)) = shareCounter m.
Proof.
  unfold Sse.dispatchTurn.
  destruct (Sse.missFlag entry miss_tts), (Sse.missFlag entry miss_clip);
    reflexivity.
Qed.

Lemma count_flagged (p : TurnCacheEntry -> bool) (turns : list TurnCacheEntry) :
  list_sum (map (fun entry => ((if p entry then 1 else 0) + 0)%nat) turns)
  = length (List.filter p turns).
Proof.
  induction turns as [|entry rest IH]; [reflexivity|].
  cbn [map List.filter].
  change (list_sum (?a :: ?l)) with (a + list_sum l)%nat. rewrite IH.
  destruct (p entry); cbn [length]; lia.
Qed.

End CountFacts.

(** X19. The miss counters count dispatches, not turns: a broadcast raises
    the counter of tts misses by the number of turns flagged as a tts miss
    times the number of clients of the session, closed ones included, and
    likewise the counter of clip misses; with no client of the session
    nothing is counted. The turn and share counters and the gauge are not
    touched by a broadcast. *)
Theorem X19_miss_counters_count_dispatches
        (m : Metrics) (hub : Sse.Hub) (sessionId : string) (turns : list TurnCacheEntry) :
  let after := fst (Sse.broadcastTurns m hub sessionId turns) in
  let subscribers := length (Sse.clientsOf hub sessionId) in
  Metric.value "tts" (missCounter after)
  = (Metric.value "tts" (missCounter m)
     + subscribers
       * length (List.filter (fun entry => Sse.missFlag entry miss_tts) turns))%nat /\
  Metric.value "clip" (missCounter after)
  = (Metric.value "clip" (missCounter m)
     + subscribers
       * length (List.filter (fun entry => Sse.missFlag entry miss_clip) turns))%nat /\
  (Sse.hasClients hub sessionId = false -> after = m) /\
  turnCounter after = turnCounter m /\
  (forall status, Metric.value status (shareCounter after)
                  = Metric.value status (shareCounter m)) /\
  (forall j, length (Sse.clientsOf (snd (Sse.broadcastTurns m hub sessionId turns)) j)
             = length (Sse.clientsOf hub j)).
Proof.
  intros after subscribers. subst after subscribers.
  split; [|split; [|split; [|split; [|split]]]].
  - rewrite (CountFacts.broadcast_count
               (fun m => Metric.value "tts" (missCounter m))
               (fun entry => ((if Sse.missFlag entry miss_tts then 1 else 0) + 0)%nat)).
    + rewrite CountFacts.count_flagged. reflexivity.
    + intros m0 client entry. rewrite CountFacts.dispatch_miss.
      change (String.eqb "tts" "tts") with true.
      change (String.eqb "clip" "tts") with false.
      rewrite andb_true_r, andb_false_r. lia.
  - rewrite (CountFacts.broadcast_count
               (fun m => Metric.value "clip" (missCounter m))
               (fun entry => ((if Sse.missFlag entry miss_clip then 1 else 0) + 0)%nat)).
    + rewrite CountFacts.count_flagged. reflexivity.
    + intros m0 client entry. rewrite CountFacts.dispatch_miss.
      change (String.eqb "tts" "clip") with false.
      change (String.eqb "clip" "clip") with true.
      rewrite andb_true_r, andb_false_r. lia.
  - unfold Sse.hasClients, Sse.clientsOf, Sse.broadcastTurns. intros Hnone.
    destruct (length turns =? 0)%nat; [reflexivity|].
    destruct (Sse.clients hub !! sessionId) as [[|c targets]|]; try reflexivity.
    discriminate Hnone.
  - apply HubFacts.broadcastTurns_turnCounter.
  - intros status.
    rewrite (CountFacts.broadcast_count
               (fun m => Metric.value status (shareCounter m)) (fun _ => O)).
    + assert (list_sum (map (fun _ : TurnCacheEntry => O) turns) = O) as ->
          by (induction turns; [reflexivity | assumption]).
      lia.
    + intros m0 client entry. rewrite CountFacts.dispatch_share. lia.
  - intros j. rewrite ClientFacts.broadcastTurns_clientsOf.
    destruct (String.eqb_spec j sessionId) as [->|]; [|reflexivity].
    apply length_map.
Qed.

(** X20. Accepting a turn sets a share expiry timer exactly when the
    fixture's timeline has a share reference and sharing is enabled in the
    configuration and not disabled by the fixture. The timer and the
    reference sent to the client carry the configured lifetime
    ([shareTtlMinutes] times 60 seconds), not the fixture's own [ttl_s];
    the reference keeps the fixture's id and poster. The counter of issued
    shares goes up by one in that case and not otherwise, also when the
    turn is broadcast to subscribers at once. *)
Theorem X20_share_timer_follows_the_configuration
        (stringify : TurnRequestBody -> string) (config : EmulatorConfig) (now : Z)
        (draws : Draws) (sessionId key : string) (payload : TurnRequestBody)
        (fixture : LoadedFixture) (w : World) :
  let stored := Terms.acceptedEntry stringify config now draws key payload fixture in
  let after := fst (App.afterPutTurn config sessionId {| entry := stored; reused := false |} w) in
  let issued :=
    match share_ref (timeline fixture) with
    | Some _ => shareEnabled config && negb (Render.isFalse (share_enabled fixture))
    | None => false
    end in
  shareTimers after
  = shareTimers w ++ (if issued then [(shareTtlMinutes config * 60 * 1000)%Q] else []) /\
  Metric.value "issued" (shareCounter (metrics after))
  = (Metric.value "issued" (shareCounter (metrics w)) + if issued then 1 else 0)%nat /\
  (share_ref (entry_timeline stored) = None <-> issued = false) /\
  (forall ref,
      share_ref (entry_timeline stored) = Some ref ->
      ttl_s ref = (shareTtlMinutes config * 60)%Q /\
      expires_at ref = Some (Render.minutesFromNowISO now (shareTtlMinutes config)) /\
      exists original, share_ref (timeline fixture) = Some original /\
                       share_id ref = share_id original /\
                       poster ref = poster original).
Proof.
  intros stored after issued.
  assert (share_ref (entry_timeline stored)
          = if issued
            then match share_ref (timeline fixture) with
                 | Some original =>
                     Some {| share_id := share_id original;
                             ttl_s := (shareTtlMinutes config * 60)%Q;
                             poster := poster original;
                             expires_at :=
                               Some (Render.minutesFromNowISO now
                                       (shareTtlMinutes config)) |}
                 | None => None
                 end
            else None) as Hshare.
  { subst issued. unfold stored, Terms.acceptedEntry, Terms.freshEntry, App.entryDataFor.
    cbn [entry_timeline d_timeline]. unfold Render.applyFixtureToggles.
    cbn [share_ref]. unfold Render.cloneTimeline.
    destruct (share_ref (timeline fixture)) as [original|];
      destruct (shareEnabled config), (Render.isFalse (share_enabled fixture));
      reflexivity. }
  assert (issued = true -> share_ref (timeline fixture) <> None) as Hsome.
  { subst issued. destruct (share_ref (timeline fixture)); [discriminate|].
    intros H. discriminate H. }
  clearbody issued.
  assert (shareTimers after
          = shareTimers w ++ (if issued then [(shareTtlMinutes config * 60 * 1000)%Q] else [])
          /\ Metric.value "issued" (shareCounter (metrics after))
             = (Metric.value "issued" (shareCounter (metrics w))
                + if issued then 1 else 0)%nat) as [Htimers Hcount].
  { subst after. unfold App.afterPutTurn. cbn [reused entry negb].
    rewrite Hshare.
    set (m1 := Metric.incTurn (fixtureId stored) (metrics w)).
    destruct (Sse.hasClients (hub w) sessionId).
    - destruct (SessionStore.takePendingTurns sessionId
                  (SessionStore.enqueueTurn sessionId stored (store w)))
        as [st2 pending].
      destruct issued;
        [destruct (share_ref (timeline fixture)) as [original|] eqn:E|].
      + pose proof (CountFacts.broadcast_count
                      (fun m => Metric.value "issued" (shareCounter m)) (fun _ => O)
                      (fun m0 c e => eq_trans
                         (f_equal (Metric.value "issued") (CountFacts.dispatch_share m0 c e))
                         (plus_n_O _))
                      (Metric.incShare "issued" m1) (hub w) sessionId pending) as Hb.
        destruct (Sse.broadcastTurns (Metric.incShare "issued" m1) (hub w) sessionId pending)
          as [m3 hub1].
        cbn [fst snd shareTimers metrics ttl_s] in *. split; [reflexivity|].
        rewrite Hb. cbn [Metric.incShare shareCounter]. rewrite HubFacts.inc_value.
        subst m1. cbn [Metric.incTurn shareCounter].
        assert (list_sum (map (fun _ : TurnCacheEntry => O) pending) = O) as ->
            by (clear; induction pending; [reflexivity | assumption]).
        lia.
      + exfalso. apply Hsome; reflexivity.
      + pose proof (CountFacts.broadcast_count
                      (fun m => Metric.value "issued" (shareCounter m)) (fun _ => O)
                      (fun m0 c e => eq_trans
                         (f_equal (Metric.value "issued") (CountFacts.dispatch_share m0 c e))
                         (plus_n_O _))
                      m1 (hub w) sessionId pending) as Hb.
        destruct (Sse.broadcastTurns m1 (hub w) sessionId pending) as [m3 hub1].
        cbn [fst snd shareTimers metrics] in *. split; [rewrite app_nil_r; reflexivity|].
        rewrite Hb. subst m1. cbn [Metric.incTurn shareCounter].
        assert (list_sum (map (fun _ : TurnCacheEntry => O) pending) = O) as ->
            by (clear; induction pending; [reflexivity | assumption]).
        lia.
    - destruct issued; [destruct (share_ref (timeline fixture)) as [original|] eqn:E|].
      + cbn [fst snd shareTimers metrics ttl_s]. split; [reflexivity|].
        cbn [Metric.incShare shareCounter]. rewrite HubFacts.inc_value.
        subst m1. cbn [Metric.incTurn shareCounter]. lia.
      + exfalso. apply Hsome; reflexivity.
      + cbn [fst snd shareTimers metrics]. split; [rewrite app_nil_r; reflexivity|].
        subst m1. cbn [Metric.incTurn shareCounter]. lia.
  }
  split; [exact Htimers|]. split; [exact Hcount|]. split.
  - rewrite Hshare. destruct issued.
    + destruct (share_ref (timeline fixture)); [split; discriminate|].
      exfalso. apply Hsome; reflexivity.
    + split; reflexivity.
  - intros ref Href. rewrite Hshare in Href. destruct issued; [|discriminate Href].
    destruct (share_ref (timeline fixture)) as [original|]; [|discriminate Href].
    injection Href as <-. cbn [ttl_s expires_at share_id poster].
    split; [reflexivity|]. split; [reflexivity|]. exists original. auto.
Qed.

(** ** app.ts: the answers of the turn handler *)

Module AnswerFacts.

Section WithHandler.

Context (stringify : TurnRequestBody -> string).
Context (config : EmulatorConfig) (registry : Fixtures.FixtureRegistry).

(** The paths through the handler body. *)
Lemma turnFor_path (now : Z) (draws : Draws) (sessionId key : string)
      (payload : TurnRequestBody) (w : World) :
  let after := App.turnFor stringify config registry now draws sessionId key payload w in
  let selected :=
    Fixtures.selectFixture registry (body_persona_id payload)
      (App.discriminatorOf payload) in
  (~ Terms.valid now (store w) sessionId /\
   snd after = SendError 404 "EMU_SESSION_UNKNOWN" /\
   hub (fst after) = hub w /\ metrics (fst after) = metrics w /\
   shareTimers (fst after) = shareTimers w /\
   (store (fst after) = store w \/
    store (fst after) = SessionStore.purge sessionId (store w))) \/
  (Terms.valid now (store w) sessionId /\
   ((exists e, selected = Throw e /\
               after = (w, SendError 503 "EMU_FIXTURE_MISSING")) \/
    (selected = Return None /\
     after = (w, Rejected (error "Cannot read properties of undefined"))) \/
    (exists fixture cached,
        selected = Return (Some fixture) /\
        Terms.cachedAt (store w) sessionId key = Some cached /\
        bodyHash cached <> SessionStore.digestOf stringify (Some payload) /\
        after = (w, SendError 409 "EMU_IDEMPOTENCY_REPLAY")) \/
    (exists fixture body,
        selected = Return (Some fixture) /\
        (forall cached,
            Terms.cachedAt (store w) sessionId key = Some cached ->
            bodyHash cached = SessionStore.digestOf stringify (Some payload)) /\
        snd after = SendJson body))).
Proof.
  intros after selected. subst after selected.
  destruct (SessionStore.getSession now sessionId (store w)) as [st1 [session|]] eqn:Hget.
  - pose proof (ClientFacts.getSession_some _ _ _ _ _ Hget) as Hvalid.
    destruct (PutTurnFacts.getSession_valid now (store w) sessionId Hvalid)
      as (session' & _ & Hg).
    right. split; [exact Hvalid|].
    destruct (Fixtures.selectFixture registry (body_persona_id payload)
                (App.discriminatorOf payload)) as [[fixture|]|e] eqn:Hsel.
    + destruct (Terms.cachedAt (store w) sessionId key) as [cached|] eqn:Hc.
      * destruct (String.eqb_spec (bodyHash cached)
                    (SessionStore.digestOf stringify (Some payload))) as [Hd|Hd].
        -- right. right. right. exists fixture. eexists.
           split; [reflexivity|]. split; [intros c Hc'; congruence|].
           rewrite (TurnFacts.turnFor_replay stringify config registry now draws
                      sessionId key payload fixture w cached Hvalid Hc Hd Hsel).
           reflexivity.
        -- right. right. left. exists fixture, cached.
           split; [reflexivity|]. split; [reflexivity|]. split; [exact Hd|].
           unfold App.turnFor. rewrite Hg, Hsel.
           rewrite (PutTurnFacts.putTurn_conflict stringify config now sessionId key
                      (Some payload) _ (store w) cached Hvalid Hc Hd).
           cbn [code]. rewrite String.eqb_refl, TurnFacts.world_eta. reflexivity.
      * destruct (TurnFacts.turnFor_first stringify config registry now draws
                    sessionId key payload fixture w Hvalid Hc Hsel)
          as (s' & Hfirst & _).
        right. right. right. exists fixture. eexists.
        split; [reflexivity|]. split; [intros c Hc'; congruence|].
        rewrite Hfirst. reflexivity.
    + right. left. split; [reflexivity|].
      unfold App.turnFor. rewrite Hg, Hsel, TurnFacts.world_eta. reflexivity.
    + left. exists e. split; [reflexivity|].
      unfold App.turnFor. rewrite Hg, Hsel, TurnFacts.world_eta. reflexivity.
  - assert (~ Terms.valid now (store w) sessionId) as Hnot.
    { intros Hv. destruct (PutTurnFacts.getSession_valid now (store w) sessionId Hv)
        as (session & _ & Hg). congruence. }
    left. split; [exact Hnot|]. unfold App.turnFor. rewrite Hget.
    cbn [fst snd hub metrics shareTimers store].
    repeat (split; [reflexivity|]).
    destruct (ClientFacts.getSession_none now (store w) sessionId Hnot) as [Hg|Hg];
      rewrite Hg in Hget; injection Hget as <-; auto.
Qed.

End WithHandler.

End AnswerFacts.

(** X18. The answers of the turn handler, from the point where the session
    id is bound, with one reading of the clock for the request. It answers
    404 exactly when the session is unknown or expired; for a valid session
    it answers 503 exactly when the fixture selection throws, and 409
    exactly when a fixture was selected and the key already holds an entry
    whose digest differs from the body's. Every error answer leaves the
    subscribers, the counters and the share timers as they were, and the
    store too, apart from the purge of an expired session. *)
Theorem X18_turn_handler_answers
        (stringify : TurnRequestBody -> string) (config : EmulatorConfig)
        (registry : Fixtures.FixtureRegistry) (now : Z) (draws : Draws)
        (sessionId key : string) (payload : TurnRequestBody) (w : World) :
  let after := App.turnFor stringify config registry now draws sessionId key payload w in
  let selected :=
    Fixtures.selectFixture registry (body_persona_id payload)
      (App.discriminatorOf payload) in
  (snd after = SendError 404 "EMU_SESSION_UNKNOWN" <->
   ~ Terms.valid now (store w) sessionId) /\
  (Terms.valid now (store w) sessionId ->
   (snd after = SendError 503 "EMU_FIXTURE_MISSING" <-> exists e, selected = Throw e) /\
   (snd after = SendError 409 "EMU_IDEMPOTENCY_REPLAY" <->
    (exists fixture, selected = Return (Some fixture)) /\
    exists cached,
      Terms.cachedAt (store w) sessionId key = Some cached /\
      bodyHash cached <> SessionStore.digestOf stringify (Some payload))) /\
  (forall status code,
      snd after = SendError status code ->
      hub (fst after) = hub w /\ metrics (fst after) = metrics w /\
      shareTimers (fst after) = shareTimers w /\
      (store (fst after) = store w \/
       ~ Terms.valid now (store w) sessionId /\
       store (fst after) = SessionStore.purge sessionId (store w))).
Proof.
  intros after selected.
  pose proof (AnswerFacts.turnFor_path stringify config registry now draws sessionId key
                payload w) as Hpath.
  cbv zeta in Hpath. fold after in Hpath. fold selected in Hpath.
  destruct Hpath as [(Hnot & Hans & Hhub & Hm & Hshare & Hstore)
                    | (Hv & [(e & Hsel & Hafter)
                            | [(Hsel & Hafter)
                              | [(fixture & cached & Hsel & Hc & Hd & Hafter)
                                | (fixture & body & Hsel & Hc & Hans)]]])];
    try (rewrite Hafter; cbn [fst snd]); try rewrite Hans; rewrite ?Hsel.
  - split; [split; auto|]. split; [intros Hv; contradiction|].
    intros status code _. repeat split; try assumption.
    destruct Hstore; auto.
  - split; [split; [discriminate | intros H; contradiction]|]. split.
    { intros _. split.
      - split; [intros _; exists e; reflexivity | reflexivity].
      - split; [discriminate|]. intros [(f & Hf) _]. discriminate Hf. }
    intros status code _. auto.
  - split; [split; [discriminate | intros H; contradiction]|]. split.
    { intros _. split.
      - split; [discriminate | intros (e & He); discriminate He].
      - split; [discriminate|]. intros [(f & Hf) _]. discriminate Hf. }
    intros status code H. discriminate H.
  - split; [split; [discriminate | intros H; contradiction]|]. split.
    { intros _. split.
      - split; [discriminate | intros (e & He); discriminate He].
      - split; [|reflexivity]. intros _. split; [exists fixture; reflexivity|].
        exists cached. auto. }
    intros status code _. auto.
  - split; [split; [discriminate | intros H; contradiction]|]. split.
    { intros _. split.
      - split; [discriminate | intros (e & He); discriminate He].
      - split; [discriminate|]. intros [_ (cached & Hcached & Hd)].
        exfalso. apply Hd, Hc, Hcached. }
    intros status code H. discriminate H.
Qed.

(** ** app.ts: where the session id of a request is read from *)

Module ExtractFacts.

Lemma append_char (cur : string) (c : ascii) (t : string) :
  String.append (String.append cur (String c EmptyString)) t
  = String.append cur (String c t).
Proof.
  induction cur as [|d cur IH]; [reflexivity|].
  change (String d (String.append (String.append cur (String c EmptyString)) t)
          = String d (String.append cur (String c t))).
  rewrite IH. reflexivity.
Qed.

Lemma append_empty (s : string) : String.append s EmptyString = s.
Proof.
  induction s as [|c s IH]; [reflexivity|].
  change (String c (String.append s EmptyString) = String c s). rewrite IH.
  reflexivity.
Qed.

(** A text without a space is one piece. *)
Lemma split_plain (s : string) :
  forall cur, Terms.occurs " " s = false ->
              App.splitSpaces s cur = [String.append cur s].
Proof.
  induction s as [|c t IH]; intros cur Hs; cbn [App.splitSpaces].
  - rewrite append_empty. reflexivity.
  - cbn [Terms.occurs] in Hs. apply orb_false_iff in Hs as [Hc Ht].
    rewrite Hc, IH by exact Ht. rewrite append_char. reflexivity.
Qed.

(** The pieces before and after the first space. *)
Lemma split_first (a rest : string) :
  forall cur, Terms.occurs " " a = false ->
              App.splitSpaces (String.append a (String " " rest)) cur
              = String.append cur a :: App.splitSpaces rest EmptyString.
Proof.
  induction a as [|c t IH]; intros cur Ha.
  - change (String.append EmptyString (String " " rest)) with (String " " rest).
    cbn [App.splitSpaces]. change (Ascii.eqb " " " ") with true. cbv iota.
    rewrite append_empty. reflexivity.
  - change (String.append (String c t) (String " " rest))
      with (String c (String.append t (String " " rest))).
    cbn [App.splitSpaces]. cbn [Terms.occurs] in Ha.
    apply orb_false_iff in Ha as [Hc Ht]. rewrite Hc, IH by exact Ht.
    rewrite append_char. reflexivity.
Qed.

Lemma split_pieces (s : string) :
  forall cur, (1 <= length (App.splitSpaces s cur))%nat.
Proof.
  induction s as [|c t IH]; intros cur; cbn [App.splitSpaces]; [cbn [length]; lia|].
  destruct (Ascii.eqb c " "); [cbn [length]; lia | apply IH].
Qed.

(** A space adds a piece. *)
Lemma split_more (a rest : string) :
  forall cur,
    (1 + length (App.splitSpaces rest EmptyString)
     <= length (App.splitSpaces (String.append a (String " " rest)) cur))%nat.
Proof.
  induction a as [|c t IH]; intros cur.
  - change (String.append EmptyString (String " " rest)) with (String " " rest).
    cbn [App.splitSpaces]. change (Ascii.eqb " " " ") with true. cbv iota.
    cbn [length]. lia.
  - change (String.append (String c t) (String " " rest))
      with (String c (String.append t (String " " rest))).
    cbn [App.splitSpaces]. destruct (Ascii.eqb c " "); [|apply IH].
    cbn [length]. specialize (IH EmptyString). lia.
Qed.

End ExtractFacts.

(** X21. [extractSessionId] reads the session id from the first source
    that has one: the [session_id] query parameter (taken even when it is
    the empty string), then a non-empty [session_id] of the body, then a
    non-empty [X-Session-Id] header, then the [Authorization] header;
    without any of them it returns nothing. Of an [Authorization] value
    made of two parts separated by one space (as in [Bearer <token>]) it
    returns the second part; a value without a space or with two or more
    spaces is returned whole. *)
Theorem X21_extractSessionId_precedence (req : Request) (body : TurnRequestBody) :
  let found := App.extractSessionId req body in
  (forall q, query_session_id req = Some q -> found = Some q) /\
  (query_session_id req = None ->
   (forall b, App.nonEmpty (body_session_id body) = Some b -> found = Some b) /\
   (App.nonEmpty (body_session_id body) = None ->
    (forall h, App.nonEmpty (header_x_session_id req) = Some h -> found = Some h) /\
    (App.nonEmpty (header_x_session_id req) = None ->
     (App.nonEmpty (header_authorization req) = None -> found = None) /\
     (forall auth,
         App.nonEmpty (header_authorization req) = Some auth ->
         (Terms.occurs " " auth = false -> found = Some auth) /\
         (forall scheme token,
             auth = String.append scheme (String " " token) ->
             Terms.occurs " " scheme = false -> Terms.occurs " " token = false ->
             found = Some token) /\
         (forall a b c,
             auth = String.append a (String " " (String.append b (String " " c))) ->
             found = Some auth))))).
Proof.
  intros found. subst found. unfold App.extractSessionId.
  split; [intros q ->; reflexivity|]. intros ->.
  split; [intros b ->; reflexivity|]. intros ->.
  split; [intros h ->; reflexivity|]. intros ->.
  split; [intros ->; reflexivity|]. intros auth ->.
  split; [|split].
  - intros Hplain. rewrite ExtractFacts.split_plain by exact Hplain. reflexivity.
  - intros scheme token -> Hs Ht.
    rewrite ExtractFacts.split_first by exact Hs.
    rewrite ExtractFacts.split_plain by exact Ht. reflexivity.
  - intros a b c ->.
    pose proof (ExtractFacts.split_more a (String.append b (String " " c)) EmptyString)
      as H1.
    pose proof (ExtractFacts.split_more b c EmptyString) as H2.
    pose proof (ExtractFacts.split_pieces c EmptyString) as H3.
    destruct (App.splitSpaces
                (String.append a (String " " (String.append b (String " " c))))
                EmptyString) as [|p1 [|p2 [|p3 rest]]]; try reflexivity.
    cbn [length] in H1. lia.
Qed.

